(** * bthread: stack storage allocator and context-switch primitive

    A shallow embedding of [src/bthread/stack.cpp] (the C++ allocator of
    coroutine stacks) and of the assembly routines of
    [src/bthread/context.cpp] for linux x86_64, linux arm64, apple
    x86_64, linux i386, apple i386 and linux arm32, together with the
    properties the specification states about them and further
    properties of the code. *)

From Stdlib Require Import ZArith List Lia Bool.
Import ListNotations.
Local Open Scope Z_scope.

(** ** Machine integers

    C integers are mathematical integers with the wrap-around of their
    width written out.  Pointers, [size_t] and [uintptr_t] are unsigned
    64-bit values; [int] is signed 32-bit; [int64_t], [intptr_t] and
    [ptrdiff_t] are signed 64-bit. *)

Module MachineInt.

Definition INT_MIN : Z := - 2 ^ 31.
Definition INT_MAX : Z := 2 ^ 31 - 1.
Definition INT64_MIN : Z := - 2 ^ 63.
Definition INT64_MAX : Z := 2 ^ 63 - 1.
Definition PTRDIFF_MAX : Z := 2 ^ 63 - 1.

(** Result of an [int] operation: reduction into [INT_MIN .. INT_MAX]. *)
Definition wrap32 (z : Z) : Z := (z + 2 ^ 31) mod 2 ^ 32 - 2 ^ 31.

(** Result of an [int64_t] / [intptr_t] operation. *)
Definition wrap64s (z : Z) : Z := (z + 2 ^ 63) mod 2 ^ 64 - 2 ^ 63.

(** Result of a pointer / [size_t] / [uintptr_t] operation, and the
    conversion of a signed value to one of these types. *)
Definition wrap64 (z : Z) : Z := z mod 2 ^ 64.

Definition is_int (z : Z) : Prop := INT_MIN <= z <= INT_MAX.

End MachineInt.
Import MachineInt.

(** ** The stack storage allocator ([stack.cpp]) *)

Module Stack.

(** Modelled from the spec: the [StackStorage] struct of [bthread/stack.h]
    (the header is not part of the sources at hand): the highest address
    of the region, the usable and guard sizes ([int], as
    [deallocate_stack_storage] adds them into an [int]), and the
    registration token of the memory debugger. *)
Record StackStorage : Type := mkStackStorage {
  bottom : Z;
  stacksize : Z;
  guardsize : Z;
  valgrind_stack_id : Z
}.

Definition set_bottom (v : Z) (s : StackStorage) : StackStorage :=
  mkStackStorage v (stacksize s) (guardsize s) (valgrind_stack_id s).
Definition set_stacksize (v : Z) (s : StackStorage) : StackStorage :=
  mkStackStorage (bottom s) v (guardsize s) (valgrind_stack_id s).
Definition set_guardsize (v : Z) (s : StackStorage) : StackStorage :=
  mkStackStorage (bottom s) (stacksize s) v (valgrind_stack_id s).
Definition set_valgrind_stack_id (v : Z) (s : StackStorage) : StackStorage :=
  mkStackStorage (bottom s) (stacksize s) (guardsize s) v.

(** Calls that leave the process, in the order the code makes them, each
    with its arguments (and its result where it has one). *)
Inductive event : Type :=
| EvMalloc (size result : Z)
| EvFree (addr : Z)
| EvMmap (len result : Z)
| EvMprotect (addr len result : Z)
| EvMunmap (addr len : Z)
| EvValgrindRegister (start finish id : Z)
| EvValgrindDeregister (id : Z).

(** The host: what [getpagesize], [malloc], [mmap] (anonymous, private,
    read-write, address chosen by the kernel), [mprotect] (to [PROT_NONE])
    and the Valgrind client requests answer. *)
Record OS : Type := mkOS {
  getpagesize : Z;
  malloc : Z -> Z;
  mmap : Z -> Z;
  mprotect : Z -> Z -> Z;
  RunningOnValgrind : bool;
  VALGRIND_STACK_REGISTER : Z -> Z -> Z
}.

Definition NULL : Z := 0.
Definition MAP_FAILED : Z := wrap64 (-1).

(** Process-wide state: the live-stack counter [s_stack_count] (an atomic
    [int64_t]) and the calls made so far, oldest first. *)
Record World : Type := mkWorld {
  s_stack_count : Z;
  trace : list event
}.

Definition emit (e : event) (w : World) : World :=
  mkWorld (s_stack_count w) (trace w ++ [e]).

Definition fetch_add (d : Z) (w : World) : World :=
  mkWorld (wrap64s (s_stack_count w + d)) (trace w).

Definition fetch_sub (d : Z) (w : World) : World :=
  mkWorld (wrap64s (s_stack_count w - d)) (trace w).

(** The tail shared by both success paths: registration of the new stack
    with Valgrind when the process runs under it, token 0 otherwise. *)
Definition register_valgrind (os : OS) (stacksize : Z) (s : StackStorage) (w : World)
  : StackStorage * World :=
  if RunningOnValgrind os then
    let lo := wrap64 (bottom s - stacksize) in
    let id := VALGRIND_STACK_REGISTER os (bottom s) lo in
    (set_valgrind_stack_id id s, emit (EvValgrindRegister (bottom s) lo id) w)
  else
    (set_valgrind_stack_id 0 s, w).

(** [allocate_stack_storage(s, stacksize_in, guardsize_in)]: the return
    value, the caller's struct and the process state afterwards.  The
    rate-limited log lines of the failure paths are not part of the
    model. *)
Definition allocate_stack_storage (os : OS) (s : StackStorage)
    (stacksize_in guardsize_in : Z) (w : World) : Z * StackStorage * World :=
  let PAGESIZE := getpagesize os in
  let PAGESIZE_M1 := wrap32 (PAGESIZE - 1) in
  let MIN_STACKSIZE := wrap32 (PAGESIZE * 2) in
  let MIN_GUARDSIZE := PAGESIZE in
  let stacksize :=
    Z.land (wrap32 (Z.max stacksize_in MIN_STACKSIZE + PAGESIZE_M1))
           (Z.lnot PAGESIZE_M1) in
  if guardsize_in <=? 0 then
    let mem := malloc os (wrap64 stacksize) in
    let w := emit (EvMalloc (wrap64 stacksize) mem) w in
    if mem =? NULL then (-1, s, w)
    else
      let w := fetch_add 1 w in
      let s := set_bottom (wrap64 (mem + stacksize)) s in
      let s := set_stacksize stacksize s in
      let s := set_guardsize 0 s in
      let '(s, w) := register_valgrind os stacksize s w in
      (0, s, w)
  else
    let guardsize :=
      Z.land (wrap32 (Z.max guardsize_in MIN_GUARDSIZE + PAGESIZE_M1))
             (Z.lnot PAGESIZE_M1) in
    let memsize := wrap32 (stacksize + guardsize) in
    let mem := mmap os (wrap64 memsize) in
    let w := emit (EvMmap (wrap64 memsize) mem) w in
    if mem =? MAP_FAILED then (-1, s, w)
    else
      let aligned_mem :=
        wrap64 (Z.land (wrap64s (mem + PAGESIZE_M1)) (Z.lnot PAGESIZE_M1)) in
      let offset := wrap32 (aligned_mem - mem) in
      if guardsize <=? offset then
        (-1, s, emit (EvMunmap mem (wrap64 memsize)) w)
      else
        let len := wrap64 (wrap32 (guardsize - offset)) in
        let rc := mprotect os aligned_mem len in
        let w := emit (EvMprotect aligned_mem len rc) w in
        if negb (rc =? 0) then
          (-1, s, emit (EvMunmap mem (wrap64 memsize)) w)
        else
          let w := fetch_add 1 w in
          let s := set_bottom (wrap64 (mem + memsize)) s in
          let s := set_stacksize stacksize s in
          let s := set_guardsize guardsize s in
          let '(s, w) := register_valgrind os stacksize s w in
          (0, s, w).

(** [deallocate_stack_storage(s)]: the process state afterwards (the
    struct is only read). *)
Definition deallocate_stack_storage (os : OS) (s : StackStorage) (w : World) : World :=
  let w :=
    if RunningOnValgrind os
    then emit (EvValgrindDeregister (valgrind_stack_id s)) w
    else w in
  let memsize := wrap32 (stacksize s + guardsize s) in
  if bottom s <=? wrap64 memsize then w
  else
    let w := fetch_sub 1 w in
    if guardsize s <=? 0 then
      emit (EvFree (wrap64 (bottom s - memsize))) w
    else
      emit (EvMunmap (wrap64 (bottom s - memsize)) (wrap64 memsize)) w.

(** *** Vocabulary for the properties *)

(** The local variables of [allocate_stack_storage], as functions of its
    arguments. *)
Definition PAGESIZE_M1 (os : OS) : Z := wrap32 (getpagesize os - 1).

Definition rounded_stacksize (os : OS) (stacksize_in : Z) : Z :=
  Z.land (wrap32 (Z.max stacksize_in (wrap32 (getpagesize os * 2)) + PAGESIZE_M1 os))
         (Z.lnot (PAGESIZE_M1 os)).

Definition rounded_guardsize (os : OS) (guardsize_in : Z) : Z :=
  Z.land (wrap32 (Z.max guardsize_in (getpagesize os) + PAGESIZE_M1 os))
         (Z.lnot (PAGESIZE_M1 os)).

Definition total_memsize (os : OS) (stacksize_in guardsize_in : Z) : Z :=
  wrap32 (rounded_stacksize os stacksize_in + rounded_guardsize os guardsize_in).

Definition aligned_address (os : OS) (mem : Z) : Z :=
  wrap64 (Z.land (wrap64s (mem + PAGESIZE_M1 os)) (Z.lnot (PAGESIZE_M1 os))).

Definition alignment_offset (os : OS) (mem : Z) : Z :=
  wrap32 (aligned_address os mem - mem).

(** A page size is a power of two; [2 ^ 29] is the largest for which two
    pages plus a page still fit an [int]. *)
Definition page_ok (p : Z) : Prop :=
  0 <= Z.log2 p <= 29 /\ p = 2 ^ Z.log2 p.

(** What every host guarantees of its allocation calls: a request of more
    than [PTRDIFF_MAX] bytes is refused, [mmap] refuses the length 0, and a
    block that was granted starts above address 0 and ends inside the
    address space. *)
Record os_sane (os : OS) : Prop := mk_os_sane {
  sane_pagesize : page_ok (getpagesize os);
  sane_malloc_huge : forall n, PTRDIFF_MAX < n -> malloc os n = NULL;
  sane_malloc_fits :
    forall n, malloc os n <> NULL -> 0 < malloc os n /\ malloc os n + n < 2 ^ 64;
  sane_mmap_length :
    forall n, n = 0 \/ PTRDIFF_MAX < n -> mmap os n = MAP_FAILED;
  sane_mmap_fits :
    forall n, mmap os n <> MAP_FAILED -> 0 < mmap os n /\ mmap os n + n < 2 ^ 64
}.

(** The four ways [allocate_stack_storage] gives up, as conditions on its
    arguments and on what the host answers. *)
Definition allocation_fails (os : OS) (stacksize_in guardsize_in : Z) : Prop :=
  let mem := mmap os (wrap64 (total_memsize os stacksize_in guardsize_in)) in
  let gd := rounded_guardsize os guardsize_in in
  let offset := alignment_offset os mem in
  (guardsize_in <= 0 /\
   malloc os (wrap64 (rounded_stacksize os stacksize_in)) = NULL) \/
  (0 < guardsize_in /\ mem = MAP_FAILED) \/
  (0 < guardsize_in /\ mem <> MAP_FAILED /\ gd <= offset) \/
  (0 < guardsize_in /\ mem <> MAP_FAILED /\ offset < gd /\
   mprotect os (aligned_address os mem) (wrap64 (wrap32 (gd - offset))) <> 0).

(** The Valgrind request [deallocate_stack_storage] starts with. *)
Definition deregistered (os : OS) (s : StackStorage) (w : World) : World :=
  if RunningOnValgrind os
  then emit (EvValgrindDeregister (valgrind_stack_id s)) w
  else w.

(** The calls made between two process states. *)
Definition new_events (w w' : World) : list event :=
  skipn (length (trace w)) (trace w').

(** Memory the process holds: heap blocks and mappings. *)
Inductive region : Type :=
| Heap (addr : Z)
| Mapping (addr len : Z).

Definition region_eqb (a b : region) : bool :=
  match a, b with
  | Heap x, Heap y => x =? y
  | Mapping x n, Mapping y k => (x =? y) && (n =? k)
  | _, _ => false
  end.

Fixpoint release (r : region) (l : list region) : list region :=
  match l with
  | [] => []
  | r' :: l' => if region_eqb r r' then l' else r' :: release r l'
  end.

(** The regions held after a sequence of calls, starting from [held]. *)
Fixpoint held_after (t : list event) (held : list region) : list region :=
  match t with
  | [] => held
  | EvMalloc _ r :: t' =>
      held_after t' (if r =? NULL then held else held ++ [Heap r])
  | EvMmap n r :: t' =>
      held_after t' (if r =? MAP_FAILED then held else held ++ [Mapping r n])
  | EvFree a :: t' => held_after t' (release (Heap a) held)
  | EvMunmap a n :: t' => held_after t' (release (Mapping a n) held)
  | _ :: t' => held_after t' held
  end.

Definition is_malloc (e : event) : bool :=
  match e with EvMalloc _ _ => true | _ => false end.
Definition is_mmap (e : event) : bool :=
  match e with EvMmap _ _ => true | _ => false end.
Definition is_mprotect (e : event) : bool :=
  match e with EvMprotect _ _ _ => true | _ => false end.
Definition is_release (e : event) : bool :=
  match e with EvFree _ | EvMunmap _ _ => true | _ => false end.

(** *** Concrete hosts and inputs for the examples *)

(** A host with 4 KiB pages that grants every request of a sensible size
    at a fixed address, and on which [mprotect] succeeds. *)
Definition sample_os : OS :=
  mkOS 4096
       (fun n => if PTRDIFF_MAX <? n then NULL else 0x10000)
       (fun n => if (n =? 0) || (PTRDIFF_MAX <? n) then MAP_FAILED
                 else 0x7f0000000000)
       (fun _ _ => 0)
       false
       (fun _ _ => 0).

(** The same host with a failing [mprotect]. *)
Definition protect_failing_os : OS :=
  mkOS 4096 (malloc sample_os) (mmap sample_os) (fun _ _ => -1)
       false (fun _ _ => 0).

(** The same host under Valgrind, which hands out the token 7. *)
Definition valgrind_os : OS :=
  mkOS 4096 (malloc sample_os) (mmap sample_os) (fun _ _ => 0)
       true (fun _ _ => 7).

Definition zero_storage : StackStorage := mkStackStorage 0 0 0 0.

(** A handle whose two sizes, a gigabyte each, add up to one more than
    [INT_MAX]; a handle with a negative size; and a handle as a guarded
    allocation of two pages and a guard page leaves it. *)
Definition oversized_storage : StackStorage :=
  mkStackStorage 0x7f0000000000 0x40000000 0x40000000 0.
Definition negative_storage : StackStorage := mkStackStorage 73728 (-1) 0 0.
Definition mapped_storage : StackStorage :=
  mkStackStorage 0x7f0000003000 8192 4096 0.
Definition fresh_world : World := mkWorld 0 [].

(** *** The gauge and a client of the allocator *)

(** [get_stack_count]: what the exported gauge [bthread_stack_count]
    reads. *)
Definition get_stack_count (w : World) : Z := s_stack_count w.

Definition is_valgrind (e : event) : bool :=
  match e with
  | EvValgrindRegister _ _ _ | EvValgrindDeregister _ => true
  | _ => false
  end.

(** A handle as a successful allocation leaves it: the sizes add up
    within an [int], and the bottom lies above them inside the address
    space. *)
Definition handle_live (s : StackStorage) : Prop :=
  0 <= stacksize s + guardsize s <= INT_MAX /\
  stacksize s + guardsize s < bottom s < 2 ^ 64.

(** What a client asks for: a new stack, from the host as it answers at
    that moment, or the release of the [k]-th stack it holds. *)
Inductive request : Type :=
| Allocate (os : OS) (size guard : Z)
| Deallocate (os : OS) (k : nat).

Definition request_ok (r : request) : Prop :=
  match r with
  | Allocate os size guard => os_sane os /\ is_int size /\ is_int guard
  | Deallocate _ _ => True
  end.

Fixpoint remove_nth {A : Type} (k : nat) (l : list A) : list A :=
  match l, k with
  | [], _ => []
  | _ :: l', O => l'
  | a :: l', S k' => a :: remove_nth k' l'
  end.

(** A client that keeps the handles of its stacks in a list: each
    allocation fills a fresh struct and keeps it on success, each release
    hands a kept handle to [deallocate_stack_storage] and forgets it; a
    release of a handle the client does not hold is not made. *)
Fixpoint serve (rs : list request) (live : list StackStorage) (w : World)
  : list StackStorage * World :=
  match rs with
  | [] => (live, w)
  | Allocate os size guard :: rs' =>
      let r := allocate_stack_storage os zero_storage size guard w in
      serve rs' (if fst (fst r) =? 0 then live ++ [snd (fst r)] else live) (snd r)
  | Deallocate os k :: rs' =>
      match nth_error live k with
      | Some s => serve rs' (remove_nth k live) (deallocate_stack_storage os s w)
      | None => serve rs' live w
      end
  end.

End Stack.

(** ** Byte-addressed memory shared by both instruction sets

    Addresses are 64-bit and wrap around; multi-byte values are
    little-endian. *)

Module Memory.

Definition mem : Type := Z -> Z.

Definition byte_of (v i : Z) : Z := (v / 2 ^ (8 * i)) mod 256.

(** The [n] bytes from address [a] on, as one number. *)
Fixpoint load_bytes (n : nat) (m : mem) (a : Z) : Z :=
  match n with
  | O => 0
  | S k => m (wrap64 a) + 256 * load_bytes k m (a + 1)
  end.

(** Writing the low [n] bytes of [v] from address [a] on. *)
Definition store_bytes (n : nat) (a v : Z) (m : mem) : mem :=
  fun x =>
    let i := wrap64 (x - a) in
    if i <? Z.of_nat n then byte_of v i else m x.

Definition load64 := load_bytes 8.
Definition load32 := load_bytes 4.
Definition load16 := load_bytes 2.
Definition store64 := store_bytes 8.
Definition store32 := store_bytes 4.
Definition store16 := store_bytes 2.

(** Address ranges [a, a+n) that do not wrap, and their disjointness. *)
Definition in_range (a n : Z) : Prop := 0 <= a /\ a + n <= 2 ^ 64.
Definition disjoint (a n b k : Z) : Prop := a + n <= b \/ b + k <= a.
Definition agree (m1 m2 : mem) (a n : Z) : Prop :=
  forall x, a <= x < a + n -> m1 x = m2 x.

End Memory.
Import Memory.

(** ** linux x86_64 ([context.cpp], System V ABI, AT&T operand order) *)

Module X86_64.

Inductive reg : Type :=
| RAX | RBX | RCX | RDX | RSI | RDI | RBP | RSP
| R8 | R12 | R13 | R14 | R15.

Definition reg_eqb (a b : reg) : bool :=
  match a, b with
  | RAX, RAX | RBX, RBX | RCX, RCX | RDX, RDX | RSI, RSI | RDI, RDI
  | RBP, RBP | RSP, RSP | R8, R8 | R12, R12 | R13, R13 | R14, R14
  | R15, R15 => true
  | _, _ => false
  end.

(** The part of the processor state the routines touch: general-purpose
    registers, the instruction pointer, the zero flag, the SSE control and
    status register, the x87 control word, and memory. *)
Record state : Type := mkState {
  regs : reg -> Z;
  rip : Z;
  zf : bool;
  mxcsr : Z;
  fpucw : Z;
  memory : mem
}.

Definition get (r : reg) (s : state) : Z := regs s r.

Definition set (r : reg) (v : Z) (s : state) : state :=
  mkState (fun r' => if reg_eqb r' r then v else regs s r')
          (rip s) (zf s) (mxcsr s) (fpucw s) (memory s).

Definition set_mem (m : mem) (s : state) : state :=
  mkState (regs s) (rip s) (zf s) (mxcsr s) (fpucw s) m.

Definition set_rip (v : Z) (s : state) : state :=
  mkState (regs s) v (zf s) (mxcsr s) (fpucw s) (memory s).

Definition set_zf (b : bool) (s : state) : state :=
  mkState (regs s) (rip s) b (mxcsr s) (fpucw s) (memory s).

Definition set_mxcsr (v : Z) (s : state) : state :=
  mkState (regs s) (rip s) (zf s) v (fpucw s) (memory s).

Definition set_fpucw (v : Z) (s : state) : state :=
  mkState (regs s) (rip s) (zf s) (mxcsr s) v (memory s).

(** *** Instructions *)

Definition instr : Type := state -> state.

Definition seq (i j : instr) : instr := fun s => j (i s).
Infix ";;" := seq (at level 61, right associativity).

(** [pushq %r] *)
Definition pushq (r : reg) : instr := fun s =>
  let sp := wrap64 (get RSP s - 8) in
  set_mem (store64 sp (get r s) (memory s)) (set RSP sp s).

(** [popq %r] *)
Definition popq (r : reg) : instr := fun s =>
  let v := load64 (memory s) (get RSP s) in
  set r v (set RSP (wrap64 (get RSP s + 8)) s).

(** [leaq d(%b), %r] *)
Definition leaq (d : Z) (b r : reg) : instr := fun s =>
  set r (wrap64 (get b s + d)) s.

(** [leaq label(%rip), %r], for a label linked at address [a] *)
Definition leaq_label (a : Z) (r : reg) : instr := set r a.

(** [movq %a, %b] *)
Definition movq (a b : reg) : instr := fun s => set b (get a s) s.

(** [movq %a, d(%b)] *)
Definition movq_store (a : reg) (d : Z) (b : reg) : instr := fun s =>
  set_mem (store64 (wrap64 (get b s + d)) (get a s) (memory s)) s.

(** [andq $i, %r] *)
Definition andq (i : Z) (r : reg) : instr := fun s =>
  let v := Z.land (wrap64 i) (get r s) in
  set_zf (v =? 0) (set r v s).

(** [xorq %a, %b] *)
Definition xorq (a b : reg) : instr := fun s =>
  let v := Z.lxor (get a s) (get b s) in
  set_zf (v =? 0) (set b v s).

(** [cmp $i, %r]: of the flags only ZF is read afterwards *)
Definition cmp (i : Z) (r : reg) : instr := fun s =>
  set_zf (get r s =? wrap64 i) s.

(** [je L], [L] being the label right after the block [body] *)
Definition je (body : instr) : instr := fun s =>
  if zf s then s else body s.

(** [stmxcsr d(%b)] *)
Definition stmxcsr (d : Z) (b : reg) : instr := fun s =>
  set_mem (store32 (wrap64 (get b s + d)) (mxcsr s) (memory s)) s.

(** [fnstcw d(%b)] *)
Definition fnstcw (d : Z) (b : reg) : instr := fun s =>
  set_mem (store16 (wrap64 (get b s + d)) (fpucw s) (memory s)) s.

(** [fldcw d(%b)] *)
Definition fldcw (d : Z) (b : reg) : instr := fun s =>
  set_fpucw (load16 (memory s) (wrap64 (get b s + d))) s.

(** [jmp *%r] *)
Definition jmp (r : reg) : instr := fun s => set_rip (get r s) s.

(** [ret] *)
Definition ret : instr := fun s =>
  set_rip (load64 (memory s) (get RSP s))
          (set RSP (wrap64 (get RSP s + 8)) s).

(** *** Programs that may fault

    One instruction of the routines can raise an exception on the data it
    is given: [ldmxcsr] raises a general-protection exception (#GP) when
    the word it loads has a reserved bit of MXCSR set.  Bits 16 to 31 are
    reserved on every processor; the model takes the others as
    implemented ([MXCSR_MASK = 0xFFFF]).  So a run of a program either
    reaches its end, or stops with the exception raised, in the state the
    faulting instruction found. *)
Inductive result : Type :=
| Done (s : state)
| Fault (s : state).

Definition prog : Type := state -> result.

(** An instruction that cannot fault, as a program. *)
Definition exec (i : instr) : prog := fun s => Done (i s).
Coercion exec : instr >-> prog.

(** Sequencing of programs: nothing runs after a fault. *)
Definition andthen (p q : prog) : prog := fun s =>
  match p s with
  | Done s' => q s'
  | Fault s' => Fault s'
  end.
Infix ">>" := andthen (at level 62, right associativity).

(** The state a run ended in, either way. *)
Definition state_of (r : result) : state :=
  match r with
  | Done s => s
  | Fault s => s
  end.

(** A word [ldmxcsr] accepts: no bit from 16 up is set. *)
Definition loadable (v : Z) : bool := Z.shiftr v 16 =? 0.

(** [ldmxcsr d(%b)] *)
Definition ldmxcsr (d : Z) (b : reg) : prog := fun s =>
  let v := load32 (memory s) (wrap64 (get b s + d)) in
  if loadable v then Done (set_mxcsr v s) else Fault s.

(** [je L] around a block that may fault *)
Definition je_over (body : prog) : prog := fun s =>
  if zf s then Done s else body s.

(** *** The routines *)

(** [bthread_jump_fcontext(ofc, nfc, vp, preserve_fpu)], arguments in
    [%rdi], [%rsi], [%rdx], [%rcx].  The instructions up to the second
    [cmp] and those from the [leaq] on cannot fault and are sequenced as
    state transformers; the block with [ldmxcsr] between them can. *)
Definition bthread_jump_fcontext : prog :=
  (pushq RBP ;;
   pushq RBX ;;
   pushq R15 ;;
   pushq R14 ;;
   pushq R13 ;;
   pushq R12 ;;
   leaq (-0x8) RSP RSP ;;
   cmp 0 RCX ;;
   je (stmxcsr 0 RSP ;;
       fnstcw 0x4 RSP) ;;
   movq_store RSP 0 RDI ;;
   movq RSI RSP ;;
   cmp 0 RCX) >>
  je_over (ldmxcsr 0 RSP >>
           fldcw 0x4 RSP) >>
  (leaq 0x8 RSP RSP ;;
   popq R12 ;;
   popq R13 ;;
   popq R14 ;;
   popq R15 ;;
   popq RBX ;;
   popq RBP ;;
   popq R8 ;;
   movq RDX RAX ;;
   movq RDX RDI ;;
   jmp R8).

(** [bthread_make_fcontext(sp, size, fn)], arguments in [%rdi], [%rsi],
    [%rdx]; [finish] is the address the label [finish] is linked at. *)
Definition bthread_make_fcontext (finish : Z) : instr :=
  movq RDI RAX ;;
  andq (-16) RAX ;;
  leaq (-0x48) RAX RAX ;;
  movq_store RDX 0x38 RAX ;;
  stmxcsr 0 RAX ;;
  fnstcw 0x4 RAX ;;
  leaq_label finish RCX ;;
  movq_store RCX 0x40 RAX ;;
  ret.

(** What running code ends in: still running, or the process has left
    through [_exit] with a status. *)
Inductive outcome : Type :=
| Running (s : state)
| Exited (status : Z).

(** [call _exit@PLT]: [_exit(int status)] takes its argument from [%edi]
    and does not return, so the [hlt] behind the call is never reached. *)
Definition call_exit (s : state) : outcome := Exited (wrap32 (get RDI s)).

(** The block at the label [finish]. *)
Definition finish_block (s : state) : outcome := call_exit (xorq RDI RDI s).

(** Execution continues with whatever is at [%rip]; of the program text
    this model knows the block at [finish]. *)
Definition continue (finish : Z) (s : state) : outcome :=
  if rip s =? finish then finish_block s else Running s.

(** *** Vocabulary for the properties *)

(** The two halves of [bthread_jump_fcontext]: up to and including the
    store of [%rsp] into [*ofc], and from the load of [%rsp] on. *)
Definition save_context : instr :=
  pushq RBP ;;
  pushq RBX ;;
  pushq R15 ;;
  pushq R14 ;;
  pushq R13 ;;
  pushq R12 ;;
  leaq (-0x8) RSP RSP ;;
  cmp 0 RCX ;;
  je (stmxcsr 0 RSP ;;
      fnstcw 0x4 RSP) ;;
  movq_store RSP 0 RDI.

Definition restore_context : prog :=
  (movq RSI RSP ;;
   cmp 0 RCX) >>
  je_over (ldmxcsr 0 RSP >>
           fldcw 0x4 RSP) >>
  (leaq 0x8 RSP RSP ;;
   popq R12 ;;
   popq R13 ;;
   popq R14 ;;
   popq R15 ;;
   popq RBX ;;
   popq RBP ;;
   popq R8 ;;
   movq RDX RAX ;;
   movq RDX RDI ;;
   jmp R8).

(** A 64-bit value. *)
Definition word (v : Z) : Prop := 0 <= v < 2 ^ 64.

(** A machine state: registers and [%rip] hold 64-bit values, MXCSR 32
    bits, the x87 control word 16. *)
Definition well_formed (s : state) : Prop :=
  (forall r, word (get r s)) /\ word (rip s) /\
  0 <= mxcsr s < 2 ^ 32 /\ 0 <= fpucw s < 2 ^ 16.


(** The MXCSR of the state is a value the register can hold: its reserved
    bits are clear, as the processor keeps them. *)
Definition mxcsr_ok (s : state) : Prop := loadable (mxcsr s) = true.

(** The word a switch out of [s] leaves in the first four bytes of the
    frame on its stack, where a switch back with [preserve_fpu] set looks
    for MXCSR: MXCSR when [preserve_fpu] is set, and otherwise what those
    bytes held before, since the switch does not write them. *)
Definition frame_mxcsr (s : state) : Z :=
  if get RCX s =? 0 then load32 (memory s) (get RSP s - 56) else mxcsr s.

(** A state from which [bthread_jump_fcontext] can suspend the running
    code: below [%rsp] the stack has room for the 56 bytes the routine
    pushes, the return address of the call lies at [%rsp], and the slot
    [*ofc] lies apart from these 64 bytes. *)
Definition can_suspend (s : state) : Prop :=
  56 <= get RSP s /\ get RSP s + 8 < 2 ^ 64 /\
  in_range (get RDI s) 8 /\
  disjoint (get RDI s) 8 (get RSP s - 56) 64.

(** The [n] bytes at [ctx] lie apart from everything a switch out of [s]
    writes: the 56 bytes below [%rsp] and the slot [*ofc]. *)
Definition frame_apart (s : state) (ctx n : Z) : Prop :=
  0 <= ctx /\ ctx + n < 2 ^ 64 /\
  disjoint ctx n (get RSP s - 56) 56 /\
  disjoint ctx n (get RDI s) 8.

(** *** Concrete states for the examples *)

Definition regs_of (rdi rsi rdx rcx rsp : Z) : reg -> Z := fun r =>
  match r with
  | RDI => rdi | RSI => rsi | RDX => rdx | RCX => rcx | RSP => rsp
  | RBP => 0xb | RBX => 0xc | R12 => 0x12 | R13 => 0x13 | R14 => 0x14
  | R15 => 0x15 | _ => 0
  end.

(** Where the examples place the label [finish] and the entry function. *)
Definition finish_at : Z := 0x401000.
Definition entry_at : Z := 0x402000.

(** A caller about to run [bthread_make_fcontext(0x20000, 0x8000, entry_at)]
    on its own stack at [0x7000], whose return address is [0x400100]. *)
Definition make_call : state :=
  mkState (regs_of 0x20000 0x8000 entry_at 0 0x7000) 0 false 0x1f80 0x37f
          (store64 0x7000 0x400100 (fun _ => 0)).

(** The context built by that call, and the memory it leaves. *)
Definition made_ctx : Z := get RAX (bthread_make_fcontext finish_at make_call).
Definition made_memory : mem := memory (bthread_make_fcontext finish_at make_call).

(** The same caller about to run
    [bthread_jump_fcontext(0x6000, made_ctx, 42, preserve_fpu)], the call
    having pushed the return address [0x400200] at [0x6f00]. *)
Definition jump_call (preserve_fpu : Z) : state :=
  mkState (regs_of 0x6000 made_ctx 42 preserve_fpu 0x6f00) 0 false 0x1f80 0x37f
          (store64 0x6f00 0x400200 made_memory).

(** A state of the code running in the new context that switches back,
    [bthread_jump_fcontext(0x1f000, ctx, 7, 0)], [ctx] being what the
    switch out of [jump_call 1] left in its slot at [0x6000]. *)
Definition switch_back : state :=
  mkState (regs_of 0x1f000
             (load64 (memory (state_of (bthread_jump_fcontext (jump_call 1)))) 0x6000)
             7 0 0x1ff00)
          entry_at false 0x1f80 0x37f
          (memory (state_of (bthread_jump_fcontext (jump_call 1)))).

(** A state of the entry function about to execute [ret] with the stack
    as it found it. *)
Definition entry_returns : state :=
  mkState (regs_of 1 2 3 4 (made_ctx + 0x40)) (entry_at + 0x20) false
          0x1f80 0x37f (memory (state_of (bthread_jump_fcontext (jump_call 1)))).

(** The caller of [jump_call 0], switching with [preserve_fpu] clear, when
    the four bytes at [0x6ec8], 56 below its stack pointer, hold
    [0x11f80], a word with bit 16 set. *)
Definition stale_jump_call : state :=
  mkState (regs_of 0x6000 made_ctx 42 0 0x6f00) 0 false 0x1f80 0x37f
          (store32 0x6ec8 0x11f80 (store64 0x6f00 0x400200 made_memory)).

(** The code of the new context switching back into that call with
    [preserve_fpu] set: [bthread_jump_fcontext(0x1f000, ctx, 7, 1)]. *)
Definition stale_switch_back : state :=
  mkState (regs_of 0x1f000
             (load64 (memory (state_of (bthread_jump_fcontext stale_jump_call))) 0x6000)
             7 1 0x1ff00)
          entry_at false 0x1f80 0x37f
          (memory (state_of (bthread_jump_fcontext stale_jump_call))).

End X86_64.

(** ** linux arm64 ([context.cpp], AAPCS64) *)

Module Arm64.

(** Integer registers [x0 .. x30] and the low halves [d0 .. d31] of the
    vector registers are indexed by their number. *)
Record state : Type := mkState {
  x : nat -> Z;
  d : nat -> Z;
  sp : Z;
  pc : Z;
  memory : mem
}.

Definition set_x (n : nat) (v : Z) (s : state) : state :=
  mkState (fun k => if Nat.eqb k n then v else x s k) (d s) (sp s) (pc s) (memory s).

Definition set_d (n : nat) (v : Z) (s : state) : state :=
  mkState (x s) (fun k => if Nat.eqb k n then v else d s k) (sp s) (pc s) (memory s).

Definition set_sp (v : Z) (s : state) : state :=
  mkState (x s) (d s) v (pc s) (memory s).

Definition set_pc (v : Z) (s : state) : state :=
  mkState (x s) (d s) (sp s) v (memory s).

Definition set_mem (m : mem) (s : state) : state :=
  mkState (x s) (d s) (sp s) (pc s) m.

Definition instr : Type := state -> state.

Definition seq (i j : instr) : instr := fun s => j (i s).
Infix ";;" := seq (at level 61, right associativity).

(** [sub sp, sp, #i] and [add sp, sp, #i] *)
Definition sub_sp (i : Z) : instr := fun s => set_sp (wrap64 (sp s - i)) s.
Definition add_sp (i : Z) : instr := fun s => set_sp (wrap64 (sp s + i)) s.

(** [stp da, db, [sp, #o]] and [ldp da, db, [sp, #o]] *)
Definition stp_d (a b : nat) (o : Z) : instr := fun s =>
  set_mem (store64 (wrap64 (sp s + o + 8)) (d s b)
            (store64 (wrap64 (sp s + o)) (d s a) (memory s))) s.
Definition ldp_d (a b : nat) (o : Z) : instr := fun s =>
  set_d b (load64 (memory s) (wrap64 (sp s + o + 8)))
    (set_d a (load64 (memory s) (wrap64 (sp s + o))) s).

(** [stp xa, xb, [sp, #o]] and [ldp xa, xb, [sp, #o]] *)
Definition stp_x (a b : nat) (o : Z) : instr := fun s =>
  set_mem (store64 (wrap64 (sp s + o + 8)) (x s b)
            (store64 (wrap64 (sp s + o)) (x s a) (memory s))) s.
Definition ldp_x (a b : nat) (o : Z) : instr := fun s =>
  set_x b (load64 (memory s) (wrap64 (sp s + o + 8)))
    (set_x a (load64 (memory s) (wrap64 (sp s + o))) s).

(** [str xa, [sp, #o]] and [ldr xa, [sp, #o]] *)
Definition str_sp (a : nat) (o : Z) : instr := fun s =>
  set_mem (store64 (wrap64 (sp s + o)) (x s a) (memory s)) s.
Definition ldr_sp (a : nat) (o : Z) : instr := fun s =>
  set_x a (load64 (memory s) (wrap64 (sp s + o))) s.

(** [str xa, [xb]] *)
Definition str_x (a b : nat) : instr := fun s =>
  set_mem (store64 (x s b) (x s a) (memory s)) s.

(** [mov xa, sp], [mov sp, xa] and [mov xa, xb] *)
Definition mov_from_sp (a : nat) : instr := fun s => set_x a (sp s) s.
Definition mov_to_sp (a : nat) : instr := fun s => set_sp (x s a) s.
Definition mov (a b : nat) : instr := fun s => set_x a (x s b) s.

(** [ret xa] *)
Definition ret (a : nat) : instr := fun s => set_pc (x s a) s.

(** [bthread_jump_fcontext(ofc, nfc, vp, preserve_fpu)], arguments in
    [x0], [x1], [x2], [w3].  The two tests of [w3] are commented out in
    the source, so no instruction reads [x3]. *)
Definition bthread_jump_fcontext : instr :=
  sub_sp 0xb0 ;;
  stp_d 8 9 0x00 ;;
  stp_d 10 11 0x10 ;;
  stp_d 12 13 0x20 ;;
  stp_d 14 15 0x30 ;;
  stp_x 19 20 0x40 ;;
  stp_x 21 22 0x50 ;;
  stp_x 23 24 0x60 ;;
  stp_x 25 26 0x70 ;;
  stp_x 27 28 0x80 ;;
  stp_x 29 30 0x90 ;;
  str_sp 30 0xa0 ;;
  mov_from_sp 4 ;;
  str_x 4 0 ;;
  mov_to_sp 1 ;;
  ldp_d 8 9 0x00 ;;
  ldp_d 10 11 0x10 ;;
  ldp_d 12 13 0x20 ;;
  ldp_d 14 15 0x30 ;;
  ldp_x 19 20 0x40 ;;
  ldp_x 21 22 0x50 ;;
  ldp_x 23 24 0x60 ;;
  ldp_x 25 26 0x70 ;;
  ldp_x 27 28 0x80 ;;
  ldp_x 29 30 0x90 ;;
  mov 0 2 ;;
  ldr_sp 4 0xa0 ;;
  add_sp 0xb0 ;;
  ret 4.

(** *** Vocabulary for the properties *)

(** The slot of [d8 .. d15] in a context frame: [dn] lies at offset
    [8 * (n - 8)]. *)
Definition d_slot (n : nat) : Z := 8 * (Z.of_nat n - 8).

(** A state from which [bthread_jump_fcontext] can suspend the running
    code: the stack has room for the frame of [0xb0] bytes, and the slot
    [*ofc] lies apart from it. *)
Definition can_suspend (s : state) : Prop :=
  0xb0 <= sp s /\ sp s < 2 ^ 64 /\
  in_range (x s 0) 8 /\
  disjoint (x s 0) 8 (sp s - 0xb0) 0xb0.

(** The frame at [ctx] lies apart from everything a switch out of [s]
    writes. *)
Definition frame_apart (s : state) (ctx : Z) : Prop :=
  0 <= ctx /\ ctx + 0xb0 < 2 ^ 64 /\
  disjoint ctx 0xb0 (sp s - 0xb0) 0xb0 /\
  disjoint ctx 0xb0 (x s 0) 8.

(** *** A concrete state for the examples

    A call [bthread_jump_fcontext(0x6000, 0x20000, 42, preserve_fpu)] with
    [dn = 100 + n], the stack at [0x7000], and a target frame at [0x20000]
    whose slot for [dn] holds [200 + n]. *)
Definition frame_memory : mem := fun a =>
  if (0x20000 <=? a) && (a <? 0x20040) && (a mod 8 =? 0)
  then 200 + 8 + (a - 0x20000) / 8 else 0.

Definition jump_call (preserve_fpu : Z) : state :=
  mkState (fun n => match n with
                    | 0%nat => 0x6000 | 1%nat => 0x20000 | 2%nat => 42
                    | 3%nat => preserve_fpu | _ => 0
                    end)
          (fun n => 100 + Z.of_nat n)
          0x7000 0 frame_memory.

(** *** [bthread_make_fcontext] and the block at [finish] *)

(** [and xa, xb, #m] *)
Definition and_imm (a b : nat) (m : Z) : instr := fun s =>
  set_x a (Z.land (x s b) (wrap64 m)) s.

(** [sub xa, xb, #i] *)
Definition sub_imm (a b : nat) (i : Z) : instr := fun s =>
  set_x a (wrap64 (x s b - i)) s.

(** [str xa, [xb, #o]] *)
Definition str_off (a b : nat) (o : Z) : instr := fun s =>
  set_mem (store64 (wrap64 (x s b + o)) (x s a) (memory s)) s.

(** [adr xa, label], for a label linked at address [l] *)
Definition adr (a : nat) (l : Z) : instr := set_x a l.

(** [mov xa, #i] *)
Definition mov_imm (a : nat) (i : Z) : instr := set_x a i.

(** [bthread_make_fcontext(sp, size, fn)], arguments in [x0], [x1], [x2];
    [finish] is the address the label [finish] is linked at. *)
Definition bthread_make_fcontext (finish : Z) : instr :=
  and_imm 0 0 (Z.lnot 0xF) ;;
  sub_imm 0 0 0xb0 ;;
  str_off 2 0 0xa0 ;;
  adr 1 finish ;;
  str_off 1 0 0x98 ;;
  ret 30.

Inductive outcome : Type :=
| Running (s : state)
| Exited (status : Z).

(** [bl _exit]: [_exit(int status)] takes its argument from [w0] and does
    not return. *)
Definition bl_exit (s : state) : outcome := Exited (wrap32 (x s 0)).

(** The block at the label [finish]. *)
Definition finish_block (s : state) : outcome := bl_exit (mov_imm 0 0 s).

(** Execution continues with whatever is at [pc]; of the program text
    this model knows the block at [finish]. *)
Definition continue (finish : Z) (s : state) : outcome :=
  if pc s =? finish then finish_block s else Running s.

(** The slot of [x19 .. x30] in a context frame: [xn] lies at offset
    [0x40 + 8 * (n - 19)]; the resume address lies at [0xa0]. *)
Definition x_slot (n : nat) : Z := 0x40 + 8 * (Z.of_nat n - 19).

(** The registers a switch saves hold 64-bit values. *)
Definition saved_are_words (s : state) : Prop :=
  (forall n, (19 <= n <= 30)%nat -> 0 <= x s n < 2 ^ 64) /\
  (forall n, (8 <= n <= 15)%nat -> 0 <= d s n < 2 ^ 64).

(** *** Further concrete states *)

Definition finish_at : Z := 0x401000.
Definition entry_at : Z := 0x402000.

(** A caller about to run [bthread_make_fcontext(0x30008, 0x8000,
    entry_at)], to return to [0x400100]. *)
Definition make_call : state :=
  mkState (fun n => match n with
                    | 0%nat => 0x30008 | 1%nat => 0x8000 | 2%nat => entry_at
                    | 30%nat => 0x400100 | _ => Z.of_nat n
                    end)
          (fun n => 100 + Z.of_nat n)
          0x7000 0 (fun _ => 0).

(** The same caller about to run
    [bthread_jump_fcontext(0x6000, ctx, 42, 0)] on the context made, to
    return to [0x400200]. *)
Definition first_jump : state :=
  mkState (fun n => match n with
                    | 0%nat => 0x6000
                    | 1%nat => x (bthread_make_fcontext finish_at make_call) 0
                    | 2%nat => 42
                    | 30%nat => 0x400200 | _ => Z.of_nat n
                    end)
          (fun n => 100 + Z.of_nat n)
          0x7000 0 (memory (bthread_make_fcontext finish_at make_call)).

(** The code of the new context switching back,
    [bthread_jump_fcontext(0x2f000, ctx', 7, 0)], [ctx'] being what the
    first switch left at [0x6000]. *)
Definition switch_back : state :=
  mkState (fun n => match n with
                    | 0%nat => 0x2f000
                    | 1%nat => load64 (memory (bthread_jump_fcontext first_jump)) 0x6000
                    | 2%nat => 7
                    | _ => 0
                    end)
          (fun _ => 0)
          0x2fe00 entry_at (memory (bthread_jump_fcontext first_jump)).

(** The entry function about to execute [ret] with the link register it
    was entered with. *)
Definition entry_returns : state :=
  mkState (fun n => match n with
                    | 30%nat => x (bthread_jump_fcontext first_jump) 30
                    | _ => 5
                    end)
          (fun _ => 0)
          (sp (bthread_jump_fcontext first_jump)) (entry_at + 0x20)
          (memory (bthread_jump_fcontext first_jump)).

End Arm64.

(** ** apple x86_64 ([context.cpp])

    The routines of this target use the registers, state and instructions
    of the linux x86_64 ones; [bthread_make_fcontext] masks the stack top
    through [%r8]. *)

Module AppleX86_64.
Import X86_64.

(** [movabs $i, %r] *)
Definition movabs (i : Z) (r : reg) : instr := set r (wrap64 i).

(** [andq %a, %b] *)
Definition andq_reg (a b : reg) : instr := fun s =>
  let v := Z.land (get a s) (get b s) in
  set_zf (v =? 0) (set b v s).

(** [_bthread_jump_fcontext] *)
Definition bthread_jump_fcontext : prog :=
  (pushq RBP ;;
   pushq RBX ;;
   pushq R15 ;;
   pushq R14 ;;
   pushq R13 ;;
   pushq R12 ;;
   leaq (-0x8) RSP RSP ;;
   cmp 0 RCX ;;
   je (stmxcsr 0 RSP ;;
       fnstcw 0x4 RSP) ;;
   movq_store RSP 0 RDI ;;
   movq RSI RSP ;;
   cmp 0 RCX) >>
  je_over (ldmxcsr 0 RSP >>
           fldcw 0x4 RSP) >>
  (leaq 0x8 RSP RSP ;;
   popq R12 ;;
   popq R13 ;;
   popq R14 ;;
   popq R15 ;;
   popq RBX ;;
   popq RBP ;;
   popq R8 ;;
   movq RDX RAX ;;
   movq RDX RDI ;;
   jmp R8).

(** [_bthread_make_fcontext] *)
Definition bthread_make_fcontext (finish : Z) : instr :=
  movq RDI RAX ;;
  movabs (-16) R8 ;;
  andq_reg R8 RAX ;;
  leaq (-0x48) RAX RAX ;;
  movq_store RDX 0x38 RAX ;;
  stmxcsr 0 RAX ;;
  fnstcw 0x4 RAX ;;
  leaq_label finish RCX ;;
  movq_store RCX 0x40 RAX ;;
  ret.

(** The block at [finish]: [xorq %rdi, %rdi; call __exit; hlt]. *)
Definition finish_block (s : state) : outcome := call_exit (xorq RDI RDI s).

End AppleX86_64.

(** ** Byte-addressed memory of the 32-bit targets

    Addresses are 32-bit and wrap around; multi-byte values are
    little-endian. *)

Module Memory32.

(** Result of a 32-bit register or address operation. *)
Definition wrap_u32 (z : Z) : Z := z mod 2 ^ 32.

(** The [n] bytes from address [a] on, as one number. *)
Fixpoint load (n : nat) (m : mem) (a : Z) : Z :=
  match n with
  | O => 0
  | S k => m (wrap_u32 a) + 256 * load k m (a + 1)
  end.

(** Writing the low [n] bytes of [v] from address [a] on. *)
Definition store (n : nat) (a v : Z) (m : mem) : mem :=
  fun x =>
    let i := wrap_u32 (x - a) in
    if i <? Z.of_nat n then byte_of v i else m x.

Definition loadd := load 8.
Definition loadw := load 4.
Definition loadh := load 2.
Definition stored := store 8.
Definition storew := store 4.
Definition storeh := store 2.

(** An address range [a, a+n) that does not wrap. *)
Definition in_range32 (a n : Z) : Prop := 0 <= a /\ a + n <= 2 ^ 32.

End Memory32.
Import Memory32.

(** ** linux i386 ([context.cpp], cdecl: arguments on the stack) *)

Module I386.

Inductive reg : Type :=
| EAX | ECX | EDX | EBX | ESP | EBP | ESI | EDI.

Definition reg_eqb (a b : reg) : bool :=
  match a, b with
  | EAX, EAX | ECX, ECX | EDX, EDX | EBX, EBX | ESP, ESP | EBP, EBP
  | ESI, ESI | EDI, EDI => true
  | _, _ => false
  end.

Record state : Type := mkState {
  regs : reg -> Z;
  eip : Z;
  zf : bool;
  mxcsr : Z;
  fpucw : Z;
  memory : mem
}.

Definition get (r : reg) (s : state) : Z := regs s r.

Definition set (r : reg) (v : Z) (s : state) : state :=
  mkState (fun r' => if reg_eqb r' r then v else regs s r')
          (eip s) (zf s) (mxcsr s) (fpucw s) (memory s).

Definition set_mem (m : mem) (s : state) : state :=
  mkState (regs s) (eip s) (zf s) (mxcsr s) (fpucw s) m.

Definition set_eip (v : Z) (s : state) : state :=
  mkState (regs s) v (zf s) (mxcsr s) (fpucw s) (memory s).

Definition set_zf (b : bool) (s : state) : state :=
  mkState (regs s) (eip s) b (mxcsr s) (fpucw s) (memory s).

Definition set_mxcsr (v : Z) (s : state) : state :=
  mkState (regs s) (eip s) (zf s) v (fpucw s) (memory s).

Definition set_fpucw (v : Z) (s : state) : state :=
  mkState (regs s) (eip s) (zf s) (mxcsr s) v (memory s).

(** *** Instructions *)

Definition instr : Type := state -> state.

Definition seq (i j : instr) : instr := fun s => j (i s).
Infix ";;" := seq (at level 61, right associativity).

(** [movl d(%b), %r] *)
Definition movl_load (d : Z) (b r : reg) : instr := fun s =>
  set r (loadw (memory s) (wrap_u32 (get b s + d))) s.

(** [movl %a, d(%b)] *)
Definition movl_store (a : reg) (d : Z) (b : reg) : instr := fun s =>
  set_mem (storew (wrap_u32 (get b s + d)) (get a s) (memory s)) s.

(** [movl %a, %b] *)
Definition movl (a b : reg) : instr := fun s => set b (get a s) s.

(** [pushl %r] *)
Definition pushl (r : reg) : instr := fun s =>
  let sp := wrap_u32 (get ESP s - 4) in
  set_mem (storew sp (get r s) (memory s)) (set ESP sp s).

(** [popl %r] *)
Definition popl (r : reg) : instr := fun s =>
  let v := loadw (memory s) (get ESP s) in
  set r v (set ESP (wrap_u32 (get ESP s + 4)) s).

(** [leal d(%b), %r] *)
Definition leal (d : Z) (b r : reg) : instr := fun s =>
  set r (wrap_u32 (get b s + d)) s.

(** [andl $i, %r] *)
Definition andl (i : Z) (r : reg) : instr := fun s =>
  let v := Z.land (wrap_u32 i) (get r s) in
  set_zf (v =? 0) (set r v s).

(** [addl $i, %r] *)
Definition addl (i : Z) (r : reg) : instr := fun s =>
  let v := wrap_u32 (get r s + i) in
  set_zf (v =? 0) (set r v s).

(** [xorl %a, %b] *)
Definition xorl (a b : reg) : instr := fun s =>
  let v := Z.lxor (get a s) (get b s) in
  set_zf (v =? 0) (set b v s).

(** [test %a, %b]: of the flags only ZF is read afterwards *)
Definition test (a b : reg) : instr := fun s =>
  set_zf (Z.land (get a s) (get b s) =? 0) s.

(** [je L], [L] being the label right after the block [body] *)
Definition je (body : instr) : instr := fun s =>
  if zf s then s else body s.

(** [stmxcsr d(%b)] *)
Definition stmxcsr (d : Z) (b : reg) : instr := fun s =>
  set_mem (storew (wrap_u32 (get b s + d)) (mxcsr s) (memory s)) s.

(** [fnstcw d(%b)] *)
Definition fnstcw (d : Z) (b : reg) : instr := fun s =>
  set_mem (storeh (wrap_u32 (get b s + d)) (fpucw s) (memory s)) s.

(** Of the instructions of the two routines one can raise an exception
    whatever memory it is given: [ldmxcsr] raises a general-protection
    exception (#GP) when the word it loads has a reserved bit of MXCSR
    set.  Bits 16 to 31 are reserved on every processor; the model takes
    the others as writable.  A run ends either past its last instruction
    or at the instruction that raised the exception, in the state that
    instruction found. *)
Inductive result : Type :=
| Done (s : state)
| Fault (s : state).

Definition prog : Type := state -> result.

(** An instruction that cannot fault, as a program. *)
Definition exec (i : instr) : prog := fun s => Done (i s).
Coercion exec : instr >-> prog.

(** Sequencing of programs: nothing runs after a fault. *)
Definition andthen (p q : prog) : prog := fun s =>
  match p s with
  | Done s' => q s'
  | Fault s' => Fault s'
  end.
Infix ">>" := andthen (at level 62, right associativity).

(** The state a run ended in, either way. *)
Definition state_of (r : result) : state :=
  match r with
  | Done s => s
  | Fault s => s
  end.

(** A word [ldmxcsr] accepts: no bit from 16 up is set. *)
Definition loadable (v : Z) : bool := Z.shiftr v 16 =? 0.

(** [ldmxcsr d(%b)] *)
Definition ldmxcsr (d : Z) (b : reg) : prog := fun s =>
  let v := loadw (memory s) (wrap_u32 (get b s + d)) in
  if loadable v then Done (set_mxcsr v s) else Fault s.

(** [je L] around a block that may fault *)
Definition je_over (body : prog) : prog := fun s =>
  if zf s then Done s else body s.

(** [fldcw d(%b)] *)
Definition fldcw (d : Z) (b : reg) : instr := fun s =>
  set_fpucw (loadh (memory s) (wrap_u32 (get b s + d))) s.

(** [jmp *%r] *)
Definition jmp (r : reg) : instr := fun s => set_eip (get r s) s.

(** [ret] *)
Definition ret : instr := fun s =>
  set_eip (loadw (memory s) (get ESP s))
          (set ESP (wrap_u32 (get ESP s + 4)) s).

(** [call L] where [L] labels the instruction right behind the call,
    linked at address [l]: the call pushes [l] and execution goes on
    with the next instruction of the listing. *)
Definition call_next (l : Z) : instr := fun s =>
  let sp := wrap_u32 (get ESP s - 4) in
  set_mem (storew sp l (memory s)) (set ESP sp s).

(** *** The routines *)

(** [bthread_jump_fcontext(ofc, nfc, vp, preserve_fpu)]; at the call the
    return address lies at [(%esp)] and the arguments at [0x4(%esp)],
    [0x8(%esp)], [0xc(%esp)] and [0x10(%esp)]. *)
Definition bthread_jump_fcontext : prog :=
  (movl_load 0x10 ESP ECX ;;
   pushl EBP ;;
   pushl EBX ;;
   pushl ESI ;;
   pushl EDI ;;
   leal (-0x8) ESP ESP ;;
   test ECX ECX ;;
   je (stmxcsr 0 ESP ;;
       fnstcw 0x4 ESP) ;;
   movl_load 0x1c ESP EAX ;;
   movl_store ESP 0 EAX ;;
   movl_load 0x20 ESP EDX ;;
   movl_load 0x24 ESP EAX ;;
   movl EDX ESP ;;
   test ECX ECX) >>
  je_over (ldmxcsr 0 ESP >>
           fldcw 0x4 ESP) >>
  (leal 0x8 ESP ESP ;;
   popl EDI ;;
   popl ESI ;;
   popl EBX ;;
   popl EBP ;;
   popl EDX ;;
   movl_store EAX 0x4 ESP ;;
   jmp EDX).

(** [bthread_make_fcontext(sp, size, fn)], arguments at [0x4(%esp)],
    [0x8(%esp)] and [0xc(%esp)].  [here] is the address the local label
    [1] is linked at and [finish] that of the label [finish]; the
    immediate of the [addl] is their difference. *)
Definition bthread_make_fcontext (here finish : Z) : instr :=
  movl_load 0x4 ESP EAX ;;
  leal (-0x8) EAX EAX ;;
  andl (-16) EAX ;;
  leal (-0x20) EAX EAX ;;
  movl_load 0xc ESP EDX ;;
  movl_store EDX 0x18 EAX ;;
  stmxcsr 0 EAX ;;
  fnstcw 0x4 EAX ;;
  call_next here ;;
  popl ECX ;;
  addl (finish - here) ECX ;;
  movl_store ECX 0x1c EAX ;;
  ret.

Inductive outcome : Type :=
| Running (s : state)
| Exited (status : Z).

(** [call _exit@PLT]: [_exit(int status)] takes its argument from the word
    on top of the stack at the call and does not return, so the [hlt]
    behind the call is never reached. *)
Definition call_exit (s : state) : outcome :=
  Exited (wrap32 (loadw (memory s) (get ESP s))).

(** The block at the label [finish]; [here] is the address of its local
    label [2] and [got] the immediate that leads from there to the global
    offset table. *)
Definition finish_block (here got : Z) (s : state) : outcome :=
  call_exit ((call_next here ;;
              popl EBX ;;
              addl got EBX ;;
              xorl EAX EAX ;;
              movl_store EAX 0 ESP) s).

(** Execution continues with whatever is at [%eip]; of the program text
    this model knows the block at [finish]. *)
Definition continue (finish here got : Z) (s : state) : outcome :=
  if eip s =? finish then finish_block here got s else Running s.

(** *** Vocabulary for the properties *)

(** The two halves of [bthread_jump_fcontext]: up to and including the
    store of [%esp] into [*ofc], and from there on. *)
Definition save_context : instr :=
  movl_load 0x10 ESP ECX ;;
  pushl EBP ;;
  pushl EBX ;;
  pushl ESI ;;
  pushl EDI ;;
  leal (-0x8) ESP ESP ;;
  test ECX ECX ;;
  je (stmxcsr 0 ESP ;;
      fnstcw 0x4 ESP) ;;
  movl_load 0x1c ESP EAX ;;
  movl_store ESP 0 EAX.

Definition restore_context : prog :=
  (movl_load 0x20 ESP EDX ;;
   movl_load 0x24 ESP EAX ;;
   movl EDX ESP ;;
   test ECX ECX) >>
  je_over (ldmxcsr 0 ESP >>
           fldcw 0x4 ESP) >>
  (leal 0x8 ESP ESP ;;
   popl EDI ;;
   popl ESI ;;
   popl EBX ;;
   popl EBP ;;
   popl EDX ;;
   movl_store EAX 0x4 ESP ;;
   jmp EDX).

(** The [k]-th argument word of a call whose return address lies at
    [(%esp)]. *)
Definition arg (k : Z) (s : state) : Z :=
  loadw (memory s) (get ESP s + 4 * k).

(** A 32-bit value. *)
Definition word (v : Z) : Prop := 0 <= v < 2 ^ 32.

(** A machine state: registers hold 32-bit values, MXCSR 32 bits, the x87
    control word 16. *)
Definition well_formed (s : state) : Prop :=
  (forall r, word (get r s)) /\
  0 <= mxcsr s < 2 ^ 32 /\ 0 <= fpucw s < 2 ^ 16.

(** The MXCSR of the state is a value the register can hold: its reserved
    bits are clear, as the processor keeps them. *)
Definition mxcsr_ok (s : state) : Prop := loadable (mxcsr s) = true.

(** The word a switch out of [s] leaves in the first four bytes of the
    frame on its stack, where a switch back with [preserve_fpu] set looks
    for MXCSR: MXCSR when [preserve_fpu] is set, and otherwise what those
    bytes held before, since the switch does not write them. *)
Definition frame_mxcsr (s : state) : Z :=
  if arg 4 s =? 0 then loadw (memory s) (get ESP s - 24) else mxcsr s.

(** A state from which [bthread_jump_fcontext] can suspend the running
    code: below [%esp] the stack has room for the 24 bytes the routine
    pushes, the return address and the four argument words lie from
    [%esp] on, and the slot [*ofc] lies apart from all of these. *)
Definition can_suspend (s : state) : Prop :=
  24 <= get ESP s /\ get ESP s + 0x14 <= 2 ^ 32 /\
  in_range32 (arg 1 s) 4 /\
  disjoint (arg 1 s) 4 (get ESP s - 24) (24 + 0x14).

(** The [n] bytes at [ctx] lie apart from everything a switch out of [s]
    writes on its own side: the 24 bytes below [%esp] and the slot
    [*ofc]. *)
Definition frame_apart (s : state) (ctx n : Z) : Prop :=
  0 <= ctx /\ ctx + n <= 2 ^ 32 /\
  disjoint ctx n (get ESP s - 24) 24 /\
  disjoint ctx n (arg 1 s) 4.

(** A state at a call of [bthread_make_fcontext]: the return address and
    three argument words lie from [%esp] on, there is room for one more
    word below [%esp], the stack top given is a 32-bit value with [0x38]
    bytes below it, and these lie apart from the return address and the
    word below it. *)
Definition can_make (s : state) : Prop :=
  4 <= get ESP s /\ get ESP s + 0x10 <= 2 ^ 32 /\
  0x38 <= arg 1 s < 2 ^ 32 /\
  disjoint (arg 1 s - 0x38) 0x38 (get ESP s - 4) 8.

(** *** Concrete states for the examples *)

(** Where the examples place the labels [1] and [finish] of
    [bthread_make_fcontext], the label [2] of the block at [finish], and
    the entry function. *)
Definition here_at : Z := 0x400fe0.
Definition finish_at : Z := 0x401000.
Definition finish_here_at : Z := 0x401005.
Definition entry_at : Z := 0x402000.

Definition regs_of (esp : Z) : reg -> Z := fun r =>
  match r with
  | ESP => esp | EBP => 0xb0 | EBX => 0xb1 | ESI => 0x51 | EDI => 0xd1
  | _ => 0
  end.

(** The words of a call: return address, then arguments, from [a] on. *)
Fixpoint put_words (a : Z) (l : list Z) (m : mem) : mem :=
  match l with
  | [] => m
  | v :: t => put_words (a + 4) t (storew a v m)
  end.

(** A caller about to run [bthread_make_fcontext(0x20008, 0x8000,
    entry_at)] on its own stack at [0x7000], to return to [0x400100]. *)
Definition make_call : state :=
  mkState (regs_of 0x7000) 0 false 0x1f80 0x37f
          (put_words 0x7000 [0x400100; 0x20008; 0x8000; entry_at] (fun _ => 0)).

(** The same caller about to run
    [bthread_jump_fcontext(0x6000, ctx, 42, preserve_fpu)] on the context
    made, to return to [0x400200]. *)
Definition first_jump (preserve_fpu : Z) : state :=
  mkState (regs_of 0x6f00) 0 false 0x1f80 0x37f
          (put_words 0x6f00
             [0x400200; 0x6000;
              get EAX (bthread_make_fcontext here_at finish_at make_call);
              42; preserve_fpu]
             (memory (bthread_make_fcontext here_at finish_at make_call))).

(** The code of the new context switching back,
    [bthread_jump_fcontext(0x1f000, ctx', 7, 1)], [ctx'] being what the
    first switch left at [0x6000]. *)
Definition switch_back : state :=
  mkState (regs_of 0x1ff00) (entry_at + 0x10) false 0x1f80 0x37f
          (put_words 0x1ff00
             [entry_at + 0x15; 0x1f000;
              loadw (memory (state_of (bthread_jump_fcontext (first_jump 1)))) 0x6000;
              7; 1]
             (memory (state_of (bthread_jump_fcontext (first_jump 1))))).

(** The entry function about to execute [ret] with the stack as it found
    it. *)
Definition entry_returns : state :=
  mkState (regs_of (get ESP (state_of (bthread_jump_fcontext (first_jump 1)))))
          (entry_at + 0x20) false 0x1f80 0x37f
          (memory (state_of (bthread_jump_fcontext (first_jump 1)))).

(** The caller of [first_jump 0], switching with [preserve_fpu] clear,
    when the four bytes at [0x6ee8], 24 below its stack pointer, hold
    [0x11f80], a word with bit 16 set. *)
Definition stale_first_jump : state :=
  mkState (regs_of 0x6f00) 0 false 0x1f80 0x37f
          (storew 0x6ee8 0x11f80 (memory (first_jump 0))).

(** The code of the new context switching back into that call with
    [preserve_fpu] set: [bthread_jump_fcontext(0x1f000, ctx', 7, 1)]. *)
Definition stale_switch_back : state :=
  mkState (regs_of 0x1ff00) (entry_at + 0x10) false 0x1f80 0x37f
          (put_words 0x1ff00
             [entry_at + 0x15; 0x1f000;
              loadw (memory (state_of (bthread_jump_fcontext stale_first_jump)))
                    0x6000;
              7; 1]
             (memory (state_of (bthread_jump_fcontext stale_first_jump)))).

End I386.

(** ** apple i386 ([context.cpp])

    The routines of this target are those of linux i386, instruction by
    instruction; the block at [finish] calls [__exit] directly, without
    the detour over the global offset table. *)

Module AppleI386.
Import I386.

(** [_bthread_jump_fcontext] *)
Definition bthread_jump_fcontext : prog :=
  (movl_load 0x10 ESP ECX ;;
   pushl EBP ;;
   pushl EBX ;;
   pushl ESI ;;
   pushl EDI ;;
   leal (-0x8) ESP ESP ;;
   test ECX ECX ;;
   je (stmxcsr 0 ESP ;;
       fnstcw 0x4 ESP) ;;
   movl_load 0x1c ESP EAX ;;
   movl_store ESP 0 EAX ;;
   movl_load 0x20 ESP EDX ;;
   movl_load 0x24 ESP EAX ;;
   movl EDX ESP ;;
   test ECX ECX) >>
  je_over (ldmxcsr 0 ESP >>
           fldcw 0x4 ESP) >>
  (leal 0x8 ESP ESP ;;
   popl EDI ;;
   popl ESI ;;
   popl EBX ;;
   popl EBP ;;
   popl EDX ;;
   movl_store EAX 0x4 ESP ;;
   jmp EDX).

(** [_bthread_make_fcontext] *)
Definition bthread_make_fcontext (here finish : Z) : instr :=
  movl_load 0x4 ESP EAX ;;
  leal (-0x8) EAX EAX ;;
  andl (-16) EAX ;;
  leal (-0x20) EAX EAX ;;
  movl_load 0xc ESP EDX ;;
  movl_store EDX 0x18 EAX ;;
  stmxcsr 0 EAX ;;
  fnstcw 0x4 EAX ;;
  call_next here ;;
  popl ECX ;;
  addl (finish - here) ECX ;;
  movl_store ECX 0x1c EAX ;;
  ret.

(** The block at [finish]: [xorl %eax, %eax; movl %eax, (%esp);
    call __exit; hlt]. *)
Definition finish_block (s : state) : outcome :=
  call_exit ((xorl EAX EAX ;;
              movl_store EAX 0 ESP) s).

Definition continue (finish : Z) (s : state) : outcome :=
  if eip s =? finish then finish_block s else Running s.

End AppleI386.

(** ** linux arm32 ([context.cpp], AAPCS, ARMv5T and later) *)

Module Arm32.

(** Core registers are indexed by their number: [a1 .. a4] are
    [r0 .. r3], [v1 .. v8] are [r4 .. r11], [lr] is [r14].  The stack
    pointer and the program counter have fields of their own, as has the
    instruction-set state a branch by register selects.  [d0 .. d31] are
    the 64-bit floating-point registers. *)
Record state : Type := mkState {
  r : nat -> Z;
  d : nat -> Z;
  sp : Z;
  pc : Z;
  thumb : bool;
  zflag : bool;
  memory : mem
}.

(** The register lists [{v1-v8,lr}] and [{d8-d15}]. *)
Definition v1_v8_lr : list nat := [4; 5; 6; 7; 8; 9; 10; 11; 14]%nat.
Definition d8_d15 : list nat := [8; 9; 10; 11; 12; 13; 14; 15]%nat.

Definition set_r (n : nat) (v : Z) (s : state) : state :=
  mkState (fun k => if Nat.eqb k n then v else r s k) (d s) (sp s) (pc s)
          (thumb s) (zflag s) (memory s).

Definition set_d (n : nat) (v : Z) (s : state) : state :=
  mkState (r s) (fun k => if Nat.eqb k n then v else d s k) (sp s) (pc s)
          (thumb s) (zflag s) (memory s).

Definition set_sp (v : Z) (s : state) : state :=
  mkState (r s) (d s) v (pc s) (thumb s) (zflag s) (memory s).

Definition set_pc (v : Z) (s : state) : state :=
  mkState (r s) (d s) (sp s) v (thumb s) (zflag s) (memory s).

Definition set_thumb (b : bool) (s : state) : state :=
  mkState (r s) (d s) (sp s) (pc s) b (zflag s) (memory s).

Definition set_zflag (b : bool) (s : state) : state :=
  mkState (r s) (d s) (sp s) (pc s) (thumb s) b (memory s).

Definition set_mem (m : mem) (s : state) : state :=
  mkState (r s) (d s) (sp s) (pc s) (thumb s) (zflag s) m.

(** *** Instructions *)

Definition instr : Type := state -> state.

Definition seq (i j : instr) : instr := fun s => j (i s).
Infix ";;" := seq (at level 61, right associativity).

(** Bytes a list of core registers takes in memory. *)
Fixpoint size_of (l : list nat) : Z :=
  match l with
  | [] => 0
  | _ :: t => 4 + size_of t
  end.

(** The registers of [l], taken from [s], stored in ascending addresses
    from [a] on. *)
Fixpoint store_regs (l : list nat) (a : Z) (s : state) (m : mem) : mem :=
  match l with
  | [] => m
  | n :: t => store_regs t (a + 4) s (storew (wrap_u32 a) (r s n) m)
  end.

Fixpoint load_regs (l : list nat) (a : Z) (m : mem) (s : state) : state :=
  match l with
  | [] => s
  | n :: t => load_regs t (a + 4) m (set_r n (loadw m (wrap_u32 a)) s)
  end.

(** [push {l}]: the lowest-numbered register ends at the lowest address,
    which is the new [sp]. *)
Definition push (l : list nat) : instr := fun s =>
  let a := wrap_u32 (sp s - size_of l) in
  set_mem (store_regs l a s (memory s)) (set_sp a s).

(** [pop {l}], for a list of core registers without [pc] *)
Definition pop (l : list nat) : instr := fun s =>
  set_sp (wrap_u32 (sp s + size_of l)) (load_regs l (sp s) (memory s) s).

(** A branch to an address taken from a register or from memory: bit 0
    selects the instruction set and is not part of the address.  (For an
    even address that is not a multiple of 4 the architecture leaves the
    outcome open; the model branches to it.) *)
Definition bx_write_pc (v : Z) (s : state) : state :=
  set_thumb (Z.odd v) (set_pc (v - v mod 2) s).

(** [pop {pc}] *)
Definition pop_pc : instr := fun s =>
  bx_write_pc (loadw (memory s) (sp s)) (set_sp (wrap_u32 (sp s + 4)) s).

(** [bx rn] *)
Definition bx (n : nat) : instr := fun s => bx_write_pc (r s n) s.

(** [sub sp, sp, #i] and [add sp, sp, #i] *)
Definition sub_sp (i : Z) : instr := fun s => set_sp (wrap_u32 (sp s - i)) s.
Definition add_sp (i : Z) : instr := fun s => set_sp (wrap_u32 (sp s + i)) s.

(** [cmp rn, #i]: of the flags only Z is read afterwards *)
Definition cmp_imm (n : nat) (i : Z) : instr := fun s =>
  set_zflag (r s n =? i) s.

(** [beq L], [L] being the label right after the block [body] *)
Definition beq (body : instr) : instr := fun s =>
  if zflag s then s else body s.

Fixpoint store_dregs (l : list nat) (a : Z) (s : state) (m : mem) : mem :=
  match l with
  | [] => m
  | n :: t => store_dregs t (a + 8) s (stored (wrap_u32 a) (d s n) m)
  end.

Fixpoint load_dregs (l : list nat) (a : Z) (m : mem) (s : state) : state :=
  match l with
  | [] => s
  | n :: t => load_dregs t (a + 8) m (set_d n (loadd m (wrap_u32 a)) s)
  end.

(** [vstmia sp, {l}] and [vldmia sp, {l}]: no write-back *)
Definition vstmia_sp (l : list nat) : instr := fun s =>
  set_mem (store_dregs l (sp s) s (memory s)) s.
Definition vldmia_sp (l : list nat) : instr := fun s =>
  load_dregs l (sp s) (memory s) s.

(** [str sp, [rn]] *)
Definition str_sp_at (n : nat) : instr := fun s =>
  set_mem (storew (r s n) (sp s) (memory s)) s.

(** [mov sp, rn] and [mov ra, rb] *)
Definition mov_to_sp (n : nat) : instr := fun s => set_sp (r s n) s.
Definition mov (a b : nat) : instr := fun s => set_r a (r s b) s.

(** [mov ra, #i] *)
Definition mov_imm (a : nat) (i : Z) : instr := set_r a i.

(** [bic ra, rb, #i] *)
Definition bic (a b : nat) (i : Z) : instr := fun s =>
  set_r a (Z.land (r s b) (wrap_u32 (Z.lnot i))) s.

(** [sub ra, rb, #i] *)
Definition sub_imm (a b : nat) (i : Z) : instr := fun s =>
  set_r a (wrap_u32 (r s b - i)) s.

(** [str ra, [rb, #o]] *)
Definition str_off (a b : nat) (o : Z) : instr := fun s =>
  set_mem (storew (wrap_u32 (r s b + o)) (r s a) (memory s)) s.

(** [adr ra, label], for a label linked at address [l] *)
Definition adr (a : nat) (l : Z) : instr := set_r a l.

(** *** The routines *)

(** [bthread_jump_fcontext(ofc, nfc, vp, preserve_fpu)], arguments in
    [a1], [a2], [a3], [a4], that is [r0 .. r3]. *)
Definition bthread_jump_fcontext : instr :=
  push [14%nat] ;;
  push v1_v8_lr ;;
  sub_sp 64 ;;
  cmp_imm 3 0 ;;
  beq (vstmia_sp d8_d15) ;;
  str_sp_at 0 ;;
  mov_to_sp 1 ;;
  cmp_imm 3 0 ;;
  beq (vldmia_sp d8_d15) ;;
  add_sp 64 ;;
  mov 0 2 ;;
  pop v1_v8_lr ;;
  pop_pc.

(** [bthread_make_fcontext(sp, size, fn)], arguments in [a1], [a2],
    [a3], that is [r0 .. r2]; [finish] is the address the label [finish]
    is linked at. *)
Definition bthread_make_fcontext (finish : Z) : instr :=
  bic 0 0 15 ;;
  sub_imm 0 0 104 ;;
  str_off 2 0 100 ;;
  adr 1 finish ;;
  str_off 1 0 96 ;;
  bx 14.

Inductive outcome : Type :=
| Running (s : state)
| Exited (status : Z).

(** [bl _exit@PLT]: [_exit(int status)] takes its argument from [a1] and
    does not return. *)
Definition bl_exit (s : state) : outcome := Exited (wrap32 (r s 0)).

(** The block at the label [finish]. *)
Definition finish_block (s : state) : outcome := bl_exit (mov_imm 0 0 s).

(** Execution continues with whatever is at [pc]; of the program text
    this model knows the block at [finish]. *)
Definition continue (finish : Z) (s : state) : outcome :=
  if pc s =? finish then finish_block s else Running s.

(** *** Vocabulary for the properties *)

(** The two halves of [bthread_jump_fcontext]: up to and including the
    store of [sp] into [*ofc], and from the load of [sp] on. *)
Definition save_context : instr :=
  push [14%nat] ;;
  push v1_v8_lr ;;
  sub_sp 64 ;;
  cmp_imm 3 0 ;;
  beq (vstmia_sp d8_d15) ;;
  str_sp_at 0.

Definition restore_context : instr :=
  mov_to_sp 1 ;;
  cmp_imm 3 0 ;;
  beq (vldmia_sp d8_d15) ;;
  add_sp 64 ;;
  mov 0 2 ;;
  pop v1_v8_lr ;;
  pop_pc.

(** The slots of a context frame of 104 bytes: [dn] ([8 <= n <= 15]) lies
    at offset [8 * (n - 8)], [rn] ([4 <= n <= 11]) at [64 + 4 * (n - 4)],
    [lr] at 96 and the resume address at 100. *)
Definition d_slot (n : nat) : Z := 8 * (Z.of_nat n - 8).
Definition v_slot (n : nat) : Z := 64 + 4 * (Z.of_nat n - 4).

(** The registers a switch saves hold values of their width. *)
Definition saved_are_words (s : state) : Prop :=
  (forall n, (4 <= n <= 11)%nat -> 0 <= r s n < 2 ^ 32) /\
  0 <= r s 14 < 2 ^ 32 /\
  (forall n, (8 <= n <= 15)%nat -> 0 <= d s n < 2 ^ 64).

(** A state from which [bthread_jump_fcontext] can suspend the running
    code: the stack has room for the frame of 104 bytes, and the slot
    [*ofc] lies apart from it. *)
Definition can_suspend (s : state) : Prop :=
  104 <= sp s /\ sp s < 2 ^ 32 /\
  in_range32 (r s 0) 4 /\
  disjoint (r s 0) 4 (sp s - 104) 104.

(** The frame at [ctx] lies apart from everything a switch out of [s]
    writes. *)
Definition frame_apart (s : state) (ctx : Z) : Prop :=
  0 <= ctx /\ ctx + 104 < 2 ^ 32 /\
  disjoint ctx 104 (sp s - 104) 104 /\
  disjoint ctx 104 (r s 0) 4.

(** *** Concrete states for the examples *)

Definition finish_at : Z := 0x401000.
Definition entry_at : Z := 0x402000.

(** A caller about to run [bthread_make_fcontext(0x30008, 0x8000,
    entry_at)], to return to [0x400100]. *)
Definition make_call : state :=
  mkState (fun n => match n with
                    | 0%nat => 0x30008 | 1%nat => 0x8000 | 2%nat => entry_at
                    | 14%nat => 0x400100 | _ => Z.of_nat n
                    end)
          (fun n => 100 + Z.of_nat n)
          0x7000 0 false false (fun _ => 0).

(** The same caller about to run
    [bthread_jump_fcontext(0x6000, ctx, 42, preserve_fpu)] on the context
    made, to return to [0x400200]. *)
Definition first_jump (preserve_fpu : Z) : state :=
  mkState (fun n => match n with
                    | 0%nat => 0x6000
                    | 1%nat => r (bthread_make_fcontext finish_at make_call) 0
                    | 2%nat => 42
                    | 3%nat => preserve_fpu
                    | 14%nat => 0x400200 | _ => Z.of_nat n
                    end)
          (fun n => 100 + Z.of_nat n)
          0x7000 0 false false (memory (bthread_make_fcontext finish_at make_call)).

(** The code of the new context switching back,
    [bthread_jump_fcontext(0x2f000, ctx', 7, 1)], [ctx'] being what the
    first switch left at [0x6000]. *)
Definition switch_back : state :=
  mkState (fun n => match n with
                    | 0%nat => 0x2f000
                    | 1%nat => loadw (memory (bthread_jump_fcontext (first_jump 1))) 0x6000
                    | 2%nat => 7
                    | 3%nat => 1
                    | _ => 0
                    end)
          (fun _ => 0)
          0x2fe00 entry_at false false (memory (bthread_jump_fcontext (first_jump 1))).

(** The entry function about to execute [bx lr] with the link register it
    was entered with. *)
Definition entry_returns : state :=
  mkState (fun n => match n with
                    | 14%nat => r (bthread_jump_fcontext (first_jump 1)) 14
                    | _ => 5
                    end)
          (fun _ => 0)
          (sp (bthread_jump_fcontext (first_jump 1))) (entry_at + 0x20)
          false false
          (memory (bthread_jump_fcontext (first_jump 1))).

End Arm32.

(** * Properties *)

(** ** Facts about machine integers *)

Module MachineIntFacts.

Lemma wrap32_small (z : Z) : is_int z -> wrap32 z = z.
Proof.
  unfold is_int, INT_MIN, INT_MAX, wrap32. intros H.
  rewrite Z.mod_small; lia.
Qed.

Lemma wrap32_is_int (z : Z) : is_int (wrap32 z).
Proof.
  unfold is_int, INT_MIN, INT_MAX, wrap32.
  pose proof (Z.mod_pos_bound (z + 2 ^ 31) (2 ^ 32)). lia.
Qed.

Lemma wrap32_above (z : Z) :
  INT_MAX < z < 2 ^ 32 + INT_MIN + 2 ^ 32 -> wrap32 z = z - 2 ^ 32.
Proof.
  unfold INT_MIN, INT_MAX, wrap32. intros H.
  replace (z + 2 ^ 31) with ((z + 2 ^ 31 - 2 ^ 32) + 1 * 2 ^ 32) by lia.
  rewrite Z.mod_add by lia. rewrite Z.mod_small; lia.
Qed.

Lemma wrap32_below (z : Z) :
  INT_MIN - 2 ^ 32 <= z < INT_MIN -> wrap32 z = z + 2 ^ 32.
Proof.
  unfold INT_MIN, wrap32. intros H.
  replace (z + 2 ^ 31) with ((z + 2 ^ 31 + 2 ^ 32) + (-1) * 2 ^ 32) by lia.
  rewrite Z.mod_add by lia. rewrite Z.mod_small; lia.
Qed.

Lemma wrap64_small (z : Z) : 0 <= z < 2 ^ 64 -> wrap64 z = z.
Proof. intros H. unfold wrap64. apply Z.mod_small; lia. Qed.

Lemma wrap64_negative (z : Z) : - 2 ^ 64 <= z < 0 -> wrap64 z = z + 2 ^ 64.
Proof.
  intros H. unfold wrap64.
  replace z with ((z + 2 ^ 64) + (-1) * 2 ^ 64) at 1 by lia.
  rewrite Z.mod_add by lia. apply Z.mod_small; lia.
Qed.

Lemma wrap64_range (z : Z) : 0 <= wrap64 z < 2 ^ 64.
Proof. unfold wrap64. apply Z.mod_pos_bound. lia. Qed.

Lemma wrap64s_small (z : Z) : INT64_MIN <= z <= INT64_MAX -> wrap64s z = z.
Proof.
  unfold INT64_MIN, INT64_MAX, wrap64s. intros H.
  rewrite Z.mod_small; lia.
Qed.

(** Clearing the low [k] bits rounds down to a multiple of [2 ^ k]. *)
Lemma land_lnot_pow2 (v k : Z) :
  0 <= k -> Z.land v (Z.lnot (2 ^ k - 1)) = v - v mod 2 ^ k.
Proof.
  intros Hk.
  replace (2 ^ k - 1) with (Z.ones k) by (rewrite Z.ones_equiv; lia).
  rewrite <- Z.ldiff_land, Z.ldiff_ones_r by assumption.
  rewrite Z.shiftl_mul_pow2, Z.shiftr_div_pow2 by assumption.
  pose proof (Z.pow_pos_nonneg 2 k).
  rewrite (Z.mod_eq v (2 ^ k)) by lia. lia.
Qed.

End MachineIntFacts.

(** ** The stack storage allocator *)

Module StackFacts.
Import Stack MachineIntFacts.

Lemma page_ok_bounds (p : Z) : page_ok p -> 1 <= p <= 2 ^ 29.
Proof.
  intros [Hk Hp]. rewrite Hp. split.
  - pose proof (Z.pow_pos_nonneg 2 (Z.log2 p)). lia.
  - apply Z.pow_le_mono_r; lia.
Qed.

Lemma page_divides_2_31 (p : Z) : page_ok p -> exists q, 2 ^ 31 = q * p.
Proof.
  intros [Hk Hp]. exists (2 ^ (31 - Z.log2 p)).
  rewrite Hp at 2. rewrite <- Z.pow_add_r by lia. f_equal. lia.
Qed.

Lemma round_down_multiple (p v : Z) : 0 < p -> (v - v mod p) mod p = 0.
Proof.
  intros Hp. rewrite (Z.mod_eq v p) by lia.
  replace (v - (v - p * (v / p))) with ((v / p) * p) by lia.
  apply Z.mod_mul. lia.
Qed.

Lemma land_lnot_page (p v : Z) :
  page_ok p -> Z.land v (Z.lnot (p - 1)) = v - v mod p.
Proof. intros [Hk Hp]. rewrite Hp. apply land_lnot_pow2. lia. Qed.

(** The rounding expression of [allocate_stack_storage]: either the sum
    overflowed an [int], and the result is [INT_MIN], or the result is the
    least multiple of the page size that is at least [max v floor]. *)
Lemma round_cases (p floor v : Z) :
  page_ok p -> is_int v -> 0 < floor <= 2 ^ 30 ->
  let r := Z.land (wrap32 (Z.max v floor + wrap32 (p - 1)))
                  (Z.lnot (wrap32 (p - 1))) in
  r = INT_MIN \/
  (Z.max v floor <= r <= INT_MAX /\ r < Z.max v floor + p /\ r mod p = 0).
Proof.
  intros Hp Hv Hf r. subst r.
  pose proof (page_ok_bounds p Hp) as Hb.
  destruct (page_divides_2_31 p Hp) as [q Hq].
  destruct Hp as [Hk Hp].
  unfold is_int, INT_MIN, INT_MAX in *.
  rewrite (wrap32_small (p - 1)) by (unfold is_int, INT_MIN, INT_MAX; lia).
  set (t := Z.max v floor + (p - 1)).
  rewrite (land_lnot_page p (wrap32 t)) by (split; assumption).
  assert (Ht : 1 <= t < 2 ^ 31 + p - 1) by (unfold t; lia).
  destruct (Z_le_gt_dec t (2 ^ 31 - 1)) as [Hle | Hgt].
  - right. rewrite (wrap32_small t) by (unfold is_int, INT_MIN, INT_MAX; lia).
    pose proof (Z.mod_pos_bound t p ltac:(lia)).
    repeat split; try (unfold t in *; lia).
    apply round_down_multiple. lia.
  - left. rewrite (wrap32_above t) by (unfold INT_MIN, INT_MAX; lia).
    replace (t - 2 ^ 32) with ((t - 2 ^ 31) + (- q) * p) by lia.
    rewrite Z.mod_add by lia. rewrite Z.mod_small by lia. lia.
Qed.

Lemma rounded_stacksize_cases (os : OS) (v : Z) :
  page_ok (getpagesize os) -> is_int v ->
  rounded_stacksize os v = INT_MIN \/
  (Z.max v (getpagesize os * 2) <= rounded_stacksize os v <= INT_MAX /\
   rounded_stacksize os v < Z.max v (getpagesize os * 2) + getpagesize os /\
   rounded_stacksize os v mod getpagesize os = 0).
Proof.
  intros Hp Hv. pose proof (page_ok_bounds _ Hp) as Hb.
  unfold rounded_stacksize, PAGESIZE_M1.
  rewrite (wrap32_small (getpagesize os * 2))
    by (unfold is_int, INT_MIN, INT_MAX; lia).
  apply round_cases; auto; lia.
Qed.

Lemma rounded_guardsize_cases (os : OS) (v : Z) :
  page_ok (getpagesize os) -> is_int v ->
  rounded_guardsize os v = INT_MIN \/
  (Z.max v (getpagesize os) <= rounded_guardsize os v <= INT_MAX /\
   rounded_guardsize os v < Z.max v (getpagesize os) + getpagesize os /\
   rounded_guardsize os v mod getpagesize os = 0).
Proof.
  intros Hp Hv. pose proof (page_ok_bounds _ Hp) as Hb.
  unfold rounded_guardsize, PAGESIZE_M1.
  apply round_cases; auto; lia.
Qed.

(** A negative [int] turns into a [size_t] above [PTRDIFF_MAX]. *)
Lemma negative_size_is_huge (v : Z) :
  is_int v -> v < 0 -> PTRDIFF_MAX < wrap64 v.
Proof.
  unfold is_int, INT_MIN, INT_MAX, PTRDIFF_MAX. intros Hv Hneg.
  rewrite wrap64_negative; lia.
Qed.

(** [allocate_stack_storage] in terms of its named intermediate values. *)
Lemma allocate_stack_storage_eq (os : OS) (s : StackStorage) (S G : Z) (w : World) :
  allocate_stack_storage os s S G w =
  let st := rounded_stacksize os S in
  if G <=? 0 then
    let mem := malloc os (wrap64 st) in
    let w1 := emit (EvMalloc (wrap64 st) mem) w in
    if mem =? NULL then (-1, s, w1)
    else
      let '(s2, w2) :=
        register_valgrind os st
          (set_guardsize 0 (set_stacksize st (set_bottom (wrap64 (mem + st)) s)))
          (fetch_add 1 w1) in
      (0, s2, w2)
  else
    let gd := rounded_guardsize os G in
    let memsize := total_memsize os S G in
    let mem := mmap os (wrap64 memsize) in
    let w1 := emit (EvMmap (wrap64 memsize) mem) w in
    if mem =? MAP_FAILED then (-1, s, w1)
    else
      let aligned_mem := aligned_address os mem in
      let offset := alignment_offset os mem in
      if gd <=? offset then (-1, s, emit (EvMunmap mem (wrap64 memsize)) w1)
      else
        let len := wrap64 (wrap32 (gd - offset)) in
        let rc := mprotect os aligned_mem len in
        let w2 := emit (EvMprotect aligned_mem len rc) w1 in
        if negb (rc =? 0) then (-1, s, emit (EvMunmap mem (wrap64 memsize)) w2)
        else
          let '(s2, w3) :=
            register_valgrind os st
              (set_guardsize gd (set_stacksize st (set_bottom (wrap64 (mem + memsize)) s)))
              (fetch_add 1 w2) in
          (0, s2, w3).
Proof.
  unfold allocate_stack_storage, total_memsize, rounded_guardsize,
    rounded_stacksize, aligned_address, alignment_offset, PAGESIZE_M1.
  cbv zeta. reflexivity.
Qed.

Lemma skipn_length_app {A : Type} (l k : list A) : skipn (length l) (l ++ k) = k.
Proof. induction l as [| a l IH]; [reflexivity | exact IH]. Qed.

Lemma new_events_app (w w' : World) (evs : list event) :
  trace w' = trace w ++ evs -> new_events w w' = evs.
Proof. intros H. unfold new_events. rewrite H. apply skipn_length_app. Qed.

Lemma region_eqb_refl (r : region) : region_eqb r r = true.
Proof. destruct r; cbn; rewrite ?Z.eqb_refl; reflexivity. Qed.

(** A size [malloc] can grant was rounded without overflow. *)
Lemma granted_stacksize (os : OS) (S : Z) :
  page_ok (getpagesize os) -> is_int S ->
  ~ PTRDIFF_MAX < wrap64 (rounded_stacksize os S) ->
  Z.max S (getpagesize os * 2) <= rounded_stacksize os S <= INT_MAX /\
  rounded_stacksize os S < Z.max S (getpagesize os * 2) + getpagesize os /\
  rounded_stacksize os S mod getpagesize os = 0.
Proof.
  intros Hp HS Hsmall.
  destruct (rounded_stacksize_cases os S Hp HS) as [Hmin | Hgood]; [| exact Hgood].
  exfalso. apply Hsmall. rewrite Hmin. apply negative_size_is_huge.
  - unfold is_int, INT_MIN, INT_MAX. lia.
  - unfold INT_MIN. lia.
Qed.

(** A length [mmap] can grant is the sum of two sizes rounded without
    overflow, and the sum did not overflow either. *)
Lemma granted_memsize (os : OS) (S G : Z) :
  page_ok (getpagesize os) -> is_int S -> is_int G ->
  wrap64 (total_memsize os S G) <> 0 ->
  ~ PTRDIFF_MAX < wrap64 (total_memsize os S G) ->
  (Z.max S (getpagesize os * 2) <= rounded_stacksize os S <= INT_MAX /\
   rounded_stacksize os S < Z.max S (getpagesize os * 2) + getpagesize os /\
   rounded_stacksize os S mod getpagesize os = 0) /\
  (Z.max G (getpagesize os) <= rounded_guardsize os G <= INT_MAX /\
   rounded_guardsize os G < Z.max G (getpagesize os) + getpagesize os /\
   rounded_guardsize os G mod getpagesize os = 0) /\
  total_memsize os S G = rounded_stacksize os S + rounded_guardsize os G /\
  rounded_stacksize os S + rounded_guardsize os G <= INT_MAX.
Proof.
  intros Hp HS HG Hnz Hsmall.
  pose proof (page_ok_bounds _ Hp) as Hb.
  pose proof (rounded_stacksize_cases os S Hp HS) as Hst.
  pose proof (rounded_guardsize_cases os G Hp HG) as Hgd.
  unfold total_memsize in *.
  set (st := rounded_stacksize os S) in *.
  set (gd := rounded_guardsize os G) in *.
  assert (Hneg : forall v, is_int v -> v < 0 -> wrap32 (st + gd) = v -> False).
  { intros v Hv Hlt Heq. apply Hsmall. rewrite Heq.
    apply negative_size_is_huge; assumption. }
  unfold is_int, INT_MIN, INT_MAX in *.
  destruct Hst as [Hst | Hst], Hgd as [Hgd | Hgd].
  - exfalso. apply Hnz. rewrite Hst, Hgd. reflexivity.
  - exfalso. apply (Hneg (st + gd)); try lia.
    apply wrap32_small. unfold is_int, INT_MIN, INT_MAX. lia.
  - exfalso. apply (Hneg (st + gd)); try lia.
    apply wrap32_small. unfold is_int, INT_MIN, INT_MAX. lia.
  - destruct (Z_le_gt_dec (st + gd) (2 ^ 31 - 1)) as [Hle | Hgt].
    + rewrite wrap32_small by (unfold is_int, INT_MIN, INT_MAX; lia).
      repeat split; lia.
    + exfalso. apply (Hneg (st + gd - 2 ^ 32)); try lia.
      apply wrap32_above. unfold INT_MIN, INT_MAX. lia.
Qed.

(** Splits a goal about [allocate_stack_storage] into its five paths:
    the two of the unguarded branch and the three failures and the success
    of the guarded one, each again by whether Valgrind is active. *)
Ltac allocate_paths os S G :=
  rewrite allocate_stack_storage_eq; cbv zeta;
  unfold register_valgrind;
  destruct (Z.leb_spec G 0) as [Hpath | Hpath];
  [ destruct (Z.eqb_spec (malloc os (wrap64 (rounded_stacksize os S))) NULL)
      as [Hmem | Hmem]
  | destruct (Z.eqb_spec (mmap os (wrap64 (total_memsize os S G))) MAP_FAILED)
      as [Hmem | Hmem];
    [ | destruct (Z.leb_spec (rounded_guardsize os G)
                   (alignment_offset os (mmap os (wrap64 (total_memsize os S G)))))
          as [Hoff | Hoff];
        [ | destruct (Z.eqb_spec
                  (mprotect os
                     (aligned_address os (mmap os (wrap64 (total_memsize os S G))))
                     (wrap64 (wrap32 (rounded_guardsize os G -
                        alignment_offset os (mmap os (wrap64 (total_memsize os S G)))))))
                  0) as [Hprot | Hprot] ] ] ];
  cbn [negb]; try destruct (RunningOnValgrind os); cbn [fst snd].

(** Reduces [new_events] of a state built by [emit] and [fetch_add]. *)
Ltac events :=
  unfold new_events, emit, fetch_add, fetch_sub; cbn [trace s_stack_count];
  rewrite <- ?app_assoc; rewrite ?skipn_length_app; cbn [app].

Lemma held_after_app (t1 t2 : list event) (h : list region) :
  held_after (t1 ++ t2) h = held_after t2 (held_after t1 h).
Proof.
  revert h. induction t1 as [| e t1 IH]; intros h; [reflexivity |].
  destruct e; cbn; apply IH.
Qed.

(** What a successful [allocate_stack_storage] leaves behind on a sane
    host: a handle whose sizes add up within an [int] and whose bottom is
    the end of a block that starts above address 0, the counter one
    higher, and that block held. *)
Lemma allocate_success_shape (os : OS) (s : StackStorage) (S G : Z) (w : World) :
  os_sane os -> is_int S -> is_int G ->
  fst (fst (allocate_stack_storage os s S G w)) = 0 ->
  let s' := snd (fst (allocate_stack_storage os s S G w)) in
  let w' := snd (allocate_stack_storage os s S G w) in
  exists mem evs,
    0 < mem /\
    0 <= stacksize s' + guardsize s' <= INT_MAX /\
    bottom s' = mem + (stacksize s' + guardsize s') /\
    bottom s' < 2 ^ 64 /\
    s_stack_count w' = wrap64s (s_stack_count w + 1) /\
    trace w' = trace w ++ evs /\
    held_after evs [] =
      [if guardsize s' <=? 0 then Heap mem
       else Mapping mem (stacksize s' + guardsize s')].
Proof.
  intros Hos HS HG. cbv zeta.
  pose proof (sane_pagesize os Hos) as Hp.
  pose proof (page_ok_bounds _ Hp) as Hb.
  allocate_paths os S G; cbn [fst snd]; intros Hrc; try discriminate Hrc;
    cbn [bottom stacksize guardsize set_valgrind_stack_id set_guardsize
         set_stacksize set_bottom];
    unfold emit, fetch_add; cbn [trace s_stack_count]; rewrite <- ?app_assoc;
    cbn [app].
  1, 2: destruct (granted_stacksize os S Hp HS) as (Hr & Hlt & Hmod);
    [ intros Hbig; apply Hmem, (sane_malloc_huge os Hos), Hbig | ];
    destruct (sane_malloc_fits os Hos _ Hmem) as [Hpos Hend];
    unfold INT_MAX in *;
    assert (Hw : wrap64 (rounded_stacksize os S) = rounded_stacksize os S)
      by (apply wrap64_small; lia);
    rewrite (wrap64_small (malloc os _ + _)) by lia;
    eexists; eexists; (split; [exact Hpos |]);
    rewrite Z.add_0_r; (split; [lia |]); (split; [reflexivity |]);
    (split; [lia |]); (split; [reflexivity |]); (split; [reflexivity |]);
    cbn [held_after]; rewrite (proj2 (Z.eqb_neq _ _) Hmem); reflexivity.
  all: destruct (granted_memsize os S G Hp HS HG)
         as ((Hr & Hlt & Hmod) & (Hr' & Hlt' & Hmod') & Hsum & Hfit);
    [ intros Hz; apply Hmem, (sane_mmap_length os Hos); left; exact Hz
    | intros Hbig; apply Hmem, (sane_mmap_length os Hos); right; exact Hbig
    | ];
    destruct (sane_mmap_fits os Hos _ Hmem) as [Hpos Hend];
    unfold INT_MAX in *;
    assert (Hw : wrap64 (total_memsize os S G) = total_memsize os S G)
      by (apply wrap64_small; lia);
    rewrite (wrap64_small (mmap os _ + _)) by lia;
    eexists; eexists; (split; [exact Hpos |]);
    (split; [lia |]); (split; [rewrite Hsum; reflexivity |]);
    (split; [lia |]); (split; [reflexivity |]); (split; [reflexivity |]);
    cbn [held_after]; rewrite (proj2 (Z.eqb_neq _ _) Hmem);
    destruct (Z.leb_spec (rounded_guardsize os G) 0); [lia |];
    rewrite <- Hsum; cbn [app]; do 2 f_equal; exact Hw.
Qed.

(** [deallocate_stack_storage] on a handle whose bottom does not exceed
    its total size. *)
Lemma deallocate_degenerate (os : OS) (s : StackStorage) (w : World) :
  0 <= stacksize s + guardsize s <= INT_MAX ->
  bottom s <= stacksize s + guardsize s ->
  deallocate_stack_storage os s w = deregistered os s w.
Proof.
  intros Hsum Hb. unfold deallocate_stack_storage, deregistered. cbv zeta.
  rewrite wrap32_small by (unfold is_int, INT_MIN; unfold INT_MAX in *; lia).
  rewrite wrap64_small by (unfold INT_MAX in *; lia).
  destruct (Z.leb_spec (bottom s) (stacksize s + guardsize s)); [reflexivity | lia].
Qed.

(** [deallocate_stack_storage] on a handle whose bottom exceeds it. *)
Lemma deallocate_live (os : OS) (s : StackStorage) (w : World) :
  0 <= stacksize s + guardsize s <= INT_MAX ->
  stacksize s + guardsize s < bottom s < 2 ^ 64 ->
  deallocate_stack_storage os s w =
  emit (if guardsize s <=? 0
        then EvFree (bottom s - (stacksize s + guardsize s))
        else EvMunmap (bottom s - (stacksize s + guardsize s))
                      (stacksize s + guardsize s))
       (fetch_sub 1 (deregistered os s w)).
Proof.
  intros Hsum Hb. unfold deallocate_stack_storage, deregistered. cbv zeta.
  rewrite wrap32_small by (unfold is_int, INT_MIN; unfold INT_MAX in *; lia).
  rewrite !wrap64_small by (unfold INT_MAX in *; lia).
  destruct (Z.leb_spec (bottom s) (stacksize s + guardsize s)); [lia |].
  destruct (guardsize s <=? 0); reflexivity.
Qed.

(** The same two cases for every handle, in the terms the code compares:
    the [int] sum converted to [uintptr_t]. *)
Lemma deallocate_skips (os : OS) (s : StackStorage) (w : World) :
  bottom s <= wrap64 (wrap32 (stacksize s + guardsize s)) ->
  deallocate_stack_storage os s w = deregistered os s w.
Proof.
  intros Hb. unfold deallocate_stack_storage, deregistered. cbv zeta.
  destruct (Z.leb_spec (bottom s) (wrap64 (wrap32 (stacksize s + guardsize s))));
    [reflexivity | lia].
Qed.

Lemma deallocate_releases (os : OS) (s : StackStorage) (w : World) :
  wrap64 (wrap32 (stacksize s + guardsize s)) < bottom s ->
  deallocate_stack_storage os s w =
  emit (if guardsize s <=? 0
        then EvFree (wrap64 (bottom s - wrap32 (stacksize s + guardsize s)))
        else EvMunmap (wrap64 (bottom s - wrap32 (stacksize s + guardsize s)))
                      (wrap64 (wrap32 (stacksize s + guardsize s))))
       (fetch_sub 1 (deregistered os s w)).
Proof.
  intros Hb. unfold deallocate_stack_storage, deregistered. cbv zeta.
  destruct (Z.leb_spec (bottom s) (wrap64 (wrap32 (stacksize s + guardsize s))));
    [lia |].
  destruct (guardsize s <=? 0); reflexivity.
Qed.

Lemma deregistered_count (os : OS) (s : StackStorage) (w : World) :
  s_stack_count (deregistered os s w) = s_stack_count w.
Proof. unfold deregistered. destruct (RunningOnValgrind os); reflexivity. Qed.

Lemma deregistered_trace (os : OS) (s : StackStorage) (w : World) :
  trace (deregistered os s w) =
  trace w ++ (if RunningOnValgrind os
              then [EvValgrindDeregister (valgrind_stack_id s)] else []).
Proof.
  unfold deregistered. destruct (RunningOnValgrind os); cbn.
  - reflexivity.
  - rewrite app_nil_r. reflexivity.
Qed.

End StackFacts.

Module StackTheorems.
Import Stack MachineIntFacts StackFacts.

(** C10: on each failure path [allocate_stack_storage] returns -1 and
    hands the caller's struct back as it was; the failure paths are exactly
    malloc failure, mmap failure, a guard residual that is not positive
    and mprotect failure, and every other run returns 0. *)
Theorem allocate_failure_leaves_struct (os : OS) (s : StackStorage) (S G : Z) (w : World) :
  (fst (fst (allocate_stack_storage os s S G w)) = -1 <-> allocation_fails os S G) /\
  (fst (fst (allocate_stack_storage os s S G w)) = -1 ->
   snd (fst (allocate_stack_storage os s S G w)) = s) /\
  (fst (fst (allocate_stack_storage os s S G w)) = -1 \/
   fst (fst (allocate_stack_storage os s S G w)) = 0).
Proof.
  unfold allocation_fails; cbv zeta.
  allocate_paths os S G;
    (split;
      [ split;
        [ intros Hrc; try discriminate Hrc; tauto
        | intros Hf; first [ reflexivity | exfalso; intuition (congruence || lia) ] ]
      | split; [ intros Hrc; try discriminate Hrc; reflexivity | auto ] ]).
Qed.

(** C3: on the guarded path, a guard residual [guardsize - offset] that is
    not positive, or a failing [mprotect], makes the function unmap the
    whole mapping and return -1; after any failure the process holds none
    of the memory the call obtained, the struct is untouched and the
    counter is as before; after a success every field is set, the guard is
    protected and the mapping is held: there is no outcome in between. *)
Theorem guarded_allocation_all_or_nothing
    (os : OS) (s : StackStorage) (S G : Z) (w : World) :
  0 < G ->
  let memsize := wrap64 (total_memsize os S G) in
  let mem := mmap os memsize in
  let gd := rounded_guardsize os G in
  let offset := alignment_offset os mem in
  let len := wrap64 (wrap32 (gd - offset)) in
  let r := allocate_stack_storage os s S G w in
  (mem <> MAP_FAILED ->
   gd - offset <= 0 \/ mprotect os (aligned_address os mem) len <> 0 ->
   fst (fst r) = -1 /\
   exists pre, new_events w (snd r) = pre ++ [EvMunmap mem memsize]) /\
  (fst (fst r) = -1 ->
   held_after (new_events w (snd r)) [] = [] /\
   snd (fst r) = s /\
   s_stack_count (snd r) = s_stack_count w) /\
  (fst (fst r) = 0 ->
   bottom (snd (fst r)) = wrap64 (mem + total_memsize os S G) /\
   stacksize (snd (fst r)) = rounded_stacksize os S /\
   guardsize (snd (fst r)) = gd /\
   valgrind_stack_id (snd (fst r)) =
     (if RunningOnValgrind os
      then VALGRIND_STACK_REGISTER os (wrap64 (mem + total_memsize os S G))
             (wrap64 (wrap64 (mem + total_memsize os S G) - rounded_stacksize os S))
      else 0) /\
   In (EvMprotect (aligned_address os mem) len 0) (new_events w (snd r)) /\
   held_after (new_events w (snd r)) [] = [Mapping mem memsize]) /\
  (fst (fst r) = -1 \/ fst (fst r) = 0).
Proof.
  intros HG0. cbv zeta.
  allocate_paths os S G; try lia; events;
    cbn [held_after];
    rewrite ?(proj2 (Z.eqb_eq _ _) Hmem), ?(proj2 (Z.eqb_neq _ _) Hmem);
    cbn [release app region_eqb];
    rewrite ?Z.eqb_refl; cbn [andb];
    (split; [ intros Hm Hres | split; [ intros Hrc | split; [ intros Hrc | auto ] ] ]);
    try discriminate Hrc; try contradiction;
    try (exfalso; intuition (congruence || lia));
    repeat split; try reflexivity; try eauto.
  all: try (exists []; reflexivity).
  all: try (eexists [_]; reflexivity).
  all: try (eexists [_; _]; reflexivity).
  all: try (rewrite Hprot; cbn; auto).
Qed.

(** C7: with a guard size that is not positive the function takes the
    unguarded path: it calls [malloc] once, for the rounded stack size, and
    neither [mmap] nor [mprotect]; when [malloc] grants the block the
    struct records the guard size 0, the rounded size, and as bottom the
    end of the block. *)
Theorem unguarded_allocation (os : OS) (s : StackStorage) (S G : Z) (w : World) :
  G <= 0 ->
  let st := rounded_stacksize os S in
  let mem := malloc os (wrap64 st) in
  let r := allocate_stack_storage os s S G w in
  filter is_malloc (new_events w (snd r)) = [EvMalloc (wrap64 st) mem] /\
  filter is_mmap (new_events w (snd r)) = [] /\
  filter is_mprotect (new_events w (snd r)) = [] /\
  (fst (fst r) = 0 <-> mem <> NULL) /\
  (fst (fst r) = 0 ->
   guardsize (snd (fst r)) = 0 /\
   stacksize (snd (fst r)) = st /\
   bottom (snd (fst r)) = wrap64 (mem + st)) /\
  (page_ok (getpagesize os) -> is_int S -> mem <> NULL ->
   (forall n, PTRDIFF_MAX < n -> malloc os n = NULL) ->
   wrap64 st = st /\
   st mod getpagesize os = 0 /\
   Z.max S (getpagesize os * 2) <= st < Z.max S (getpagesize os * 2) + getpagesize os).
Proof.
  intros HG0. cbv zeta.
  assert (Hround :
    page_ok (getpagesize os) -> is_int S ->
    malloc os (wrap64 (rounded_stacksize os S)) <> NULL ->
    (forall n, PTRDIFF_MAX < n -> malloc os n = NULL) ->
    wrap64 (rounded_stacksize os S) = rounded_stacksize os S /\
    rounded_stacksize os S mod getpagesize os = 0 /\
    Z.max S (getpagesize os * 2) <= rounded_stacksize os S
      < Z.max S (getpagesize os * 2) + getpagesize os).
  { intros Hp HS Hmem Hhuge.
    pose proof (page_ok_bounds _ Hp) as Hb.
    destruct (granted_stacksize os S Hp HS) as (Hr & Hlt & Hmod).
    - intros Hbig. apply Hmem, Hhuge, Hbig.
    - unfold INT_MAX in Hr. split; [apply wrap64_small; lia | split; [exact Hmod | lia]]. }
  allocate_paths os S G; try lia; events; cbn [filter is_malloc is_mmap is_mprotect];
    (do 3 (split; [reflexivity |]));
    (split; [ split; [ intros Hrc; try discriminate Hrc; assumption
                     | intros Hm; first [ reflexivity | contradiction ] ]
            | split; [ intros Hrc; try discriminate Hrc; repeat split; reflexivity
                     | exact Hround ] ]).
Qed.

(** C8 does not hold as stated: the code adds the two sizes into an
    [int] and compares the bottom address with that [int] converted to
    [uintptr_t], so a handle whose bottom address is larger than
    [stacksize + guardsize] is still left alone when the sum is negative
    or exceeds [INT_MAX].  For the handle with bottom [0x7f0000000000] and
    sizes of a gigabyte each the sum [2 ^ 31] wraps to [INT_MIN], which as
    [uintptr_t] is [2 ^ 64 - 2 ^ 31]; for the handle with bottom [73728],
    [stacksize = -1] and [guardsize = 0] the sum [-1] becomes
    [2 ^ 64 - 1].  In both cases the counter is not decremented and
    nothing is freed or unmapped. *)
Lemma deallocate_skips_handle_above_total :
  (stacksize oversized_storage + guardsize oversized_storage
     < bottom oversized_storage /\
   deallocate_stack_storage sample_os oversized_storage fresh_world = fresh_world /\
   s_stack_count (deallocate_stack_storage sample_os oversized_storage fresh_world)
     = s_stack_count fresh_world /\
   filter is_release
     (new_events fresh_world
        (deallocate_stack_storage sample_os oversized_storage fresh_world)) = []) /\
  (stacksize negative_storage + guardsize negative_storage
     < bottom negative_storage /\
   deallocate_stack_storage sample_os negative_storage fresh_world = fresh_world /\
   s_stack_count (deallocate_stack_storage sample_os negative_storage fresh_world)
     = s_stack_count fresh_world /\
   filter is_release
     (new_events fresh_world
        (deallocate_stack_storage sample_os negative_storage fresh_world)) = []).
Proof.
  split; (split; [vm_compute; reflexivity |]);
    (split; [vm_compute; reflexivity |]);
    (split; vm_compute; reflexivity).
Qed.

(** C8, amended: [deallocate_stack_storage] computes [memsize] as the
    [int] sum [stacksize + guardsize] and compares the bottom address with
    [memsize] converted to [uintptr_t]; that limit is the sum itself when
    the sum lies in [0 .. INT_MAX], and [2 ^ 64 + memsize] when [memsize]
    is negative.  A handle whose bottom address is not larger than the
    limit makes the function free nothing, unmap nothing and leave the
    counter (the function returns nothing, so there is no error to
    report; the one call it still makes is the deregistration from
    Valgrind, and only when running under it).  Any other handle has its
    base computed as [bottom - memsize], the counter decremented, and the
    region released by [free] when [guardsize <= 0] and by [munmap] of
    [memsize] bytes when [guardsize > 0]; with a sum in [0 .. INT_MAX] and
    a bottom address below [2 ^ 64] the base is [bottom - (stacksize +
    guardsize)] and the length the sum, without wrap-around. *)
Theorem deallocate_noop_or_release (os : OS) (s : StackStorage) (w : World) :
  let total := stacksize s + guardsize s in
  let memsize := wrap32 total in
  let limit := wrap64 memsize in
  let w' := deallocate_stack_storage os s w in
  (0 <= total <= INT_MAX -> memsize = total /\ limit = total) /\
  (memsize < 0 -> limit = 2 ^ 64 + memsize) /\
  (bottom s <= limit ->
   s_stack_count w' = s_stack_count w /\
   filter is_release (new_events w w') = [] /\
   new_events w w' =
     (if RunningOnValgrind os
      then [EvValgrindDeregister (valgrind_stack_id s)] else [])) /\
  (limit < bottom s ->
   s_stack_count w' = wrap64s (s_stack_count w - 1) /\
   (INT64_MIN < s_stack_count w <= INT64_MAX ->
    s_stack_count w' = s_stack_count w - 1) /\
   filter is_release (new_events w w') =
     [if guardsize s <=? 0
      then EvFree (wrap64 (bottom s - memsize))
      else EvMunmap (wrap64 (bottom s - memsize)) limit] /\
   (0 <= total <= INT_MAX -> bottom s < 2 ^ 64 ->
    wrap64 (bottom s - memsize) = bottom s - total)).
Proof.
  cbv zeta.
  assert (Hsmall : 0 <= stacksize s + guardsize s <= INT_MAX ->
            wrap32 (stacksize s + guardsize s) = stacksize s + guardsize s /\
            wrap64 (wrap32 (stacksize s + guardsize s)) =
              stacksize s + guardsize s).
  { intros Hsum.
    rewrite wrap32_small by (unfold is_int, INT_MIN; unfold INT_MAX in *; lia).
    rewrite wrap64_small by (unfold INT_MAX in *; lia).
    split; reflexivity. }
  split; [exact Hsmall |]. split.
  { intros Hneg.
    pose proof (wrap32_is_int (stacksize s + guardsize s)) as Hint.
    unfold is_int, INT_MIN, INT_MAX in Hint.
    rewrite wrap64_negative by lia. lia. }
  split; intros Hb.
  - rewrite deallocate_skips by assumption.
    rewrite deregistered_count.
    rewrite (new_events_app w _ _ (deregistered_trace os s w)).
    destruct (RunningOnValgrind os); repeat split; reflexivity.
  - rewrite deallocate_releases by assumption.
    unfold emit, fetch_sub; cbn [s_stack_count trace].
    rewrite deregistered_count. split; [reflexivity |]. split.
    { intros Hc. apply wrap64s_small. unfold INT64_MIN, INT64_MAX in *. lia. }
    split.
    + erewrite new_events_app
        by (cbn [trace]; rewrite deregistered_trace, <- app_assoc; reflexivity).
      destruct (RunningOnValgrind os), (guardsize s <=? 0); reflexivity.
    + intros Hsum Hptr. destruct (Hsmall Hsum) as (Hm & Hl).
      rewrite Hl in Hb. rewrite Hm.
      apply wrap64_small. unfold INT_MAX in *. lia.
Qed.

(** C4: a successful [allocate_stack_storage] records a stack size that
    is a multiple of the page size, at least the requested size and at
    least two pages (it is the least such multiple), and the total
    [stacksize + guardsize] is a multiple of the page size as well. *)
Theorem allocated_sizes_are_page_multiples
    (os : OS) (s : StackStorage) (S G : Z) (w : World) :
  os_sane os -> is_int S -> is_int G -> 1 <= S ->
  fst (fst (allocate_stack_storage os s S G w)) = 0 ->
  let s' := snd (fst (allocate_stack_storage os s S G w)) in
  let P := getpagesize os in
  stacksize s' mod P = 0 /\
  S <= stacksize s' /\
  2 * P <= stacksize s' /\
  stacksize s' < Z.max S (2 * P) + P /\
  (stacksize s' + guardsize s') mod P = 0.
Proof.
  intros Hos HS HG HS1. cbv zeta.
  pose proof (sane_pagesize os Hos) as Hp.
  pose proof (page_ok_bounds _ Hp) as Hb.
  allocate_paths os S G; cbn [fst snd]; intros Hrc; try discriminate Hrc;
    cbn [stacksize guardsize set_valgrind_stack_id set_guardsize set_stacksize set_bottom].
  1, 2: destruct (granted_stacksize os S Hp HS) as (Hr & Hlt & Hmod);
    [ intros Hbig; apply Hmem, (sane_malloc_huge os Hos), Hbig
    | rewrite Z.add_0_r; repeat split; try assumption; lia ].
  all: destruct (granted_memsize os S G Hp HS HG)
         as ((Hr & Hlt & Hmod) & (Hr' & Hlt' & Hmod') & Hsum & Hfit);
    [ intros Hz; apply Hmem, (sane_mmap_length os Hos); left; exact Hz
    | intros Hbig; apply Hmem, (sane_mmap_length os Hos); right; exact Hbig
    | repeat split; try assumption; try lia;
      rewrite Z.add_mod, Hmod, Hmod' by lia; apply Z.mod_0_l; lia ].
Qed.

(** C6: a successful [allocate_stack_storage] raises the live-stack
    counter by exactly one, [deallocate_stack_storage] of the storage it
    filled lowers it by exactly one, so the pair restores the counter (and
    gives back the memory the pair obtained); an allocation that fails
    leaves the counter as it was. *)
Theorem allocate_deallocate_restores_counter
    (os : OS) (s : StackStorage) (S G : Z) (w : World) :
  os_sane os -> is_int S -> is_int G ->
  INT64_MIN <= s_stack_count w < INT64_MAX ->
  let r := allocate_stack_storage os s S G w in
  let w'' := deallocate_stack_storage os (snd (fst r)) (snd r) in
  (fst (fst r) = 0 ->
   s_stack_count (snd r) = s_stack_count w + 1 /\
   s_stack_count w'' = s_stack_count (snd r) - 1 /\
   s_stack_count w'' = s_stack_count w /\
   held_after (new_events w w'') [] = []) /\
  (fst (fst r) = -1 -> s_stack_count (snd r) = s_stack_count w).
Proof.
  intros Hos HS HG Hc. cbv zeta. split.
  - intros Hrc.
    destruct (allocate_success_shape os s S G w Hos HS HG Hrc)
      as (mem & evs & Hpos & Hsum & Hbot & Hend & Hcount & Htrace & Hheld).
    rewrite deallocate_live by lia.
    unfold emit, fetch_sub; cbn [s_stack_count trace].
    rewrite deregistered_count, Hcount.
    unfold INT64_MIN, INT64_MAX in Hc.
    rewrite (wrap64s_small (s_stack_count w + 1))
      by (unfold INT64_MIN, INT64_MAX; lia).
    rewrite wrap64s_small by (unfold INT64_MIN, INT64_MAX; lia).
    repeat split; try lia.
    erewrite new_events_app
      by (cbn [trace]; rewrite deregistered_trace, Htrace, <- !app_assoc; reflexivity).
    rewrite !held_after_app, Hheld, Hbot.
    replace (mem + (stacksize _ + guardsize _) - (stacksize _ + guardsize _))
      with mem by lia.
    destruct (RunningOnValgrind os), (guardsize _ <=? 0);
      cbn [held_after release]; rewrite region_eqb_refl; reflexivity.
  - allocate_paths os S G; cbn [fst snd]; intros Hrc; try discriminate Hrc;
      reflexivity.
Qed.

(** *** The theorems at concrete inputs *)

Lemma sample_os_sane : os_sane sample_os.
Proof.
  constructor; cbn [getpagesize malloc mmap sample_os].
  - split; [vm_compute; split; discriminate | reflexivity].
  - intros n Hn. destruct (Z.ltb_spec PTRDIFF_MAX n); [reflexivity | lia].
  - intros n. destruct (Z.ltb_spec PTRDIFF_MAX n) as [Hn | Hn]; intros Hm.
    + contradiction.
    + unfold PTRDIFF_MAX in Hn. lia.
  - intros n [Hn | Hn].
    + subst n. reflexivity.
    + destruct (n =? 0); cbn [orb]; [reflexivity |].
      destruct (Z.ltb_spec PTRDIFF_MAX n); [reflexivity | lia].
  - intros n. destruct (Z.eqb_spec n 0) as [Hz | Hz]; cbn [orb].
    + intros Hm. contradiction.
    + destruct (Z.ltb_spec PTRDIFF_MAX n) as [Hn | Hn]; intros Hm.
      * contradiction.
      * unfold PTRDIFF_MAX in Hn. lia.
Qed.

Example allocate_guarded_run :
  allocate_stack_storage sample_os zero_storage 5000 1 fresh_world =
  (0, mkStackStorage (0x7f0000000000 + 12288) 8192 4096 0,
   mkWorld 1 [EvMmap 12288 0x7f0000000000;
              EvMprotect 0x7f0000000000 4096 0]).
Proof. vm_compute. reflexivity. Qed.

Example allocate_unguarded_run :
  allocate_stack_storage valgrind_os zero_storage 100000 0 fresh_world =
  (0, mkStackStorage (0x10000 + 102400) 102400 0 7,
   mkWorld 1 [EvMalloc 102400 0x10000;
              EvValgrindRegister (0x10000 + 102400) 0x10000 7]).
Proof. vm_compute. reflexivity. Qed.

Example allocate_protect_failure_run :
  allocate_stack_storage protect_failing_os zero_storage 5000 4096 fresh_world =
  (-1, zero_storage,
   mkWorld 0 [EvMmap 12288 0x7f0000000000;
              EvMprotect 0x7f0000000000 4096 (-1);
              EvMunmap 0x7f0000000000 12288]).
Proof. vm_compute. reflexivity. Qed.

Example allocate_overflowing_size_run :
  allocate_stack_storage sample_os zero_storage INT_MAX 0 fresh_world =
  (-1, zero_storage, mkWorld 0 [EvMalloc (2 ^ 64 - 2 ^ 31) NULL]).
Proof. vm_compute. reflexivity. Qed.

Example deallocate_zero_storage_run :
  deallocate_stack_storage sample_os zero_storage fresh_world = fresh_world.
Proof. vm_compute. reflexivity. Qed.

Lemma guarded_allocation_all_or_nothing_witness :
  0 < 4096 /\
  (fst (fst (allocate_stack_storage protect_failing_os zero_storage 5000 4096 fresh_world)) = -1 /\
   exists pre,
     new_events fresh_world
       (snd (allocate_stack_storage protect_failing_os zero_storage 5000 4096 fresh_world)) =
     pre ++ [EvMunmap
               (mmap protect_failing_os (wrap64 (total_memsize protect_failing_os 5000 4096)))
               (wrap64 (total_memsize protect_failing_os 5000 4096))]).
Proof.
  assert (H0 : 0 < 4096) by lia.
  split; [exact H0 |].
  pose proof (guarded_allocation_all_or_nothing
                protect_failing_os zero_storage 5000 4096 fresh_world H0) as H.
  cbv zeta in H. destruct H as [H _]. apply H.
  - vm_compute. discriminate.
  - right. vm_compute. discriminate.
Defined.

Lemma unguarded_allocation_witness :
  0 <= 0 /\
  filter is_malloc
    (new_events fresh_world
       (snd (allocate_stack_storage valgrind_os zero_storage 100000 0 fresh_world))) =
  [EvMalloc (wrap64 (rounded_stacksize valgrind_os 100000))
     (malloc valgrind_os (wrap64 (rounded_stacksize valgrind_os 100000)))].
Proof.
  assert (H0 : 0 <= 0) by lia.
  split; [exact H0 |].
  pose proof (unguarded_allocation valgrind_os zero_storage 100000 0 fresh_world H0) as H.
  cbv zeta in H. destruct H as [H _]. exact H.
Defined.

Lemma deallocate_noop_or_release_witness :
  (bottom zero_storage
     <= wrap64 (wrap32 (stacksize zero_storage + guardsize zero_storage)) /\
   s_stack_count (deallocate_stack_storage valgrind_os zero_storage fresh_world) =
   s_stack_count fresh_world) /\
  (bottom oversized_storage
     <= wrap64 (wrap32 (stacksize oversized_storage + guardsize oversized_storage)) /\
   filter is_release
     (new_events fresh_world
        (deallocate_stack_storage valgrind_os oversized_storage fresh_world)) = []) /\
  ((wrap64 (wrap32 (stacksize mapped_storage + guardsize mapped_storage))
      < bottom mapped_storage /\
    0 <= stacksize mapped_storage + guardsize mapped_storage <= INT_MAX /\
    bottom mapped_storage < 2 ^ 64) /\
   filter is_release
     (new_events fresh_world
        (deallocate_stack_storage valgrind_os mapped_storage fresh_world)) =
   [EvMunmap (wrap64 (bottom mapped_storage
                      - wrap32 (stacksize mapped_storage + guardsize mapped_storage)))
             (wrap64 (wrap32 (stacksize mapped_storage + guardsize mapped_storage)))] /\
   wrap64 (bottom mapped_storage
           - wrap32 (stacksize mapped_storage + guardsize mapped_storage)) =
   bottom mapped_storage - (stacksize mapped_storage + guardsize mapped_storage)).
Proof.
  assert (H1 : bottom zero_storage
               <= wrap64 (wrap32 (stacksize zero_storage + guardsize zero_storage)))
    by (vm_compute; discriminate).
  assert (H2 : bottom oversized_storage
               <= wrap64 (wrap32 (stacksize oversized_storage
                                  + guardsize oversized_storage)))
    by (vm_compute; discriminate).
  assert (H3 : wrap64 (wrap32 (stacksize mapped_storage + guardsize mapped_storage))
               < bottom mapped_storage)
    by (vm_compute; reflexivity).
  assert (H4 : 0 <= stacksize mapped_storage + guardsize mapped_storage <= INT_MAX)
    by (vm_compute; split; discriminate).
  assert (H5 : bottom mapped_storage < 2 ^ 64) by (vm_compute; reflexivity).
  split.
  { split; [exact H1 |].
    pose proof (deallocate_noop_or_release valgrind_os zero_storage fresh_world) as H.
    cbv zeta in H. destruct H as (_ & _ & H & _).
    destruct (H H1) as [Hc _]. exact Hc. }
  split.
  { split; [exact H2 |].
    pose proof (deallocate_noop_or_release valgrind_os oversized_storage fresh_world)
      as H.
    cbv zeta in H. destruct H as (_ & _ & H & _).
    destruct (H H2) as (_ & Hr & _). exact Hr. }
  split; [exact (conj H3 (conj H4 H5)) |].
  pose proof (deallocate_noop_or_release valgrind_os mapped_storage fresh_world) as H.
  cbv zeta in H. destruct H as (_ & _ & _ & H).
  destruct (H H3) as (_ & _ & Hr & Hbase).
  split; [exact Hr | exact (Hbase H4 H5)].
Defined.

Lemma allocated_sizes_are_page_multiples_witness :
  os_sane sample_os /\ is_int 5000 /\ is_int 1 /\ 1 <= 5000 /\
  fst (fst (allocate_stack_storage sample_os zero_storage 5000 1 fresh_world)) = 0 /\
  stacksize (snd (fst (allocate_stack_storage sample_os zero_storage 5000 1 fresh_world)))
    mod getpagesize sample_os = 0 /\
  5000 <= stacksize (snd (fst (allocate_stack_storage sample_os zero_storage 5000 1 fresh_world))).
Proof.
  assert (H1 : is_int 5000) by (vm_compute; split; discriminate).
  assert (H2 : is_int 1) by (vm_compute; split; discriminate).
  assert (H3 : 1 <= 5000) by lia.
  assert (H4 : fst (fst (allocate_stack_storage sample_os zero_storage 5000 1 fresh_world)) = 0)
    by (vm_compute; reflexivity).
  split; [exact sample_os_sane |]. split; [exact H1 |]. split; [exact H2 |].
  split; [exact H3 |]. split; [exact H4 |].
  pose proof (allocated_sizes_are_page_multiples
                sample_os zero_storage 5000 1 fresh_world sample_os_sane H1 H2 H3 H4) as H.
  cbv zeta in H. destruct H as (Ha & Hb & _). split; [exact Ha | exact Hb].
Defined.

Lemma allocate_deallocate_restores_counter_witness :
  os_sane sample_os /\ is_int 5000 /\ is_int 1 /\
  (INT64_MIN <= s_stack_count fresh_world < INT64_MAX) /\
  s_stack_count
    (deallocate_stack_storage sample_os
       (snd (fst (allocate_stack_storage sample_os zero_storage 5000 1 fresh_world)))
       (snd (allocate_stack_storage sample_os zero_storage 5000 1 fresh_world))) =
  s_stack_count fresh_world.
Proof.
  assert (H1 : is_int 5000) by (vm_compute; split; discriminate).
  assert (H2 : is_int 1) by (vm_compute; split; discriminate).
  assert (H3 : INT64_MIN <= s_stack_count fresh_world < INT64_MAX)
    by (vm_compute; split; [discriminate | reflexivity]).
  assert (H4 : fst (fst (allocate_stack_storage sample_os zero_storage 5000 1 fresh_world)) = 0)
    by (vm_compute; reflexivity).
  split; [exact sample_os_sane |]. split; [exact H1 |]. split; [exact H2 |].
  split; [exact H3 |].
  pose proof (allocate_deallocate_restores_counter
                sample_os zero_storage 5000 1 fresh_world sample_os_sane H1 H2 H3) as H.
  cbv zeta in H. destruct H as [H _]. destruct (H H4) as (_ & _ & Hc & _). exact Hc.
Defined.

End StackTheorems.

(** ** Memory *)

Module MemoryFacts.
Import MachineIntFacts.

Lemma wrap64_add_l (a b : Z) : wrap64 (wrap64 a + b) = wrap64 (a + b).
Proof. unfold wrap64. apply Zplus_mod_idemp_l. Qed.

Lemma wrap64_sub_l (a b : Z) : wrap64 (wrap64 a - b) = wrap64 (a - b).
Proof. unfold wrap64. apply Zminus_mod_idemp_l. Qed.

Lemma load_bytes_ext (k : nat) (m1 m2 : mem) (b : Z) :
  (forall j, 0 <= j < Z.of_nat k -> m1 (wrap64 (b + j)) = m2 (wrap64 (b + j))) ->
  load_bytes k m1 b = load_bytes k m2 b.
Proof.
  revert b. induction k as [| k IH]; intros b H; [reflexivity |].
  cbn [load_bytes]. f_equal.
  - specialize (H 0). rewrite Z.add_0_r in H. apply H. lia.
  - f_equal. apply IH. intros j Hj.
    replace (b + 1 + j) with (b + (1 + j)) by lia. apply H. lia.
Qed.

(** A byte outside the range a store writes keeps its value. *)
Lemma store_bytes_outside (n : nat) (a v : Z) (m : mem) (x0 : Z) :
  in_range a (Z.of_nat n) -> 0 <= x0 < 2 ^ 64 ->
  x0 < a \/ a + Z.of_nat n <= x0 ->
  store_bytes n a v m x0 = m x0.
Proof.
  unfold in_range, store_bytes. intros [Ha Hn] Hx Hout.
  destruct (Z.ltb_spec (wrap64 (x0 - a)) (Z.of_nat n)) as [Hlt | Hge]; [| reflexivity].
  exfalso. destruct Hout as [Hout | Hout].
  - rewrite wrap64_negative in Hlt by lia. lia.
  - rewrite wrap64_small in Hlt by lia. lia.
Qed.

Lemma load_store_disjoint (k n : nat) (a b v : Z) (m : mem) :
  in_range a (Z.of_nat n) -> in_range b (Z.of_nat k) ->
  disjoint a (Z.of_nat n) b (Z.of_nat k) ->
  load_bytes k (store_bytes n a v m) b = load_bytes k m b.
Proof.
  intros Ha Hb Hd. apply load_bytes_ext. intros j Hj.
  unfold in_range, disjoint in *.
  rewrite wrap64_small by lia.
  apply store_bytes_outside; [exact Ha | lia | lia].
Qed.

Lemma load_store_same_from (k n : nat) (a v j : Z) (m : mem) :
  0 <= j -> j + Z.of_nat k <= Z.of_nat n -> Z.of_nat n <= 2 ^ 64 ->
  load_bytes k (store_bytes n a v m) (a + j) =
  (v / 2 ^ (8 * j)) mod 2 ^ (8 * Z.of_nat k).
Proof.
  revert j. induction k as [| k IH]; intros j Hj Hjk Hn.
  - cbn. rewrite Z.mod_1_r. reflexivity.
  - cbn [load_bytes].
    replace (a + j + 1) with (a + (j + 1)) by lia.
    rewrite IH by lia.
    unfold store_bytes at 1.
    replace (wrap64 (wrap64 (a + j) - a)) with j.
    2:{ rewrite wrap64_sub_l. replace (a + j - a) with j by lia.
        symmetry. apply wrap64_small. lia. }
    destruct (Z.ltb_spec j (Z.of_nat n)) as [_ | Hge]; [| lia].
    unfold byte_of.
    replace (8 * Z.of_nat (S k)) with (8 + 8 * Z.of_nat k) by lia.
    replace (8 * (j + 1)) with (8 * j + 8) by lia.
    rewrite !Z.pow_add_r by lia.
    change (2 ^ 8) with 256.
    rewrite <- Z.div_div by (try lia; apply Z.pow_pos_nonneg; lia).
    rewrite Z.rem_mul_r by (try lia; apply Z.pow_nonzero; lia).
    reflexivity.
Qed.

Lemma load_store_same (n : nat) (a v : Z) (m : mem) :
  Z.of_nat n <= 2 ^ 64 -> 0 <= v < 2 ^ (8 * Z.of_nat n) ->
  load_bytes n (store_bytes n a v m) a = v.
Proof.
  intros Hn Hv.
  replace a with (a + 0) at 2 by lia.
  rewrite load_store_same_from by lia.
  rewrite Z.mul_0_r, Z.pow_0_r, Z.div_1_r. apply Z.mod_small. exact Hv.
Qed.

Lemma load_store_same_at (n : nat) (a b v : Z) (m : mem) :
  b = a -> Z.of_nat n <= 2 ^ 64 -> 0 <= v < 2 ^ (8 * Z.of_nat n) ->
  load_bytes n (store_bytes n a v m) b = v.
Proof. intros ->. apply load_store_same. Qed.

Lemma load64_store64_same (a v : Z) (m : mem) :
  0 <= v < 2 ^ 64 -> load64 (store64 a v m) a = v.
Proof. intros Hv. apply load_store_same; [cbn; lia | exact Hv]. Qed.

Lemma load_bytes_agree (k : nat) (m1 m2 : mem) (a n b : Z) :
  agree m1 m2 a n -> 0 <= b -> b + Z.of_nat k <= 2 ^ 64 ->
  a <= b -> b + Z.of_nat k <= a + n ->
  load_bytes k m1 b = load_bytes k m2 b.
Proof.
  intros Hag Hb Hk Hlo Hhi. apply load_bytes_ext. intros j Hj.
  rewrite wrap64_small by lia. apply Hag. lia.
Qed.

End MemoryFacts.

(** ** linux x86_64 *)

Module X86Facts.
Import X86_64 MachineIntFacts MemoryFacts.

(** Symbolic execution of a routine on a state given by its fields. *)
Ltac run :=
  cbv beta iota zeta delta
    [save_context restore_context bthread_make_fcontext bthread_jump_fcontext
     seq pushq popq leaq leaq_label movq andq xorq cmp je stmxcsr fnstcw
     ldmxcsr fldcw movq_store jmp ret exec andthen je_over state_of
     get set set_mem set_zf set_rip set_mxcsr set_fpucw
     regs zf memory mxcsr fpucw rip reg_eqb] in *.

(** Removes the wrap-around of addresses that stay in range, innermost
    first. *)
Ltac unwrap :=
  repeat match goal with
  | |- context [wrap64 ?z] =>
      lazymatch z with context [wrap64 _] => fail | _ => idtac end;
      rewrite (wrap64_small z) by lia
  end.

Ltac mem_side := unfold in_range, disjoint in *; lia.

(** Resolves loads from memory built by stores. *)
Ltac loads :=
  unfold load64, load32, load16, store64, store32, store16 in *;
  repeat match goal with
  | |- context [load_bytes ?k (store_bytes ?n ?a ?v ?m) ?b] =>
      first [ rewrite (load_store_disjoint k n a b v m) by mem_side
            | rewrite (load_store_same_at n a b v m) by (cbn; lia) ]
  end.

(** Resolves single bytes of memory built by stores lying elsewhere. *)
Ltac bytes :=
  unfold store64, store32, store16 in *;
  repeat match goal with
  | |- context [store_bytes ?n ?a ?v ?m ?x0] =>
      rewrite (store_bytes_outside n a v m x0) by mem_side
  end.

Lemma wrap64_0 : wrap64 0 = 0.
Proof. reflexivity. Qed.


Lemma done_state (r : result) (e : state) : r = Done e -> state_of r = e.
Proof. intros ->. reflexivity. Qed.

Lemma jump_split (s : state) :
  bthread_jump_fcontext s = restore_context (save_context s).
Proof.
  cbv beta iota delta
    [bthread_jump_fcontext restore_context save_context andthen exec seq].
  reflexivity.
Qed.

(** *** The first half: saving the running context *)

Lemma save_context_regs (s : state) (r : reg) :
  r <> RSP -> get r (save_context s) = get r s.
Proof.
  intros Hr. destruct s as [rg ip z mx cw m]. run. rewrite wrap64_0.
  destruct (rg RCX =? 0); destruct r; try reflexivity; contradiction.
Qed.

Lemma save_context_rsp (s : state) :
  56 <= get RSP s < 2 ^ 64 -> get RSP (save_context s) = get RSP s - 56.
Proof.
  destruct s as [rg ip z mx cw m]. run. rewrite wrap64_0. intros H.
  destruct (rg RCX =? 0); unwrap; lia.
Qed.

Lemma save_context_fpu (s : state) :
  mxcsr (save_context s) = mxcsr s /\ fpucw (save_context s) = fpucw s.
Proof.
  destruct s as [rg ip z mx cw m]. run. rewrite wrap64_0.
  destruct (rg RCX =? 0); split; reflexivity.
Qed.






(** Nothing is written outside the 56 bytes below [%rsp] and the slot
    [*ofc]. *)
Lemma save_context_outside (s : state) (x0 : Z) :
  can_suspend s -> 0 <= x0 < 2 ^ 64 ->
  x0 < get RSP s - 56 \/ get RSP s <= x0 ->
  x0 < get RDI s \/ get RDI s + 8 <= x0 ->
  memory (save_context s) x0 = memory s x0.
Proof.
  unfold can_suspend, in_range, disjoint.
  destruct s as [rg ip z mx cw m]. run. rewrite wrap64_0.
  intros (H1 & H2 & H3 & H4) Hx Ho1 Ho2.
  destruct (rg RCX =? 0); unwrap; bytes; reflexivity.
Qed.

(** Hence a frame apart from the switch reads the same before and after
    the save. *)
Lemma save_context_keeps (s : state) (ctx n : Z) :
  can_suspend s -> frame_apart s ctx n ->
  agree (memory (save_context s)) (memory s) ctx n.
Proof.
  intros Hs (Hc1 & Hc2 & Hd1 & Hd2) x0 Hx.
  pose proof Hs as (H1 & H2 & H3 & H4).
  unfold in_range, disjoint in *.
  apply save_context_outside; [exact Hs | lia | lia | lia].
Qed.

(** *** The second half: resuming the target context *)

Lemma loadable_spec (v : Z) : loadable v = true <-> 0 <= v < 2 ^ 16.
Proof.
  unfold loadable. rewrite Z.eqb_eq, Z.shiftr_div_pow2 by lia.
  rewrite Z.div_small_iff by lia. lia.
Qed.

(** The cases of a run of the second half: [preserve_fpu] clear, set with
    a loadable word in the frame, set with another word. *)
Ltac outcomes rg :=
  let Ef := fresh "Eflag" in
  let El := fresh "Eload" in
  destruct (rg RCX =? 0) eqn:Ef; cbv beta iota;
  [| match goal with
     | |- context [loadable ?v] => destruct (loadable v) eqn:El; cbv beta iota
     end ].

(** Neither outcome of the second half writes memory. *)
Lemma restore_context_memory (s : state) :
  memory (state_of (restore_context s)) = memory s.
Proof.
  destruct s as [rg ip z mx cw m]. run. rewrite wrap64_0.
  outcomes rg; reflexivity.
Qed.

(** The second half runs to its end when [preserve_fpu] is clear, and when
    the word at [nfc] is loadable into MXCSR. *)
Lemma restore_context_completes (s : state) :
  0 <= get RSI s < 2 ^ 64 ->
  get RCX s = 0 \/ loadable (load32 (memory s) (get RSI s)) = true ->
  exists e, restore_context s = Done e.
Proof.
  destruct s as [rg ip z mx cw m]. run. rewrite wrap64_0. intros Hr Hok.
  rewrite (wrap64_small (rg RSI + 0)) by lia. rewrite Z.add_0_r.
  outcomes rg; try (eexists; reflexivity).
  exfalso. apply Z.eqb_neq in Eflag.
  destruct Hok as [Hz | Hl]; [contradiction | discriminate Hl].
Qed.




(** The registers come out of the frame at [nfc], the jump goes to the
    address in its last slot, and [%rsp] ends right above that slot. *)
Lemma restore_context_frame (s e : state) :
  0 <= get RSI s -> get RSI s + 0x40 < 2 ^ 64 ->
  restore_context s = Done e ->
  let m := memory s in
  let nfc := get RSI s in
  get R12 e = load64 m (nfc + 0x8) /\
  get R13 e = load64 m (nfc + 0x10) /\
  get R14 e = load64 m (nfc + 0x18) /\
  get R15 e = load64 m (nfc + 0x20) /\
  get RBX e = load64 m (nfc + 0x28) /\
  get RBP e = load64 m (nfc + 0x30) /\
  rip e = load64 m (nfc + 0x38) /\
  get RSP e = nfc + 0x40.
Proof.
  destruct s as [rg ip z mx cw m]. run. rewrite wrap64_0. intros H1 H2.
  outcomes rg; intros H; try discriminate H; injection H as <-;
    cbn [regs rip]; unwrap; repeat split; first [lia | f_equal; lia].
Qed.

(** MXCSR and the x87 control word are reloaded from the frame exactly
    when [preserve_fpu] is set. *)
Lemma restore_context_fpu (s e : state) :
  0 <= get RSI s -> get RSI s + 0x40 < 2 ^ 64 ->
  restore_context s = Done e ->
  mxcsr e =
    (if get RCX s =? 0 then mxcsr s else load32 (memory s) (get RSI s)) /\
  fpucw e =
    (if get RCX s =? 0 then fpucw s else load16 (memory s) (get RSI s + 4)).
Proof.
  destruct s as [rg ip z mx cw m]. run. rewrite wrap64_0. intros H1 H2.
  outcomes rg; intros H; try discriminate H; injection H as <-;
    cbn [mxcsr fpucw]; unwrap; split; first [reflexivity | f_equal; lia].
Qed.

(** *** [bthread_make_fcontext] *)

Lemma land_align16 (v : Z) :
  word v -> Z.land (wrap64 (-16)) v = v - v mod 16.
Proof.
  unfold word. intros Hv.
  change (wrap64 (-16)) with (Z.land (Z.lnot (2 ^ 4 - 1)) (Z.ones 64)).
  rewrite <- Z.land_assoc, (Z.land_comm (Z.ones 64) v), Z.land_ones by lia.
  rewrite (Z.mod_small v) by lia.
  rewrite Z.land_comm, land_lnot_pow2 by lia.
  reflexivity.
Qed.

Lemma aligned_top_bound (v : Z) : 0x50 <= v -> 0x50 <= v - v mod 16.
Proof.
  intros Hv. rewrite (Z.mod_eq v 16) by lia.
  replace (v - (v - 16 * (v / 16))) with (16 * (v / 16)) by lia.
  assert (5 <= v / 16) by (apply Z.div_le_lower_bound; lia). lia.
Qed.

(** The frame lies 0x48 bytes below the stack top rounded down to a
    multiple of 16. *)
Lemma make_fcontext_frame (finish : Z) (s : state) :
  word (get RDI s) -> 0x50 <= get RDI s ->
  get RAX (bthread_make_fcontext finish s) = get RDI s - get RDI s mod 16 - 0x48.
Proof.
  intros Hw Htop. pose proof (land_align16 _ Hw) as Hal.
  pose proof (Z.mod_pos_bound (get RDI s) 16 ltac:(lia)) as Hm.
  unfold word in Hw.
  destruct s as [rg ip z mx cw m]. run. rewrite Hal.
  pose proof (aligned_top_bound _ Htop) as Hge.
  unwrap. lia.
Qed.

(** What the frame holds afterwards, and where control goes. *)
Lemma make_fcontext_contents (finish : Z) (s : state) :
  word (get RDI s) -> 0x50 <= get RDI s ->
  word (get RDX s) -> word finish ->
  0 <= mxcsr s < 2 ^ 32 -> 0 <= fpucw s < 2 ^ 16 ->
  let s' := bthread_make_fcontext finish s in
  let frame := get RAX s' in
  load64 (memory s') (frame + 0x38) = get RDX s /\
  load64 (memory s') (frame + 0x40) = finish /\
  load32 (memory s') frame = mxcsr s /\
  load16 (memory s') (frame + 0x4) = fpucw s /\
  rip s' = load64 (memory s') (get RSP s) /\
  (forall x0, 0 <= x0 < 2 ^ 64 -> x0 < frame \/ frame + 0x48 <= x0 ->
     memory s' x0 = memory s x0).
Proof.
  intros Hw Htop Hfn Hfin Hmx Hcw.
  pose proof (make_fcontext_frame finish s Hw Htop) as Hframe.
  pose proof (land_align16 _ Hw) as Hal.
  pose proof (Z.mod_pos_bound (get RDI s) 16 ltac:(lia)) as Hm.
  pose proof (aligned_top_bound _ Htop) as Hge.
  unfold word in *. cbv zeta. rewrite Hframe.
  destruct s as [rg ip z mx cw m]. run. rewrite Hal in *. rewrite Hframe.
  unwrap. repeat split; try (loads; reflexivity).
  intros x0 Hx Hout. bytes. reflexivity.
Qed.

(** The registers of the caller other than [%rax], [%rcx] and [%rsp] are
    as before. *)
Lemma make_fcontext_regs (finish : Z) (s : state) (r : reg) :
  r <> RAX -> r <> RCX -> r <> RSP ->
  get r (bthread_make_fcontext finish s) = get r s.
Proof.
  intros H1 H2 H3. destruct s as [rg ip z mx cw m]. run.
  destruct r; try reflexivity; contradiction.
Qed.

(** *** Switching into a context *)

Lemma agree_trans (m1 m2 m3 : mem) (a n : Z) :
  agree m1 m2 a n -> agree m2 m3 a n -> agree m1 m3 a n.
Proof. intros H12 H23 x0 Hx. rewrite (H12 x0 Hx). apply H23, Hx. Qed.


(** What a switch leaves in memory, whichever way it ends, is what its
    first half wrote. *)
Lemma switch_memory (s : state) :
  memory (state_of (bthread_jump_fcontext s)) = memory (save_context s).
Proof. rewrite jump_split. apply restore_context_memory. Qed.

Lemma switch_memory_done (s e : state) :
  bthread_jump_fcontext s = Done e -> memory e = memory (save_context s).
Proof. intros H. rewrite <- switch_memory, H. reflexivity. Qed.


(** A switch runs to its end when [preserve_fpu] is clear, and when the
    first word of the frame at [nfc] is loadable into MXCSR. *)
Lemma switch_completes (ctx n : Z) (b : state) (m0 : mem) :
  can_suspend b -> frame_apart b ctx n -> 4 <= n -> get RSI b = ctx ->
  agree (memory b) m0 ctx n ->
  get RCX b = 0 \/ loadable (load32 m0 ctx) = true ->
  exists e, bthread_jump_fcontext b = Done e.
Proof.
  intros Hcs Hfa Hn Hrsi Hag Hok.
  pose proof (agree_trans _ _ _ _ _ (save_context_keeps b ctx n Hcs Hfa) Hag) as Hall.
  pose proof (save_context_regs b RSI ltac:(discriminate)) as Hsi.
  pose proof (save_context_regs b RCX ltac:(discriminate)) as Hcx.
  pose proof Hfa as (Hc0 & Hc1 & _).
  rewrite jump_split. apply restore_context_completes.
  - rewrite Hsi, Hrsi. lia.
  - rewrite Hsi, Hcx, Hrsi. unfold load32 in *.
    rewrite (load_bytes_agree 4 _ _ ctx n ctx Hall) by lia. exact Hok.
Qed.


(** A completed switch into a frame that reads as in [m0]: control is at
    the address in the frame's resume slot, and the stack pointer right
    above that slot. *)
Lemma enter_frame (ctx : Z) (b e : state) (m0 : mem) :
  can_suspend b -> frame_apart b ctx 0x48 -> get RSI b = ctx ->
  agree (memory b) m0 ctx 0x48 ->
  bthread_jump_fcontext b = Done e ->
  rip e = load64 m0 (ctx + 0x38) /\
  get RSP e = ctx + 0x40 /\
  load64 (memory e) (ctx + 0x40) = load64 m0 (ctx + 0x40).
Proof.
  intros Hcs Hfa Hrsi Hag He.
  pose proof (agree_trans _ _ _ _ _ (save_context_keeps b ctx 0x48 Hcs Hfa) Hag) as Hall.
  pose proof (save_context_regs b RSI ltac:(discriminate)) as Hsi.
  pose proof (switch_memory_done b e He) as Hmem.
  rewrite jump_split in He.
  destruct Hfa as (Hc0 & Hc1 & _).
  destruct (restore_context_frame (save_context b) e)
    as (_ & _ & _ & _ & _ & _ & Hrip & Hsp);
    [rewrite Hsi, Hrsi; lia | rewrite Hsi, Hrsi; lia | exact He |].
  rewrite Hrip, Hsp, Hmem, Hsi, Hrsi. unfold load64 in *.
  rewrite (load_bytes_agree 8 _ _ ctx 0x48 (ctx + 0x38) Hall) by lia.
  rewrite (load_bytes_agree 8 _ _ ctx 0x48 (ctx + 0x40) Hall) by lia.
  repeat split; reflexivity.
Qed.

(** A switch into a frame that [bthread_make_fcontext] built and nothing
    has overwritten since runs to its end: control is at the entry
    function, the stack pointer right above the frame's resume slot, and
    the word it points at, where the entry function will look for its
    return address, is the address of [finish]. *)
Lemma enter_made_context (finish : Z) (s0 b : state) :
  well_formed s0 -> mxcsr_ok s0 -> word finish -> 0x50 <= get RDI s0 ->
  let made := bthread_make_fcontext finish s0 in
  let ctx := get RAX made in
  can_suspend b -> frame_apart b ctx 0x48 -> get RSI b = ctx ->
  agree (memory b) (memory made) ctx 0x48 ->
  exists e, bthread_jump_fcontext b = Done e /\
    rip e = get RDX s0 /\
    get RSP e = ctx + 0x40 /\
    load64 (memory e) (get RSP e) = finish.
Proof.
  intros (Hr & _ & Hmx & Hcw) Hok Hfin Htop. cbv zeta.
  pose proof (make_fcontext_contents finish s0 (Hr RDI) Htop (Hr RDX) Hfin Hmx Hcw)
    as Hmade.
  cbv zeta in Hmade. destruct Hmade as (Hentry & Hret & Lmx & _).
  intros Hcs Hfa Hrsi Hag.
  destruct (switch_completes _ 0x48 b _ Hcs Hfa ltac:(lia) Hrsi Hag) as (e & He).
  { right. rewrite Lmx. exact Hok. }
  exists e. split; [exact He |].
  destruct (enter_frame _ b e _ Hcs Hfa Hrsi Hag He) as (Hrip & Hsp & Hslot).
  rewrite Hsp, Hrip, Hslot, Hentry, Hret. repeat split; reflexivity.
Qed.



(** *** The block at [finish] *)

Lemma finish_block_exits (s : state) : finish_block s = Exited 0.
Proof.
  unfold finish_block, call_exit, xorq, get, set, set_zf. cbn [regs reg_eqb].
  rewrite Z.lxor_nilpotent. reflexivity.
Qed.

End X86Facts.

Module X86Theorems.
Import X86_64 MachineIntFacts MemoryFacts X86Facts.



(** C2: a switch into a context built by [bthread_make_fcontext], by a
    caller whose MXCSR is one the register can hold, runs to its end at the
    entry function; when the entry function executes [ret] with the stack
    pointer and the return address it was entered with, control is at
    [finish]; the block there calls [_exit] with status 0, which ends the
    process: no state of the caller's code, nor any other running state,
    comes out of it. *)
Theorem entry_return_exits (finish : Z) (s0 b r : state) :
  well_formed s0 -> mxcsr_ok s0 -> word finish -> 0x50 <= get RDI s0 ->
  let made := bthread_make_fcontext finish s0 in
  let ctx := get RAX made in
  can_suspend b -> frame_apart b ctx 0x48 -> get RSI b = ctx ->
  agree (memory b) (memory made) ctx 0x48 ->
  exists e, bthread_jump_fcontext b = Done e /\
    (get RSP r = get RSP e ->
     load64 (memory r) (get RSP r) = load64 (memory e) (get RSP e) ->
     rip e = get RDX s0 /\
     rip (ret r) = finish /\
     continue finish (ret r) = Exited 0 /\
     (forall s, finish_block s = Exited 0)).
Proof.
  intros Hwf Hok Hfin Htop made ctx Hcs Hfa Hrsi Hag.
  destruct (enter_made_context finish s0 b Hwf Hok Hfin Htop Hcs Hfa Hrsi Hag)
    as (e & He & Hrip & _ & Hret).
  exists e. split; [exact He |]. intros Hsp Hslot.
  assert (Hgo : rip (ret r) = finish).
  { unfold ret, set_rip, set. cbn [rip]. rewrite Hslot. exact Hret. }
  split; [exact Hrip |]. split; [exact Hgo |]. split.
  - unfold continue. rewrite Hgo, Z.eqb_refl. apply finish_block_exits.
  - exact finish_block_exits.
Qed.

(** C9 does not hold as stated: for the stack top [0x20000] the frame
    [bthread_make_fcontext] returns is at [0x1ffb8], which is not a
    multiple of 16. *)
Lemma made_frame_is_not_16_byte_aligned :
  get RAX (bthread_make_fcontext finish_at make_call) = 0x1ffb8 /\
  get RAX (bthread_make_fcontext finish_at make_call) mod 16 <> 0.
Proof. split; [vm_compute; reflexivity | vm_compute; discriminate]. Qed.

(** C9, amended: [bthread_make_fcontext] only sets up memory.  The frame
    lies 0x48 bytes below the stack top rounded down to a multiple of 16,
    so it ends on a 16-byte boundary at most 15 bytes below the stack top
    and starts 8 bytes past one; its slot at 0x38 holds the address of the
    entry function, its slot at 0x40 the address of [finish]; the pointer
    to it is returned in [%rax]; no byte outside the frame changes, the
    size argument in [%rsi] plays no part, and control goes back to the
    return address of the caller. *)
Theorem make_fcontext_sets_up_frame (finish : Z) (s : state) :
  well_formed s -> word finish -> 0x50 <= get RDI s ->
  let s' := bthread_make_fcontext finish s in
  let frame := get RAX s' in
  let top := get RDI s in
  frame = top - top mod 16 - 0x48 /\
  (frame + 0x48) mod 16 = 0 /\
  frame mod 16 = 8 /\
  top - 15 <= frame + 0x48 <= top /\
  load64 (memory s') (frame + 0x38) = get RDX s /\
  load64 (memory s') (frame + 0x40) = finish /\
  (forall x0, 0 <= x0 < 2 ^ 64 -> x0 < frame \/ frame + 0x48 <= x0 ->
     memory s' x0 = memory s x0) /\
  (forall size, get RAX (bthread_make_fcontext finish (set RSI size s)) = frame) /\
  rip s' = load64 (memory s') (get RSP s) /\
  (in_range (get RSP s) 8 -> disjoint (get RSP s) 8 frame 0x48 ->
   rip s' = load64 (memory s) (get RSP s)).
Proof.
  intros Hwf Hfin Htop s' frame top.
  pose proof Hwf as (Hr & _ & Hmx & Hcw).
  pose proof (make_fcontext_frame finish s (Hr RDI) Htop) as Hframe.
  destruct (make_fcontext_contents finish s (Hr RDI) Htop (Hr RDX) Hfin Hmx Hcw)
    as (Hentry & Hret & _ & _ & Hrip & Hout).
  pose proof (Z.mod_pos_bound (get RDI s) 16 ltac:(lia)) as Hm.
  assert (Hal : get RDI s - get RDI s mod 16 = (get RDI s / 16) * 16).
  { rewrite (Z.mod_eq (get RDI s) 16) by lia. lia. }
  split; [exact Hframe |].
  split.
  { subst frame s' top. rewrite Hframe.
    replace (get RDI s - get RDI s mod 16 - 0x48 + 0x48)
      with (get RDI s - get RDI s mod 16) by lia.
    rewrite Hal. apply Z.mod_mul. lia. }
  split.
  { subst frame s' top. rewrite Hframe.
    replace (get RDI s - get RDI s mod 16 - 0x48)
      with (8 + (get RDI s / 16 - 5) * 16) by lia.
    rewrite Z.mod_add by lia. reflexivity. }
  split.
  { subst frame s' top. rewrite Hframe. lia. }
  split; [exact Hentry |]. split; [exact Hret |]. split; [exact Hout |].
  split.
  { intros size. subst frame s' top. rewrite Hframe.
    rewrite (make_fcontext_frame finish (set RSI size s) (Hr RDI) Htop).
    reflexivity. }
  split; [exact Hrip |].
  intros Hin Hdis. subst frame s'. rewrite Hrip. unfold load64.
  apply load_bytes_ext. intros j Hj.
  unfold in_range, disjoint in *.
  rewrite wrap64_small by lia. apply Hout; lia.
Qed.

End X86Theorems.

(** ** linux arm64 *)

Module Arm64Facts.
Import Arm64 MachineIntFacts MemoryFacts.

Ltac run :=
  cbv beta iota zeta delta
    [bthread_jump_fcontext seq sub_sp add_sp stp_d ldp_d stp_x ldp_x
     str_sp ldr_sp str_x mov_from_sp mov_to_sp mov ret
     set_x set_d set_sp set_pc set_mem x d sp pc memory Nat.eqb] in *.

Ltac unwrap :=
  repeat match goal with
  | |- context [wrap64 ?z] =>
      lazymatch z with context [wrap64 _] => fail | _ => idtac end;
      rewrite (wrap64_small z) by lia
  end.

Ltac mem_side := unfold in_range, disjoint in *; lia.

Ltac loads :=
  unfold load64, store64 in *;
  repeat match goal with
  | |- context [load_bytes ?k (store_bytes ?n ?a ?v ?m) ?b] =>
      first [ rewrite (load_store_disjoint k n a b v m) by mem_side
            | rewrite (load_store_same_at n a b v m) by (cbn; lia) ]
  end.

Lemma d_slot_cases (n : nat) :
  (8 <= n <= 15)%nat ->
  n = 8%nat \/ n = 9%nat \/ n = 10%nat \/ n = 11%nat \/
  n = 12%nat \/ n = 13%nat \/ n = 14%nat \/ n = 15%nat.
Proof. lia. Qed.

(** Each of [d8 .. d15] is stored in its slot of the frame on the old
    stack: no test of [w3] stands before the stores. *)
Lemma jump_saves_d (s : state) (n : nat) :
  can_suspend s -> (8 <= n <= 15)%nat -> 0 <= d s n < 2 ^ 64 ->
  load64 (memory (bthread_jump_fcontext s)) (sp s - 0xb0 + d_slot n) = d s n.
Proof.
  unfold can_suspend, in_range, disjoint.
  intros (H1 & H2 & H3 & H4) Hn Hd.
  destruct s as [xr dr stk ip m]. run.
  destruct (d_slot_cases n Hn) as [E | [E | [E | [E | [E | [E | [E | E]]]]]]];
    subst n; unfold d_slot; cbn [Z.of_nat Pos.of_succ_nat Pos.succ Z.sub Z.add Z.opp
                                 Z.pos_sub Z.mul Pos.mul Pos.add Z.succ_double Z.pred_double
                                 Z.double Pos.pred_double] in *;
    unwrap; loads; reflexivity.
Qed.

(** Each of [d8 .. d15] is loaded from its slot of the frame at [nfc]. *)
Lemma jump_restores_d (s : state) (n : nat) :
  0 <= x s 1 -> x s 1 + 0xb0 < 2 ^ 64 -> (8 <= n <= 15)%nat ->
  d (bthread_jump_fcontext s) n =
  load64 (memory (bthread_jump_fcontext s)) (x s 1 + d_slot n).
Proof.
  intros H1 H2 Hn.
  destruct s as [xr dr stk ip m]. run.
  destruct (d_slot_cases n Hn) as [E | [E | [E | [E | [E | [E | [E | E]]]]]]];
    subst n; unfold d_slot; cbn [Z.of_nat Pos.of_succ_nat Pos.succ Z.sub Z.add Z.opp
                                 Z.pos_sub Z.mul Pos.mul Pos.add Z.succ_double Z.pred_double
                                 Z.double Pos.pred_double Nat.eqb] in *;
    unwrap; f_equal; lia.
Qed.


End Arm64Facts.

(** ** Floating-point state across a switch, on both targets *)

Module FpuTheorems.
Import MachineIntFacts MemoryFacts.



End FpuTheorems.

(** ** The theorems at concrete states *)

Module ContextExamples.
Import X86_64 MachineIntFacts MemoryFacts X86Facts.

Ltac numbers :=
  cbv [can_suspend frame_apart in_range disjoint word get regs rip mxcsr fpucw
       make_call jump_call switch_back entry_returns stale_jump_call
       stale_switch_back regs_of finish_at entry_at];
  try lia.

Example made_ctx_value : made_ctx = 0x1ffb8.
Proof. vm_compute. reflexivity. Qed.

Example made_frame_value :
  get RAX (bthread_make_fcontext finish_at make_call) = 0x1ffb8.
Proof. vm_compute. reflexivity. Qed.


Example first_switch_run :
  rip (state_of (bthread_jump_fcontext (jump_call 1))) = entry_at /\
  get RDI (state_of (bthread_jump_fcontext (jump_call 1))) = 42 /\
  get RSP (state_of (bthread_jump_fcontext (jump_call 1))) = 0x1ffb8 + 0x40.
Proof. repeat split; vm_compute; reflexivity. Qed.

Example switch_back_run :
  rip (state_of (bthread_jump_fcontext switch_back)) = 0x400200 /\
  get RAX (state_of (bthread_jump_fcontext switch_back)) = 7 /\
  get RSP (state_of (bthread_jump_fcontext switch_back)) = 0x6f08 /\
  get R12 (state_of (bthread_jump_fcontext switch_back)) = 0x12.
Proof. repeat split; vm_compute; reflexivity. Qed.


Lemma word_value (v : Z) : (0 <=? v) && (v <? 2 ^ 64) = true -> word v.
Proof.
  intros H. apply andb_prop in H. destruct H as [H1 H2].
  apply Z.leb_le in H1. apply Z.ltb_lt in H2. split; assumption.
Qed.

Lemma make_call_well_formed : well_formed make_call.
Proof.
  split; [intros r; apply word_value; destruct r; vm_compute; reflexivity |].
  split; [apply word_value; vm_compute; reflexivity |].
  numbers.
Qed.

Lemma make_call_mxcsr_ok : mxcsr_ok make_call.
Proof. vm_compute. reflexivity. Qed.


Lemma finish_at_word : word finish_at.
Proof. numbers. Qed.

Lemma make_call_top : 0x50 <= get RDI make_call.
Proof. numbers. Qed.

Lemma jump_call_can_suspend : can_suspend (jump_call 1).
Proof. numbers. Qed.

Lemma jump_call_frame_apart :
  frame_apart (jump_call 1) (get RAX (bthread_make_fcontext finish_at make_call)) 0x48.
Proof. rewrite made_frame_value. numbers. Qed.

Lemma jump_call_target :
  get RSI (jump_call 1) = get RAX (bthread_make_fcontext finish_at make_call).
Proof. lazy. reflexivity. Qed.

Lemma jump_call_frame_intact :
  agree (memory (jump_call 1)) (memory (bthread_make_fcontext finish_at make_call))
        (get RAX (bthread_make_fcontext finish_at make_call)) 0x48.
Proof.
  rewrite made_frame_value. intros x0 Hx.
  change (memory (jump_call 1))
    with (store_bytes 8 0x6f00 0x400200
            (memory (bthread_make_fcontext finish_at make_call))).
  apply store_bytes_outside; unfold in_range; lia.
Qed.






Lemma entry_returns_sp :
  get RSP entry_returns = get RSP (state_of (bthread_jump_fcontext (jump_call 1))).
Proof. lazy. reflexivity. Qed.

Lemma entry_returns_slot :
  load64 (memory entry_returns) (get RSP entry_returns) =
  load64 (memory (state_of (bthread_jump_fcontext (jump_call 1))))
         (get RSP (state_of (bthread_jump_fcontext (jump_call 1)))).
Proof. lazy. reflexivity. Qed.


Lemma jump_call_preserves : get RCX (jump_call 1) <> 0.
Proof. lazy. discriminate. Qed.
















Lemma entry_return_exits_witness :
  (well_formed make_call /\ mxcsr_ok make_call /\ word finish_at /\
   0x50 <= get RDI make_call /\
   can_suspend (jump_call 1) /\
   frame_apart (jump_call 1)
     (get RAX (bthread_make_fcontext finish_at make_call)) 0x48 /\
   get RSI (jump_call 1) = get RAX (bthread_make_fcontext finish_at make_call) /\
   agree (memory (jump_call 1)) (memory (bthread_make_fcontext finish_at make_call))
     (get RAX (bthread_make_fcontext finish_at make_call)) 0x48) /\
  exists e, bthread_jump_fcontext (jump_call 1) = Done e /\
    (get RSP entry_returns = get RSP e /\
     load64 (memory entry_returns) (get RSP entry_returns) =
       load64 (memory e) (get RSP e)) /\
    rip (ret entry_returns) = finish_at /\
    continue finish_at (ret entry_returns) = Exited 0.
Proof.
  split.
  { exact (conj make_call_well_formed (conj make_call_mxcsr_ok
             (conj finish_at_word (conj make_call_top
                (conj jump_call_can_suspend (conj jump_call_frame_apart
                   (conj jump_call_target jump_call_frame_intact))))))). }
  destruct (X86Theorems.entry_return_exits finish_at make_call (jump_call 1)
              entry_returns
              make_call_well_formed make_call_mxcsr_ok finish_at_word make_call_top
              jump_call_can_suspend jump_call_frame_apart jump_call_target
              jump_call_frame_intact)
    as (e & He & Hexits).
  pose proof entry_returns_sp as Hsp.
  pose proof entry_returns_slot as Hslot.
  rewrite (done_state _ e He) in Hsp, Hslot.
  destruct (Hexits Hsp Hslot) as (_ & Hgo & Hexit & _).
  exists e. exact (conj He (conj (conj Hsp Hslot) (conj Hgo Hexit))).
Defined.

Lemma make_fcontext_sets_up_frame_witness :
  (well_formed make_call /\ word finish_at /\ 0x50 <= get RDI make_call) /\
  get RAX (bthread_make_fcontext finish_at make_call) mod 16 = 8 /\
  load64 (memory (bthread_make_fcontext finish_at make_call))
         (get RAX (bthread_make_fcontext finish_at make_call) + 0x38) =
  get RDX make_call.
Proof.
  split.
  { exact (conj make_call_well_formed (conj finish_at_word make_call_top)). }
  destruct (X86Theorems.make_fcontext_sets_up_frame finish_at make_call
              make_call_well_formed finish_at_word make_call_top)
    as (_ & _ & Hmod & _ & Hentry & _).
  split; [exact Hmod | exact Hentry].
Defined.


End ContextExamples.

(** ** Further properties of the stack storage allocator *)

Module StackExtras.
Import Stack MachineIntFacts StackFacts.

Lemma page_divides_2_64 (p : Z) : page_ok p -> exists q, 2 ^ 64 = q * p.
Proof.
  intros [Hk Hp]. exists (2 ^ (64 - Z.log2 p)).
  rewrite Hp at 2. rewrite <- Z.pow_add_r by lia. f_equal. lia.
Qed.

Lemma PAGESIZE_M1_value (os : OS) :
  page_ok (getpagesize os) -> PAGESIZE_M1 os = getpagesize os - 1.
Proof.
  intros Hp. pose proof (page_ok_bounds _ Hp). unfold PAGESIZE_M1.
  apply wrap32_small. unfold is_int, INT_MIN, INT_MAX. lia.
Qed.

(** The address [allocate_stack_storage] protects from: the address of
    the mapping rounded up to a multiple of the page size. *)
Lemma aligned_address_value (os : OS) (mem : Z) :
  page_ok (getpagesize os) ->
  0 <= mem -> mem + getpagesize os - 1 < 2 ^ 64 ->
  let z := mem + (getpagesize os - 1) in
  aligned_address os mem = z - z mod getpagesize os.
Proof.
  intros Hp Hlo Hhi z.
  pose proof (page_ok_bounds _ Hp) as Hb.
  destruct (page_divides_2_64 _ Hp) as [q Hq].
  unfold aligned_address. rewrite (PAGESIZE_M1_value os Hp).
  rewrite land_lnot_page by assumption. fold z.
  pose proof (Z.mod_pos_bound z (getpagesize os) ltac:(lia)) as Hm.
  destruct (Z_lt_ge_dec z (2 ^ 63)) as [Hsmall | Hbig].
  - rewrite (wrap64s_small z) by (unfold INT64_MIN, INT64_MAX; subst z; lia).
    apply wrap64_small. subst z. lia.
  - assert (Hw : wrap64s z = z - 2 ^ 64).
    { unfold wrap64s.
      replace (z + 2 ^ 63) with ((z - 2 ^ 63) + 1 * 2 ^ 64) by lia.
      rewrite Z.mod_add by lia. rewrite Z.mod_small by (subst z; lia). lia. }
    rewrite Hw.
    replace ((z - 2 ^ 64) mod getpagesize os) with (z mod getpagesize os).
    2:{ replace (z - 2 ^ 64) with (z + (- q) * getpagesize os) by lia.
        rewrite Z.mod_add by lia. reflexivity. }
    rewrite wrap64_negative by (subst z; lia). lia.
Qed.

Lemma alignment_offset_value (os : OS) (mem : Z) :
  page_ok (getpagesize os) ->
  0 <= mem -> mem + getpagesize os - 1 < 2 ^ 64 ->
  alignment_offset os mem = aligned_address os mem - mem /\
  0 <= alignment_offset os mem < getpagesize os /\
  aligned_address os mem mod getpagesize os = 0 /\
  (mem mod getpagesize os = 0 -> aligned_address os mem = mem).
Proof.
  intros Hp Hlo Hhi.
  pose proof (page_ok_bounds _ Hp) as Hb.
  pose proof (aligned_address_value os mem Hp Hlo Hhi) as Ha. cbv zeta in Ha.
  set (P := getpagesize os) in *.
  pose proof (Z.mod_pos_bound (mem + (P - 1)) P ltac:(lia)) as Hm.
  assert (Hrange : 0 <= aligned_address os mem - mem < P) by lia.
  assert (Hoff : alignment_offset os mem = aligned_address os mem - mem).
  { unfold alignment_offset. apply wrap32_small.
    unfold is_int, INT_MIN, INT_MAX. lia. }
  split; [exact Hoff |]. split; [lia |]. split.
  - rewrite Ha. apply round_down_multiple. lia.
  - intros Hal. rewrite Ha.
    replace (mem + (P - 1)) with ((P - 1) + mem) by lia.
    rewrite Z.add_mod, Hal, Z.add_0_r, Z.mod_mod by lia.
    rewrite (Z.mod_small (P - 1) P) by lia. lia.
Qed.

(** The Valgrind call a successful allocation ends with, if any. *)
Lemma registration_tail (os : OS) (st : Z) (s : StackStorage) (w : World) :
  let r := register_valgrind os st s w in
  bottom (fst r) = bottom s /\ stacksize (fst r) = stacksize s /\
  guardsize (fst r) = guardsize s /\
  s_stack_count (snd r) = s_stack_count w /\
  valgrind_stack_id (fst r) =
    (if RunningOnValgrind os
     then VALGRIND_STACK_REGISTER os (bottom s) (wrap64 (bottom s - st)) else 0) /\
  trace (snd r) =
    trace w ++
    (if RunningOnValgrind os
     then [EvValgrindRegister (bottom s) (wrap64 (bottom s - st))
             (VALGRIND_STACK_REGISTER os (bottom s) (wrap64 (bottom s - st)))]
     else []).
Proof.
  unfold register_valgrind. destruct (RunningOnValgrind os); cbn.
  - repeat split; reflexivity.
  - rewrite app_nil_r. repeat split; reflexivity.
Qed.

(** A successful guarded allocation on a sane host, spelled out. *)
Lemma guarded_success_shape (os : OS) (s : StackStorage) (S G : Z) (w : World) :
  os_sane os -> is_int S -> is_int G -> 0 < G ->
  fst (fst (allocate_stack_storage os s S G w)) = 0 ->
  let P := getpagesize os in
  let st := rounded_stacksize os S in
  let gd := rounded_guardsize os G in
  let mem := mmap os (wrap64 (total_memsize os S G)) in
  let a := aligned_address os mem in
  let s' := snd (fst (allocate_stack_storage os s S G w)) in
  let w' := snd (allocate_stack_storage os s S G w) in
  (Z.max S (P * 2) <= st <= INT_MAX /\ st < Z.max S (P * 2) + P /\ st mod P = 0) /\
  (Z.max G P <= gd <= INT_MAX /\ gd < Z.max G P + P /\ gd mod P = 0) /\
  st + gd <= INT_MAX /\
  0 < mem /\ mem + (st + gd) < 2 ^ 64 /\
  bottom s' = mem + (st + gd) /\ stacksize s' = st /\ guardsize s' = gd /\
  valgrind_stack_id s' =
    (if RunningOnValgrind os
     then VALGRIND_STACK_REGISTER os (mem + (st + gd)) (mem + gd) else 0) /\
  mem <= a < mem + P /\ a mod P = 0 /\ (mem mod P = 0 -> a = mem) /\
  new_events w w' =
    [EvMmap (st + gd) mem; EvMprotect a (mem + gd - a) 0] ++
    (if RunningOnValgrind os
     then [EvValgrindRegister (mem + (st + gd)) (mem + gd)
             (VALGRIND_STACK_REGISTER os (mem + (st + gd)) (mem + gd))]
     else []).
Proof.
  intros Hos HS HG Hpos. cbv zeta.
  pose proof (sane_pagesize os Hos) as Hp.
  pose proof (page_ok_bounds _ Hp) as Hb.
  rewrite allocate_stack_storage_eq. cbv zeta.
  destruct (Z.leb_spec G 0) as [Hpath | Hpath]; [lia |].
  destruct (Z.eqb_spec (mmap os (wrap64 (total_memsize os S G))) MAP_FAILED)
    as [Hmem | Hmem]; [intros Hrc; discriminate Hrc |].
  destruct (granted_memsize os S G Hp HS HG)
    as (Hst & Hgd & Hsum & Hfit);
    [ intros Hz; apply Hmem, (sane_mmap_length os Hos); left; exact Hz
    | intros Hbig; apply Hmem, (sane_mmap_length os Hos); right; exact Hbig
    | ].
  destruct (sane_mmap_fits os Hos _ Hmem) as [Hmpos Hend].
  unfold INT_MAX in *.
  assert (Hw : wrap64 (total_memsize os S G) = total_memsize os S G)
    by (apply wrap64_small; lia).
  set (mem := mmap os (wrap64 (total_memsize os S G))) in *.
  destruct (alignment_offset_value os mem Hp) as (Hoff & Hoffr & Hamod & Hal);
    [lia | lia |].
  destruct (Z.leb_spec (rounded_guardsize os G) (alignment_offset os mem))
    as [Hres | Hres]; [lia |].
  assert (Hlen : wrap64 (wrap32 (rounded_guardsize os G - alignment_offset os mem))
                 = mem + rounded_guardsize os G - aligned_address os mem).
  { rewrite wrap32_small by (unfold is_int, INT_MIN, INT_MAX; lia).
    rewrite wrap64_small by lia. lia. }
  rewrite Hlen.
  destruct (Z.eqb_spec
              (mprotect os (aligned_address os mem)
                 (mem + rounded_guardsize os G - aligned_address os mem)) 0)
    as [Hprot | Hprot]; cbn [negb]; [| intros Hrc; discriminate Hrc].
  intros _.
  match goal with
  | |- context [register_valgrind ?o ?z ?s0 ?w0] =>
      pose proof (registration_tail o z s0 w0) as Ht
  end.
  cbv zeta in Ht.
  destruct (register_valgrind _ _ _ _) as [s2 w2]. cbn [fst snd] in *.
  destruct Ht as (Tb & Ts & Tg & _ & Tid & Ttr).
  cbn [bottom stacksize guardsize set_guardsize set_stacksize set_bottom] in *.
  unfold emit, fetch_add in Ttr. cbn [trace] in Ttr.
  rewrite <- !app_assoc in Ttr. cbn [app] in Ttr.
  assert (Hbot : wrap64 (mem + total_memsize os S G)
                 = mem + (rounded_stacksize os S + rounded_guardsize os G))
    by (rewrite Hsum; apply wrap64_small; lia).
  rewrite Hbot in *.
  assert (Hlo : wrap64 (mem + (rounded_stacksize os S + rounded_guardsize os G)
                        - rounded_stacksize os S) = mem + rounded_guardsize os G)
    by (rewrite wrap64_small by lia; lia).
  rewrite Hlo in *. rewrite Hw, Hprot, Hsum in Ttr.
  rewrite (new_events_app w w2 _ Ttr).
  repeat split; try assumption; try lia.
Qed.

(** A successful unguarded allocation on a sane host, spelled out. *)
Lemma unguarded_success_shape (os : OS) (s : StackStorage) (S G : Z) (w : World) :
  os_sane os -> is_int S -> G <= 0 ->
  fst (fst (allocate_stack_storage os s S G w)) = 0 ->
  let P := getpagesize os in
  let st := rounded_stacksize os S in
  let mem := malloc os (wrap64 st) in
  let s' := snd (fst (allocate_stack_storage os s S G w)) in
  let w' := snd (allocate_stack_storage os s S G w) in
  (Z.max S (P * 2) <= st <= INT_MAX /\ st < Z.max S (P * 2) + P /\ st mod P = 0) /\
  0 < mem /\ mem + st < 2 ^ 64 /\
  bottom s' = mem + st /\ stacksize s' = st /\ guardsize s' = 0 /\
  valgrind_stack_id s' =
    (if RunningOnValgrind os
     then VALGRIND_STACK_REGISTER os (mem + st) mem else 0) /\
  new_events w w' =
    [EvMalloc st mem] ++
    (if RunningOnValgrind os
     then [EvValgrindRegister (mem + st) mem
             (VALGRIND_STACK_REGISTER os (mem + st) mem)]
     else []).
Proof.
  intros Hos HS Hneg. cbv zeta.
  pose proof (sane_pagesize os Hos) as Hp.
  pose proof (page_ok_bounds _ Hp) as Hb.
  rewrite allocate_stack_storage_eq. cbv zeta.
  destruct (Z.leb_spec G 0) as [Hpath | Hpath]; [| lia].
  destruct (Z.eqb_spec (malloc os (wrap64 (rounded_stacksize os S))) NULL)
    as [Hmem | Hmem]; [intros Hrc; discriminate Hrc |].
  intros _.
  destruct (granted_stacksize os S Hp HS) as (Hr & Hlt & Hmod);
    [ intros Hbig; apply Hmem, (sane_malloc_huge os Hos), Hbig | ].
  destruct (sane_malloc_fits os Hos _ Hmem) as [Hmpos Hend].
  unfold INT_MAX in *.
  assert (Hw : wrap64 (rounded_stacksize os S) = rounded_stacksize os S)
    by (apply wrap64_small; lia).
  match goal with
  | |- context [register_valgrind ?o ?z ?s0 ?w0] =>
      pose proof (registration_tail o z s0 w0) as Ht
  end.
  cbv zeta in Ht.
  destruct (register_valgrind _ _ _ _) as [s2 w2]. cbn [fst snd] in *.
  destruct Ht as (Tb & Ts & Tg & _ & Tid & Ttr).
  cbn [bottom stacksize guardsize set_guardsize set_stacksize set_bottom] in *.
  unfold emit, fetch_add in Ttr. cbn [trace] in Ttr.
  rewrite <- !app_assoc in Ttr. cbn [app] in Ttr.
  set (mem := malloc os (wrap64 (rounded_stacksize os S))) in *.
  assert (Hbot : wrap64 (mem + rounded_stacksize os S) = mem + rounded_stacksize os S)
    by (apply wrap64_small; lia).
  rewrite Hbot in *.
  assert (Hlo : wrap64 (mem + rounded_stacksize os S - rounded_stacksize os S) = mem)
    by (rewrite wrap64_small by lia; lia).
  rewrite Hlo in *. rewrite Hw in Ttr.
  rewrite (new_events_app w w2 _ Ttr).
  repeat split; try assumption; try lia.
Qed.

Lemma allocate_result_cases (os : OS) (s : StackStorage) (S G : Z) (w : World) :
  fst (fst (allocate_stack_storage os s S G w)) = -1 \/
  fst (fst (allocate_stack_storage os s S G w)) = 0.
Proof. allocate_paths os S G; auto. Qed.

(** Two multiples of [p] less than [p] apart are equal. *)
Lemma multiples_close (p a b : Z) :
  0 < p -> a mod p = 0 -> b mod p = 0 -> a <= b < a + p -> a = b.
Proof.
  intros Hp Ha Hb Hab.
  apply Z.mod_divide in Ha; [| lia]. apply Z.mod_divide in Hb; [| lia].
  destruct Ha as [m Hm]. destruct Hb as [n Hn]. subst a b.
  assert (m <= n) by nia. assert (n < m + 1) by nia.
  assert (m = n) by lia. subst n. reflexivity.
Qed.

(** A multiple of the page size that fits an [int] leaves room for a
    page below [2 ^ 31]. *)
Lemma page_multiple_below (p v : Z) :
  page_ok p -> v mod p = 0 -> v <= INT_MAX -> v <= 2 ^ 31 - p.
Proof.
  intros Hp Hv Hmax. pose proof (page_ok_bounds _ Hp) as Hb.
  destruct (page_divides_2_31 _ Hp) as [q Hq].
  apply Z.mod_divide in Hv; [| lia]. destruct Hv as [m Hm]. subst v.
  unfold INT_MAX in Hmax.
  assert (m < q) by nia. assert (m * p <= (q - 1) * p) by nia. lia.
Qed.

(** X1: the guard size a successful guarded allocation records is a
    multiple of the page size, at least one page and at least the size
    asked for, and less than a page above the larger of the two. *)
Theorem guard_size_of_guarded_stack
    (os : OS) (s : StackStorage) (S G : Z) (w : World) :
  os_sane os -> is_int S -> is_int G -> 0 < G ->
  fst (fst (allocate_stack_storage os s S G w)) = 0 ->
  let s' := snd (fst (allocate_stack_storage os s S G w)) in
  let P := getpagesize os in
  guardsize s' mod P = 0 /\
  P <= guardsize s' /\
  G <= guardsize s' /\
  guardsize s' < Z.max G P + P.
Proof.
  intros Hos HS HG Hpos Hrc s' P.
  destruct (guarded_success_shape os s S G w Hos HS HG Hpos Hrc)
    as (_ & (Hr & Hlt & Hmod) & _ & _ & _ & _ & _ & Hgd & _).
  subst s' P. rewrite Hgd. repeat split; try assumption; lia.
Qed.

(** X2: after a successful guarded allocation the protected range starts
    at the first page boundary at or above the start of the mapping and
    ends exactly where the usable region [bottom - stacksize, bottom)
    starts; when the mapping is page-aligned the range is the lowest
    [guardsize] bytes of the mapping. *)
Theorem guard_lies_below_usable_region
    (os : OS) (s : StackStorage) (S G : Z) (w : World) :
  os_sane os -> is_int S -> is_int G -> 0 < G ->
  fst (fst (allocate_stack_storage os s S G w)) = 0 ->
  let s' := snd (fst (allocate_stack_storage os s S G w)) in
  let w' := snd (allocate_stack_storage os s S G w) in
  let mem := mmap os (wrap64 (total_memsize os S G)) in
  let P := getpagesize os in
  exists a len,
    filter is_mprotect (new_events w w') = [EvMprotect a len 0] /\
    mem <= a < mem + P /\ a mod P = 0 /\ 0 < len /\
    a + len = bottom s' - stacksize s' /\
    bottom s' - stacksize s' - guardsize s' = mem /\
    (mem mod P = 0 -> a = mem /\ len = guardsize s').
Proof.
  intros Hos HS HG Hpos Hrc s' w' mem P.
  pose proof (page_ok_bounds _ (sane_pagesize os Hos)) as Hb.
  destruct (guarded_success_shape os s S G w Hos HS HG Hpos Hrc)
    as (_ & (Hr & _) & _ & _ & _ & Hbot & Hst & Hgd & _ & Ha & Hamod & Hal & Hev).
  subst s' w' mem P.
  exists (aligned_address os (mmap os (wrap64 (total_memsize os S G)))).
  eexists. rewrite Hev, Hbot, Hst, Hgd.
  split.
  { destruct (RunningOnValgrind os); reflexivity. }
  repeat split; try assumption; try lia.
Qed.

(** X3: on a sane host the guard residual is always positive: the
    offset of the first page boundary is below one page and the guard is
    at least one page, so a guarded allocation fails only because [mmap]
    or [mprotect] fails. *)
Theorem guard_residual_is_positive
    (os : OS) (s : StackStorage) (S G : Z) (w : World) :
  os_sane os -> is_int S -> is_int G -> 0 < G ->
  let mem := mmap os (wrap64 (total_memsize os S G)) in
  let gd := rounded_guardsize os G in
  let offset := alignment_offset os mem in
  (mem <> MAP_FAILED -> 0 <= offset < gd) /\
  (fst (fst (allocate_stack_storage os s S G w)) = -1 ->
   mem = MAP_FAILED \/
   mprotect os (aligned_address os mem) (wrap64 (wrap32 (gd - offset))) <> 0).
Proof.
  intros Hos HS HG Hpos mem gd offset.
  pose proof (sane_pagesize os Hos) as Hp.
  pose proof (page_ok_bounds _ Hp) as Hb.
  assert (Hres : mem <> MAP_FAILED -> 0 <= offset < gd).
  { intros Hmem. subst mem gd offset.
    destruct (granted_memsize os S G Hp HS HG)
      as ((Hr & _) & (Hr' & _) & Hsum & Hfit);
      [ intros Hz; apply Hmem, (sane_mmap_length os Hos); left; exact Hz
      | intros Hbig; apply Hmem, (sane_mmap_length os Hos); right; exact Hbig
      | ].
    destruct (sane_mmap_fits os Hos _ Hmem) as [Hmpos Hend].
    unfold INT_MAX in *.
    rewrite (wrap64_small (total_memsize os S G)) in Hend at 2 by lia.
    destruct (alignment_offset_value os
                (mmap os (wrap64 (total_memsize os S G))) Hp)
      as (_ & Hoffr & _); lia. }
  split; [exact Hres |].
  subst mem gd offset. rewrite allocate_stack_storage_eq. cbv zeta.
  destruct (Z.leb_spec G 0) as [Hpath | Hpath]; [lia |].
  destruct (Z.eqb_spec (mmap os (wrap64 (total_memsize os S G))) MAP_FAILED)
    as [Hmem | Hmem]; [intros _; left; exact Hmem |].
  specialize (Hres Hmem).
  destruct (Z.leb_spec (rounded_guardsize os G)
              (alignment_offset os (mmap os (wrap64 (total_memsize os S G)))))
    as [Hle | Hgt]; [lia |].
  destruct (Z.eqb_spec
              (mprotect os
                 (aligned_address os (mmap os (wrap64 (total_memsize os S G))))
                 (wrap64 (wrap32 (rounded_guardsize os G -
                    alignment_offset os (mmap os (wrap64 (total_memsize os S G)))))))
              0) as [Hprot | Hprot]; cbn [negb].
  - destruct (register_valgrind _ _ _ _). cbn [fst]. intros Hrc. discriminate Hrc.
  - intros _. right. exact Hprot.
Qed.

(** X4: under Valgrind a successful allocation registers exactly the
    usable region [bottom - stacksize, bottom) and keeps the token in the
    struct, and deallocating that struct deregisters the same token;
    outside Valgrind the pair makes no Valgrind call and the token is 0. *)
Theorem valgrind_registration_round_trip
    (os : OS) (s : StackStorage) (S G : Z) (w : World) :
  os_sane os -> is_int S -> is_int G ->
  fst (fst (allocate_stack_storage os s S G w)) = 0 ->
  let s' := snd (fst (allocate_stack_storage os s S G w)) in
  let w' := snd (allocate_stack_storage os s S G w) in
  let w'' := deallocate_stack_storage os s' w' in
  filter is_valgrind (new_events w w'') =
    (if RunningOnValgrind os
     then [EvValgrindRegister (bottom s') (bottom s' - stacksize s')
             (valgrind_stack_id s');
           EvValgrindDeregister (valgrind_stack_id s')]
     else []) /\
  (RunningOnValgrind os = false -> valgrind_stack_id s' = 0).
Proof.
  intros Hos HS HG Hrc s' w' w''.
  pose proof (page_ok_bounds _ (sane_pagesize os Hos)) as Hb.
  assert (Hshape : exists pre lo,
            new_events w w' =
              pre ++ (if RunningOnValgrind os
                      then [EvValgrindRegister (bottom s') lo (valgrind_stack_id s')]
                      else []) /\
            filter is_valgrind pre = [] /\
            lo = bottom s' - stacksize s' /\
            (RunningOnValgrind os = false -> valgrind_stack_id s' = 0) /\
            0 <= stacksize s' + guardsize s' <= INT_MAX /\
            stacksize s' + guardsize s' < bottom s' < 2 ^ 64).
  { destruct (Z_le_gt_dec G 0) as [Hpath | Hpath].
    - destruct (unguarded_success_shape os s S G w Hos HS Hpath Hrc)
        as ((Hr & _) & Hmpos & Hend & Hbot & Hst & Hgd & Hid & Hev).
      fold s' in Hbot, Hst, Hgd, Hid. fold w' in Hev.
      eexists; eexists. rewrite Hev, Hbot, Hst, Hgd, Hid.
      split; [destruct (RunningOnValgrind os); reflexivity |].
      split; [reflexivity |]. split; [lia |].
      split; [intros Hv; rewrite Hv; reflexivity |].
      unfold INT_MAX in *. lia.
    - destruct (guarded_success_shape os s S G w Hos HS HG ltac:(lia) Hrc)
        as ((Hr & _) & (Hr' & _) & Hfit & Hmpos & Hend & Hbot & Hst & Hgd & Hid
            & _ & _ & _ & Hev).
      fold s' in Hbot, Hst, Hgd, Hid. fold w' in Hev.
      eexists; eexists. rewrite Hev, Hbot, Hst, Hgd, Hid.
      split; [destruct (RunningOnValgrind os); reflexivity |].
      split; [reflexivity |]. split; [lia |].
      split; [intros Hv; rewrite Hv; reflexivity |].
      unfold INT_MAX in *. lia. }
  destruct Hshape as (pre & lo & Hev & Hpre & Hlo & Hid & Hsum & Hbot).
  split; [| exact Hid].
  assert (Htr : trace w' = trace w ++ new_events w w').
  { unfold new_events. subst w'.
    clear. allocate_paths os S G; unfold emit, fetch_add; cbn [trace snd];
      rewrite <- ?app_assoc; rewrite skipn_length_app; reflexivity. }
  subst w''. rewrite deallocate_live by lia.
  erewrite new_events_app
    by (unfold emit, fetch_sub; cbn [trace];
        rewrite deregistered_trace, Htr, <- !app_assoc; reflexivity).
  rewrite Hev, !filter_app, Hpre, <- Hlo.
  destruct (RunningOnValgrind os), (guardsize s' <=? 0); reflexivity.
Qed.

(** X5: a requested size within one page of [INT_MAX], for which rounding
    up overflows an [int], is refused on a sane host: the call returns -1
    on either path.  (The overflowing addition is given its
    two's-complement result, as everywhere in this model; C++ itself
    leaves it undefined.) *)
Theorem oversized_request_fails
    (os : OS) (s : StackStorage) (S G : Z) (w : World) :
  os_sane os -> is_int S -> is_int G ->
  INT_MAX - (getpagesize os - 1) < S ->
  fst (fst (allocate_stack_storage os s S G w)) = -1.
Proof.
  intros Hos HS HG Hbig.
  pose proof (sane_pagesize os Hos) as Hp.
  pose proof (page_ok_bounds _ Hp) as Hb.
  destruct (allocate_result_cases os s S G w) as [Hrc | Hrc]; [exact Hrc |].
  exfalso.
  assert (Hst : S <= rounded_stacksize os S <= INT_MAX /\
                rounded_stacksize os S mod getpagesize os = 0).
  { destruct (Z_le_gt_dec G 0) as [Hpath | Hpath].
    - destruct (unguarded_success_shape os s S G w Hos HS Hpath Hrc)
        as ((Hr & _ & Hmod) & _). split; [lia | exact Hmod].
    - destruct (guarded_success_shape os s S G w Hos HS HG ltac:(lia) Hrc)
        as ((Hr & _ & Hmod) & _). split; [lia | exact Hmod]. }
  destruct Hst as (Hr & Hmod).
  pose proof (page_multiple_below _ _ Hp Hmod ltac:(lia)) as Hroom.
  unfold INT_MAX in *. lia.
Qed.

(** X6: rounding is idempotent: asking again for the sizes a successful
    allocation recorded yields, on success, exactly those sizes. *)
Theorem recorded_sizes_are_granted_exactly
    (os : OS) (s1 s2 : StackStorage) (S G : Z) (w1 w2 : World) :
  os_sane os -> is_int S -> is_int G ->
  fst (fst (allocate_stack_storage os s1 S G w1)) = 0 ->
  let h := snd (fst (allocate_stack_storage os s1 S G w1)) in
  fst (fst (allocate_stack_storage os s2 (stacksize h) (guardsize h) w2)) = 0 ->
  let h' := snd (fst (allocate_stack_storage os s2 (stacksize h) (guardsize h) w2)) in
  stacksize h' = stacksize h /\ guardsize h' = guardsize h.
Proof.
  intros Hos HS HG Hrc h Hrc' h'.
  pose proof (sane_pagesize os Hos) as Hp.
  pose proof (page_ok_bounds _ Hp) as Hb.
  assert (Hh : (getpagesize os * 2 <= stacksize h <= INT_MAX /\
                stacksize h mod getpagesize os = 0) /\
               (guardsize h = 0 /\ G <= 0 \/
                0 < G /\ getpagesize os <= guardsize h <= INT_MAX /\
                guardsize h mod getpagesize os = 0)).
  { destruct (Z_le_gt_dec G 0) as [Hpath | Hpath].
    - destruct (unguarded_success_shape os s1 S G w1 Hos HS Hpath Hrc)
        as ((Hr & _ & Hmod) & _ & _ & _ & Hst & Hgd & _).
      fold h in Hst, Hgd. rewrite Hst, Hgd.
      split; [split; [lia | exact Hmod] | left; split; [reflexivity | lia]].
    - destruct (guarded_success_shape os s1 S G w1 Hos HS HG ltac:(lia) Hrc)
        as ((Hr & _ & Hmod) & (Hr' & _ & Hmod') & _ & _ & _ & _ & Hst & Hgd & _).
      fold h in Hst, Hgd. rewrite Hst, Hgd.
      split; [split; [lia | exact Hmod] |].
      right. split; [lia |]. split; [lia | exact Hmod']. }
  destruct Hh as ((Hs & Hsmod) & Hg).
  assert (HSi : is_int (stacksize h))
    by (unfold is_int, INT_MIN, INT_MAX in *; lia).
  destruct Hg as [(Hg0 & _) | (_ & Hg & Hgmod)].
  - destruct (unguarded_success_shape os s2 (stacksize h) (guardsize h) w2
                Hos HSi ltac:(lia) Hrc')
      as ((Hr & Hlt & Hmod) & _ & _ & _ & Hst & Hgd & _).
    fold h' in Hst, Hgd. rewrite Hst, Hgd. split; [| lia].
    symmetry. apply (multiples_close (getpagesize os)); try assumption; lia.
  - assert (HGi : is_int (guardsize h))
      by (unfold is_int, INT_MIN, INT_MAX in *; lia).
    destruct (guarded_success_shape os s2 (stacksize h) (guardsize h) w2
                Hos HSi HGi ltac:(lia) Hrc')
      as ((Hr & Hlt & Hmod) & (Hr' & Hlt' & Hmod') & _ & _ & _ & _ & Hst & Hgd & _).
    fold h' in Hst, Hgd. rewrite Hst, Hgd.
    split; symmetry; apply (multiples_close (getpagesize os));
      try assumption; lia.
Qed.

(** X7: a request of at most two pages, zero and negative sizes
    included, is served with exactly two pages. *)
Theorem small_request_gets_two_pages
    (os : OS) (s : StackStorage) (S G : Z) (w : World) :
  os_sane os -> is_int S -> is_int G ->
  S <= 2 * getpagesize os ->
  fst (fst (allocate_stack_storage os s S G w)) = 0 ->
  stacksize (snd (fst (allocate_stack_storage os s S G w))) = 2 * getpagesize os.
Proof.
  intros Hos HS HG Hsmall Hrc.
  pose proof (sane_pagesize os Hos) as Hp.
  pose proof (page_ok_bounds _ Hp) as Hb.
  assert (Hst : stacksize (snd (fst (allocate_stack_storage os s S G w)))
                = rounded_stacksize os S /\
                Z.max S (getpagesize os * 2) <= rounded_stacksize os S /\
                rounded_stacksize os S < Z.max S (getpagesize os * 2) + getpagesize os /\
                rounded_stacksize os S mod getpagesize os = 0).
  { destruct (Z_le_gt_dec G 0) as [Hpath | Hpath].
    - destruct (unguarded_success_shape os s S G w Hos HS Hpath Hrc)
        as ((Hr & Hlt & Hmod) & _ & _ & _ & Hst & _).
      repeat split; try assumption; lia.
    - destruct (guarded_success_shape os s S G w Hos HS HG ltac:(lia) Hrc)
        as ((Hr & Hlt & Hmod) & _ & _ & _ & _ & _ & Hst & _).
      repeat split; try assumption; lia. }
  destruct Hst as (Hst & Hlo & Hhi & Hmod). rewrite Hst.
  symmetry. apply (multiples_close (getpagesize os)); try assumption; try lia.
  apply Z.mod_mul. lia.
Qed.

(** *** The gauge over a run of a client *)

Lemma remove_nth_length {A : Type} (l : list A) (k : nat) (a : A) :
  nth_error l k = Some a ->
  Z.of_nat (length (remove_nth k l)) = Z.of_nat (length l) - 1.
Proof.
  revert k. induction l as [| b l IH]; intros k Hk.
  - destruct k; discriminate Hk.
  - destruct k as [| k]; cbn [remove_nth length].
    + lia.
    + cbn in Hk. specialize (IH k Hk). cbn [length] in *. lia.
Qed.

Lemma remove_nth_Forall {A : Type} (P : A -> Prop) (l : list A) (k : nat) :
  Forall P l -> Forall P (remove_nth k l).
Proof.
  intros H. revert k. induction H as [| b l Hb Hl IH]; intros k.
  - destruct k; constructor.
  - destruct k as [| k]; cbn [remove_nth]; [exact Hl |].
    constructor; [exact Hb | apply IH].
Qed.

Lemma nth_error_Forall {A : Type} (P : A -> Prop) (l : list A) (k : nat) (a : A) :
  Forall P l -> nth_error l k = Some a -> P a.
Proof.
  intros H Hk. apply nth_error_In in Hk.
  rewrite Forall_forall in H. apply H, Hk.
Qed.

Lemma allocate_failure_count (os : OS) (s : StackStorage) (S G : Z) (w : World) :
  fst (fst (allocate_stack_storage os s S G w)) = -1 ->
  s_stack_count (snd (allocate_stack_storage os s S G w)) = s_stack_count w.
Proof.
  allocate_paths os S G; cbn [fst snd]; intros Hrc; try discriminate Hrc;
    reflexivity.
Qed.

Lemma allocate_success_live (os : OS) (s : StackStorage) (S G : Z) (w : World) :
  os_sane os -> is_int S -> is_int G ->
  fst (fst (allocate_stack_storage os s S G w)) = 0 ->
  handle_live (snd (fst (allocate_stack_storage os s S G w))) /\
  s_stack_count (snd (allocate_stack_storage os s S G w)) =
    wrap64s (s_stack_count w + 1).
Proof.
  intros Hos HS HG Hrc.
  destruct (allocate_success_shape os s S G w Hos HS HG Hrc)
    as (mem & evs & Hpos & Hsum & Hbot & Hend & Hcount & _).
  split; [| exact Hcount]. unfold handle_live. lia.
Qed.

(** X8: the gauge counts the stacks a client holds.  Over any run of
    allocations and releases of held handles, on hosts that may answer
    differently from call to call, the difference between
    [get_stack_count] and the number of handles held does not change, and
    every handle held stays releasable. *)
Theorem gauge_follows_held_stacks
    (rs : list request) (live : list StackStorage) (w : World) :
  Forall request_ok rs -> Forall handle_live live ->
  INT64_MIN <= get_stack_count w - Z.of_nat (length live) ->
  get_stack_count w + Z.of_nat (length rs) <= INT64_MAX ->
  get_stack_count (snd (serve rs live w)) - Z.of_nat (length (fst (serve rs live w)))
    = get_stack_count w - Z.of_nat (length live) /\
  Forall handle_live (fst (serve rs live w)).
Proof.
  unfold get_stack_count.
  revert live w. induction rs as [| r rs IH]; intros live w Hok Hlive Hlo Hhi.
  - cbn [serve fst snd]. split; [reflexivity | exact Hlive].
  - inversion Hok as [| r0 rs0 Hr Hrs]; subst r0 rs0.
    cbn [length] in Hhi. rewrite Nat2Z.inj_succ in Hhi.
    destruct r as [os size guard | os k]; cbn [serve].
    + destruct Hr as (Hos & HS & HG).
      destruct (allocate_result_cases os zero_storage size guard w) as [Hrc | Hrc].
      * rewrite Hrc. cbn [Z.eqb].
        pose proof (allocate_failure_count os zero_storage size guard w Hrc) as Hc.
        destruct (IH live (snd (allocate_stack_storage os zero_storage size guard w))
                    Hrs Hlive) as [Hgauge Hall]; [rewrite Hc; lia .. |].
        rewrite Hgauge, Hc. split; [reflexivity | exact Hall].
      * rewrite Hrc. cbn [Z.eqb].
        destruct (allocate_success_live os zero_storage size guard w Hos HS HG Hrc)
          as [Hnew Hc].
        unfold INT64_MIN, INT64_MAX in *.
        rewrite wrap64s_small in Hc by (unfold INT64_MIN, INT64_MAX; lia).
        assert (Hlen : Z.of_nat (length (live ++
                  [snd (fst (allocate_stack_storage os zero_storage size guard w))]))
                = Z.of_nat (length live) + 1)
          by (rewrite length_app; cbn [length]; lia).
        destruct (IH (live ++ [snd (fst (allocate_stack_storage os zero_storage size guard w))])
                    (snd (allocate_stack_storage os zero_storage size guard w)) Hrs)
          as [Hgauge Hall].
        { apply Forall_app. split; [exact Hlive | constructor; [exact Hnew | constructor]]. }
        { rewrite Hc, Hlen. lia. }
        { rewrite Hc. lia. }
        rewrite Hgauge, Hc, Hlen. split; [lia | exact Hall].
    + destruct (nth_error live k) as [h |] eqn:Hk.
      * pose proof (nth_error_Forall _ _ _ _ Hlive Hk) as (Hsum & Hbot).
        pose proof (remove_nth_length live k h Hk) as Hlen.
        assert (Hpos : 1 <= Z.of_nat (length live)).
        { destruct live; [destruct k; discriminate Hk | cbn [length]; lia]. }
        assert (Hc : s_stack_count (deallocate_stack_storage os h w)
                     = s_stack_count w - 1).
        { rewrite deallocate_live by lia.
          unfold emit, fetch_sub; cbn [s_stack_count].
          rewrite deregistered_count. apply wrap64s_small.
          unfold INT64_MIN, INT64_MAX in *. lia. }
        destruct (IH (remove_nth k live) (deallocate_stack_storage os h w) Hrs)
          as [Hgauge Hall].
        { apply remove_nth_Forall, Hlive. }
        { rewrite Hc, Hlen. lia. }
        { rewrite Hc. lia. }
        rewrite Hgauge, Hc, Hlen. split; [lia | exact Hall].
      * destruct (IH live w Hrs Hlive) as [Hgauge Hall]; [lia .. |].
        split; [exact Hgauge | exact Hall].
Qed.

(** *** The properties at concrete inputs *)

Lemma valgrind_os_sane : os_sane valgrind_os.
Proof.
  destruct StackTheorems.sample_os_sane as [H1 H2 H3 H4 H5].
  constructor; assumption.
Qed.

Lemma int_5000 : is_int 5000.
Proof. vm_compute. split; discriminate. Qed.

Lemma int_1 : is_int 1.
Proof. vm_compute. split; discriminate. Qed.

Lemma int_0 : is_int 0.
Proof. vm_compute. split; discriminate. Qed.

Lemma int_max : is_int INT_MAX.
Proof. vm_compute. split; discriminate. Qed.

Lemma sample_guarded_success :
  fst (fst (allocate_stack_storage sample_os zero_storage 5000 1 fresh_world)) = 0.
Proof. vm_compute. reflexivity. Qed.

Lemma valgrind_guarded_success :
  fst (fst (allocate_stack_storage valgrind_os zero_storage 5000 1 fresh_world)) = 0.
Proof. vm_compute. reflexivity. Qed.

Lemma guard_size_of_guarded_stack_witness :
  (os_sane sample_os /\ is_int 5000 /\ is_int 1 /\ 0 < 1 /\
   fst (fst (allocate_stack_storage sample_os zero_storage 5000 1 fresh_world)) = 0) /\
  guardsize (snd (fst (allocate_stack_storage sample_os zero_storage 5000 1 fresh_world)))
    mod getpagesize sample_os = 0 /\
  getpagesize sample_os <=
    guardsize (snd (fst (allocate_stack_storage sample_os zero_storage 5000 1 fresh_world))).
Proof.
  assert (H0 : 0 < 1) by lia.
  split.
  { exact (conj StackTheorems.sample_os_sane
             (conj int_5000 (conj int_1 (conj H0 sample_guarded_success)))). }
  destruct (guard_size_of_guarded_stack sample_os zero_storage 5000 1 fresh_world
              StackTheorems.sample_os_sane int_5000 int_1 H0 sample_guarded_success)
    as (Ha & Hb & _).
  split; [exact Ha | exact Hb].
Defined.

Lemma guard_lies_below_usable_region_witness :
  (os_sane sample_os /\ is_int 5000 /\ is_int 1 /\ 0 < 1 /\
   fst (fst (allocate_stack_storage sample_os zero_storage 5000 1 fresh_world)) = 0) /\
  exists a len,
    filter is_mprotect
      (new_events fresh_world
         (snd (allocate_stack_storage sample_os zero_storage 5000 1 fresh_world)))
    = [EvMprotect a len 0] /\
    a + len =
      bottom (snd (fst (allocate_stack_storage sample_os zero_storage 5000 1 fresh_world)))
      - stacksize (snd (fst (allocate_stack_storage sample_os zero_storage 5000 1 fresh_world))).
Proof.
  assert (H0 : 0 < 1) by lia.
  split.
  { exact (conj StackTheorems.sample_os_sane
             (conj int_5000 (conj int_1 (conj H0 sample_guarded_success)))). }
  destruct (guard_lies_below_usable_region sample_os zero_storage 5000 1 fresh_world
              StackTheorems.sample_os_sane int_5000 int_1 H0 sample_guarded_success)
    as (a & len & Hev & _ & _ & _ & Hend & _).
  exists a, len. split; [exact Hev | exact Hend].
Defined.

Lemma sample_mapping_granted :
  mmap sample_os (wrap64 (total_memsize sample_os 5000 1)) <> MAP_FAILED.
Proof. vm_compute. discriminate. Qed.

Lemma guard_residual_is_positive_witness :
  (os_sane sample_os /\ is_int 5000 /\ is_int 1 /\ 0 < 1 /\
   mmap sample_os (wrap64 (total_memsize sample_os 5000 1)) <> MAP_FAILED) /\
  0 <= alignment_offset sample_os
         (mmap sample_os (wrap64 (total_memsize sample_os 5000 1)))
    < rounded_guardsize sample_os 1.
Proof.
  assert (H0 : 0 < 1) by lia.
  split.
  { exact (conj StackTheorems.sample_os_sane
             (conj int_5000 (conj int_1 (conj H0 sample_mapping_granted)))). }
  exact (proj1 (guard_residual_is_positive sample_os zero_storage 5000 1 fresh_world
                  StackTheorems.sample_os_sane int_5000 int_1 H0)
               sample_mapping_granted).
Defined.

Lemma valgrind_registration_round_trip_witness :
  (os_sane valgrind_os /\ is_int 5000 /\ is_int 1 /\
   fst (fst (allocate_stack_storage valgrind_os zero_storage 5000 1 fresh_world)) = 0) /\
  filter is_valgrind
    (new_events fresh_world
       (deallocate_stack_storage valgrind_os
          (snd (fst (allocate_stack_storage valgrind_os zero_storage 5000 1 fresh_world)))
          (snd (allocate_stack_storage valgrind_os zero_storage 5000 1 fresh_world)))) =
  (if RunningOnValgrind valgrind_os
   then [EvValgrindRegister
           (bottom (snd (fst (allocate_stack_storage valgrind_os zero_storage 5000 1 fresh_world))))
           (bottom (snd (fst (allocate_stack_storage valgrind_os zero_storage 5000 1 fresh_world)))
            - stacksize (snd (fst (allocate_stack_storage valgrind_os zero_storage 5000 1 fresh_world))))
           (valgrind_stack_id (snd (fst (allocate_stack_storage valgrind_os zero_storage 5000 1 fresh_world))));
         EvValgrindDeregister
           (valgrind_stack_id (snd (fst (allocate_stack_storage valgrind_os zero_storage 5000 1 fresh_world))))]
   else []).
Proof.
  split.
  { exact (conj valgrind_os_sane
             (conj int_5000 (conj int_1 valgrind_guarded_success))). }
  exact (proj1 (valgrind_registration_round_trip valgrind_os zero_storage 5000 1
                  fresh_world valgrind_os_sane int_5000 int_1
                  valgrind_guarded_success)).
Defined.

Lemma sample_oversized : INT_MAX - (getpagesize sample_os - 1) < INT_MAX.
Proof. vm_compute. reflexivity. Qed.

Lemma oversized_request_fails_witness :
  (os_sane sample_os /\ is_int INT_MAX /\ is_int 1 /\
   INT_MAX - (getpagesize sample_os - 1) < INT_MAX) /\
  fst (fst (allocate_stack_storage sample_os zero_storage INT_MAX 1 fresh_world)) = -1.
Proof.
  split.
  { exact (conj StackTheorems.sample_os_sane
             (conj int_max (conj int_1 sample_oversized))). }
  exact (oversized_request_fails sample_os zero_storage INT_MAX 1 fresh_world
           StackTheorems.sample_os_sane int_max int_1 sample_oversized).
Defined.

Lemma sample_second_success :
  fst (fst (allocate_stack_storage sample_os zero_storage
              (stacksize (snd (fst (allocate_stack_storage sample_os zero_storage 5000 1 fresh_world))))
              (guardsize (snd (fst (allocate_stack_storage sample_os zero_storage 5000 1 fresh_world))))
              fresh_world)) = 0.
Proof. vm_compute. reflexivity. Qed.

Lemma recorded_sizes_are_granted_exactly_witness :
  (os_sane sample_os /\ is_int 5000 /\ is_int 1 /\
   fst (fst (allocate_stack_storage sample_os zero_storage 5000 1 fresh_world)) = 0 /\
   fst (fst (allocate_stack_storage sample_os zero_storage
               (stacksize (snd (fst (allocate_stack_storage sample_os zero_storage 5000 1 fresh_world))))
               (guardsize (snd (fst (allocate_stack_storage sample_os zero_storage 5000 1 fresh_world))))
               fresh_world)) = 0) /\
  stacksize (snd (fst (allocate_stack_storage sample_os zero_storage
               (stacksize (snd (fst (allocate_stack_storage sample_os zero_storage 5000 1 fresh_world))))
               (guardsize (snd (fst (allocate_stack_storage sample_os zero_storage 5000 1 fresh_world))))
               fresh_world))) =
  stacksize (snd (fst (allocate_stack_storage sample_os zero_storage 5000 1 fresh_world))).
Proof.
  split.
  { exact (conj StackTheorems.sample_os_sane
             (conj int_5000 (conj int_1
                (conj sample_guarded_success sample_second_success)))). }
  exact (proj1 (recorded_sizes_are_granted_exactly sample_os zero_storage zero_storage
                  5000 1 fresh_world fresh_world StackTheorems.sample_os_sane
                  int_5000 int_1 sample_guarded_success sample_second_success)).
Defined.

Lemma sample_small : 0 <= 2 * getpagesize sample_os.
Proof. vm_compute. discriminate. Qed.

Lemma sample_small_success :
  fst (fst (allocate_stack_storage sample_os zero_storage 0 1 fresh_world)) = 0.
Proof. vm_compute. reflexivity. Qed.

Lemma small_request_gets_two_pages_witness :
  (os_sane sample_os /\ is_int 0 /\ is_int 1 /\ 0 <= 2 * getpagesize sample_os /\
   fst (fst (allocate_stack_storage sample_os zero_storage 0 1 fresh_world)) = 0) /\
  stacksize (snd (fst (allocate_stack_storage sample_os zero_storage 0 1 fresh_world)))
  = 2 * getpagesize sample_os.
Proof.
  split.
  { exact (conj StackTheorems.sample_os_sane
             (conj int_0 (conj int_1 (conj sample_small sample_small_success)))). }
  exact (small_request_gets_two_pages sample_os zero_storage 0 1 fresh_world
           StackTheorems.sample_os_sane int_0 int_1 sample_small sample_small_success).
Defined.

(** A client that takes a guarded and an unguarded stack and gives the
    first one back. *)
Example client_run :
  let r := serve [Allocate sample_os 5000 1; Allocate sample_os 100 0;
                  Deallocate sample_os 0] [] fresh_world in
  get_stack_count (snd r) = 1 /\
  fst r = [mkStackStorage (0x10000 + 8192) 8192 0 0] /\
  trace (snd r) =
    [EvMmap 12288 0x7f0000000000; EvMprotect 0x7f0000000000 4096 0;
     EvMalloc 8192 0x10000; EvMunmap 0x7f0000000000 12288].
Proof. vm_compute. repeat split; reflexivity. Qed.

Lemma sample_requests_ok :
  Forall request_ok [Allocate sample_os 5000 1; Allocate sample_os 100 0;
                     Deallocate sample_os 0].
Proof.
  assert (H100 : is_int 100) by (vm_compute; split; discriminate).
  constructor; [exact (conj StackTheorems.sample_os_sane (conj int_5000 int_1)) |].
  constructor; [exact (conj StackTheorems.sample_os_sane (conj H100 int_0)) |].
  constructor; [exact I | constructor].
Qed.

Lemma gauge_follows_held_stacks_witness :
  (Forall request_ok [Allocate sample_os 5000 1; Allocate sample_os 100 0;
                      Deallocate sample_os 0] /\
   Forall handle_live [] /\
   INT64_MIN <= get_stack_count fresh_world - Z.of_nat (length (@nil StackStorage)) /\
   get_stack_count fresh_world +
     Z.of_nat (length [Allocate sample_os 5000 1; Allocate sample_os 100 0;
                       Deallocate sample_os 0]) <= INT64_MAX) /\
  get_stack_count
    (snd (serve [Allocate sample_os 5000 1; Allocate sample_os 100 0;
                 Deallocate sample_os 0] [] fresh_world))
  - Z.of_nat (length
      (fst (serve [Allocate sample_os 5000 1; Allocate sample_os 100 0;
                   Deallocate sample_os 0] [] fresh_world)))
  = get_stack_count fresh_world - Z.of_nat (length (@nil StackStorage)).
Proof.
  assert (H1 : Forall handle_live []) by constructor.
  assert (H2 : INT64_MIN <= get_stack_count fresh_world
                            - Z.of_nat (length (@nil StackStorage)))
    by (vm_compute; discriminate).
  assert (H3 : get_stack_count fresh_world +
               Z.of_nat (length [Allocate sample_os 5000 1; Allocate sample_os 100 0;
                                 Deallocate sample_os 0]) <= INT64_MAX)
    by (vm_compute; discriminate).
  split.
  { exact (conj sample_requests_ok (conj H1 (conj H2 H3))). }
  exact (proj1 (gauge_follows_held_stacks _ _ _ sample_requests_ok H1 H2 H3)).
Defined.

End StackExtras.

(** ** Further properties of the linux x86_64 routines *)

Module X86Extras.
Import X86_64 MachineIntFacts MemoryFacts X86Facts.

(** X9: a switch writes nothing but the 56 bytes below the stack pointer
    it was called with and the eight bytes of [*ofc], whether it runs to
    its end or stops at [ldmxcsr]. *)
Theorem switch_writes_only_frame_and_slot (s : state) (x0 : Z) :
  can_suspend s -> 0 <= x0 < 2 ^ 64 ->
  x0 < get RSP s - 56 \/ get RSP s <= x0 ->
  x0 < get RDI s \/ get RDI s + 8 <= x0 ->
  memory (state_of (bthread_jump_fcontext s)) x0 = memory s x0.
Proof.
  intros Hcs Hx Hframe Hslot.
  rewrite switch_memory.
  apply save_context_outside; assumption.
Qed.

(** X10: a switch into a fresh context, created by a caller whose MXCSR is
    one the register can hold, runs to its end, and the entry function
    starts as the System V ABI has a function start after a [call]:
    [%rsp + 8] is a multiple of 16; and [%rsp] lies between 8 and 23 bytes
    below the stack top given to [bthread_make_fcontext]. *)
Theorem entry_stack_is_abi_aligned (finish : Z) (s0 b : state) :
  well_formed s0 -> mxcsr_ok s0 -> word finish -> 0x50 <= get RDI s0 ->
  let made := bthread_make_fcontext finish s0 in
  let ctx := get RAX made in
  can_suspend b -> frame_apart b ctx 0x48 -> get RSI b = ctx ->
  agree (memory b) (memory made) ctx 0x48 ->
  exists e, bthread_jump_fcontext b = Done e /\
    (get RSP e + 8) mod 16 = 0 /\
    get RDI s0 - 23 <= get RSP e <= get RDI s0 - 8.
Proof.
  intros Hwf Hok Hfin Htop made ctx Hcs Hfa Hrsi Hag.
  destruct (enter_made_context finish s0 b Hwf Hok Hfin Htop Hcs Hfa Hrsi Hag)
    as (e & He & _ & Hsp & _).
  exists e. split; [exact He |].
  pose proof Hwf as (Hr & _).
  pose proof (make_fcontext_frame finish s0 (Hr RDI) Htop) as Hframe.
  pose proof (Z.mod_pos_bound (get RDI s0) 16 ltac:(lia)) as Hm.
  subst ctx made. rewrite Hsp, Hframe. split; [| lia].
  replace (get RDI s0 - get RDI s0 mod 16 - 0x48 + 0x40 + 8)
    with (get RDI s0 - get RDI s0 mod 16) by lia.
  rewrite (Z.mod_eq (get RDI s0) 16) by lia.
  replace (get RDI s0 - (get RDI s0 - 16 * (get RDI s0 / 16)))
    with ((get RDI s0 / 16) * 16) by lia.
  apply Z.mod_mul. lia.
Qed.

(** X11: a switch into a fresh context, created by a caller whose MXCSR is
    one the register can hold, runs to its end; entered with
    [preserve_fpu] set the context starts with the MXCSR and x87 control
    word of the thread that created it, which [bthread_make_fcontext]
    stored in the frame; entered with [preserve_fpu] clear it starts with
    those of the switcher. *)
Theorem fresh_context_fpu_control (finish : Z) (s0 b : state) :
  well_formed s0 -> mxcsr_ok s0 -> word finish -> 0x50 <= get RDI s0 ->
  let made := bthread_make_fcontext finish s0 in
  let ctx := get RAX made in
  can_suspend b -> frame_apart b ctx 0x48 -> get RSI b = ctx ->
  agree (memory b) (memory made) ctx 0x48 ->
  exists e, bthread_jump_fcontext b = Done e /\
    (get RCX b <> 0 -> mxcsr e = mxcsr s0 /\ fpucw e = fpucw s0) /\
    (get RCX b = 0 -> mxcsr e = mxcsr b /\ fpucw e = fpucw b).
Proof.
  intros Hwf Hok Hfin Htop made ctx Hcs Hfa Hrsi Hag.
  destruct (enter_made_context finish s0 b Hwf Hok Hfin Htop Hcs Hfa Hrsi Hag)
    as (e & He & _).
  exists e. split; [exact He |].
  pose proof Hwf as (Hr & _ & Hmx & Hcw).
  destruct (make_fcontext_contents finish s0 (Hr RDI) Htop (Hr RDX) Hfin Hmx Hcw)
    as (_ & _ & Lmx & Lcw & _).
  pose proof (agree_trans _ _ _ _ _ (save_context_keeps b ctx 0x48 Hcs Hfa) Hag) as Hall.
  pose proof (save_context_regs b RSI ltac:(discriminate)) as Hsi.
  pose proof (save_context_regs b RCX ltac:(discriminate)) as Hcx.
  destruct (save_context_fpu b) as (Smx & Scw).
  pose proof Hfa as (Hc0 & Hc1 & _).
  rewrite jump_split in He.
  destruct (restore_context_fpu (save_context b) e) as (Rmx & Rcw);
    [rewrite Hsi, Hrsi; lia | rewrite Hsi, Hrsi; lia | exact He |].
  rewrite Hsi, Hcx, Hrsi, Smx in Rmx. rewrite Hsi, Hcx, Hrsi, Scw in Rcw.
  unfold load32 in Rmx, Lmx. unfold load16 in Rcw, Lcw.
  rewrite (load_bytes_agree 4 _ _ ctx 0x48 ctx Hall) in Rmx by lia.
  rewrite (load_bytes_agree 2 _ _ ctx 0x48 (ctx + 4) Hall) in Rcw by lia.
  rewrite Rmx, Rcw. subst ctx made.
  rewrite Lmx, Lcw.
  split; intros Hflag.
  - destruct (Z.eqb_spec (get RCX b) 0) as [Hz | _]; [contradiction |].
    split; reflexivity.
  - rewrite Hflag. cbn [Z.eqb]. split; reflexivity.
Qed.


End X86Extras.

(** ** Further properties of the linux arm64 routines *)

Module Arm64Extras.
Import Arm64 MachineIntFacts MemoryFacts.

Ltac run :=
  cbv beta iota zeta delta
    [bthread_jump_fcontext bthread_make_fcontext
     seq sub_sp add_sp stp_d ldp_d stp_x ldp_x
     str_sp ldr_sp str_x mov_from_sp mov_to_sp mov ret
     and_imm sub_imm str_off adr mov_imm
     set_x set_d set_sp set_pc set_mem x d sp pc memory Nat.eqb] in *.

Ltac unwrap :=
  repeat match goal with
  | |- context [wrap64 ?z] =>
      lazymatch z with context [wrap64 _] => fail | _ => idtac end;
      rewrite (wrap64_small z) by lia
  end.

Ltac mem_side := unfold in_range, disjoint in *; lia.

Ltac loads :=
  unfold load64, store64 in *;
  repeat match goal with
  | |- context [load_bytes ?k (store_bytes ?n ?a ?v ?m) ?b] =>
      first [ rewrite (load_store_disjoint k n a b v m) by mem_side
            | rewrite (load_store_same_at n a b v m) by (cbn; lia) ]
  end.

Ltac bytes :=
  unfold store64 in *;
  repeat match goal with
  | |- context [store_bytes ?n ?a ?v ?m ?x0] =>
      rewrite (store_bytes_outside n a v m x0) by mem_side
  end.

(** Replaces the slot offsets of concrete registers by their values. *)
Ltac slots :=
  repeat match goal with
  | |- context [x_slot ?k] =>
      let v := eval vm_compute in (x_slot k) in change (x_slot k) with v
  | |- context [d_slot ?k] =>
      let v := eval vm_compute in (d_slot k) in change (d_slot k) with v
  end.

Lemma x_slot_cases (n : nat) :
  (19 <= n <= 30)%nat ->
  n = 19%nat \/ n = 20%nat \/ n = 21%nat \/ n = 22%nat \/ n = 23%nat \/
  n = 24%nat \/ n = 25%nat \/ n = 26%nat \/ n = 27%nat \/ n = 28%nat \/
  n = 29%nat \/ n = 30%nat.
Proof. lia. Qed.

(** The transfer value arrives in [x0]. *)
Lemma jump_value (s : state) : x (bthread_jump_fcontext s) 0 = x s 2.
Proof. destruct s as [xr dr stk ip m]. run. reflexivity. Qed.

(** Where the switch ends up: the stack pointer right above the frame,
    control at the address in the frame's last slot. *)
Lemma jump_lands (s : state) :
  0 <= x s 1 -> x s 1 + 0xb0 < 2 ^ 64 ->
  sp (bthread_jump_fcontext s) = x s 1 + 0xb0 /\
  pc (bthread_jump_fcontext s) =
    load64 (memory (bthread_jump_fcontext s)) (x s 1 + 0xa0).
Proof.
  intros H0 H1. destruct s as [xr dr stk ip m]. run.
  unwrap. split; [lia | f_equal].
Qed.

(** Each of [x19 .. x30] is loaded from its slot of the frame at [nfc]. *)
Lemma jump_restores_x (s : state) (n : nat) :
  0 <= x s 1 -> x s 1 + 0xb0 < 2 ^ 64 -> (19 <= n <= 30)%nat ->
  x (bthread_jump_fcontext s) n =
  load64 (memory (bthread_jump_fcontext s)) (x s 1 + x_slot n).
Proof.
  intros H0 H1 Hn. destruct s as [xr dr stk ip m]. run.
  destruct (x_slot_cases n Hn)
    as [E | [E | [E | [E | [E | [E | [E | [E | [E | [E | [E | E]]]]]]]]]]];
    subst n; slots; run; unwrap; f_equal; lia.
Qed.

(** Each of [x19 .. x30] is stored in its slot of the frame on the old
    stack, the link register once more in the resume slot, and the address
    of the frame in [*ofc]. *)
Lemma jump_saves_x (s : state) (n : nat) :
  can_suspend s -> (19 <= n <= 30)%nat -> 0 <= x s n < 2 ^ 64 ->
  load64 (memory (bthread_jump_fcontext s)) (sp s - 0xb0 + x_slot n) = x s n.
Proof.
  unfold can_suspend, in_range, disjoint.
  intros (H1 & H2 & H3 & H4) Hn Hw.
  destruct s as [xr dr stk ip m]. run.
  destruct (x_slot_cases n Hn)
    as [E | [E | [E | [E | [E | [E | [E | [E | [E | [E | [E | E]]]]]]]]]]];
    subst n; slots; unwrap; loads; reflexivity.
Qed.

Lemma jump_saves_resume (s : state) :
  can_suspend s -> 0 <= x s 30 < 2 ^ 64 ->
  load64 (memory (bthread_jump_fcontext s)) (sp s - 0xb0 + 0xa0) = x s 30 /\
  load64 (memory (bthread_jump_fcontext s)) (x s 0) = sp s - 0xb0.
Proof.
  unfold can_suspend, in_range, disjoint.
  intros (H1 & H2 & H3 & H4) Hw.
  destruct s as [xr dr stk ip m]. run.
  unwrap; split; loads; lia.
Qed.

(** Nothing is written outside the [0xb0] bytes below [sp] and the slot
    [*ofc]. *)
Lemma jump_outside (s : state) (x0 : Z) :
  can_suspend s -> 0 <= x0 < 2 ^ 64 ->
  x0 < sp s - 0xb0 \/ sp s <= x0 ->
  x0 < x s 0 \/ x s 0 + 8 <= x0 ->
  memory (bthread_jump_fcontext s) x0 = memory s x0.
Proof.
  unfold can_suspend, in_range, disjoint.
  intros (H1 & H2 & H3 & H4) Hx Ho1 Ho2.
  destruct s as [xr dr stk ip m]. run.
  unwrap; bytes; reflexivity.
Qed.

Lemma jump_keeps (s : state) (ctx : Z) :
  can_suspend s -> frame_apart s ctx ->
  agree (memory (bthread_jump_fcontext s)) (memory s) ctx 0xb0.
Proof.
  intros Hs (Hc1 & Hc2 & Hd1 & Hd2) x0 Hx.
  pose proof Hs as (H1 & H2 & H3 & H4).
  unfold in_range, disjoint in *.
  apply jump_outside; [exact Hs | lia | lia | lia].
Qed.

Lemma mask_rounds_down_16 (v : Z) :
  0 <= v < 2 ^ 64 -> Z.land v (wrap64 (Z.lnot 0xF)) = v - v mod 16.
Proof.
  intros Hv.
  change (wrap64 (Z.lnot 0xF)) with (Z.land (Z.lnot (2 ^ 4 - 1)) (Z.ones 64)).
  rewrite Z.land_assoc, Z.land_ones by lia.
  rewrite land_lnot_pow2 by lia. change (2 ^ 4) with 16.
  pose proof (Z.mod_pos_bound v 16 ltac:(lia)).
  pose proof (Z.mod_le v 16 ltac:(lia) ltac:(lia)).
  apply Z.mod_small. lia.
Qed.

Lemma rounded_top_bound (v : Z) : 0xc0 <= v -> 0xc0 <= v - v mod 16.
Proof.
  intros Hv. rewrite (Z.mod_eq v 16) by lia.
  replace (v - (v - 16 * (v / 16))) with (16 * (v / 16)) by lia.
  assert (12 <= v / 16) by (apply Z.div_le_lower_bound; lia). lia.
Qed.

(** What [bthread_make_fcontext] leaves. *)
Lemma make_fcontext_result (finish : Z) (s : state) :
  0 <= x s 0 < 2 ^ 64 -> 0xc0 <= x s 0 ->
  0 <= x s 2 < 2 ^ 64 -> 0 <= finish < 2 ^ 64 ->
  let s' := bthread_make_fcontext finish s in
  let frame := x s 0 - x s 0 mod 16 - 0xb0 in
  x s' 0 = frame /\
  load64 (memory s') (frame + 0xa0) = x s 2 /\
  load64 (memory s') (frame + 0x98) = finish /\
  pc s' = x s 30 /\ sp s' = sp s /\
  (forall x0, 0 <= x0 < 2 ^ 64 -> x0 < frame + 0x98 \/ frame + 0xa8 <= x0 ->
     memory s' x0 = memory s x0).
Proof.
  intros Hw Htop Hfn Hfin.
  pose proof (mask_rounds_down_16 _ Hw) as Hal.
  pose proof (rounded_top_bound _ Htop) as Hge.
  pose proof (Z.mod_pos_bound (x s 0) 16 ltac:(lia)) as Hm.
  destruct s as [xr dr stk ip m]. run. rewrite Hal.
  unwrap. repeat split; try (loads; reflexivity); try lia.
  intros x0 Hx Hout. bytes. reflexivity.
Qed.

Lemma arm64_finish_exits (s : state) : finish_block s = Exited 0.
Proof. reflexivity. Qed.

Lemma agree_trans_arm (m1 m2 m3 : mem) (a n : Z) :
  agree m1 m2 a n -> agree m2 m3 a n -> agree m1 m3 a n.
Proof. intros H12 H23 x0 Hx. rewrite (H12 x0 Hx). apply H23, Hx. Qed.

(** A switch into a frame that reads as in [m0]. *)
Lemma arm64_enter_frame (ctx : Z) (b : state) (m0 : mem) :
  can_suspend b -> frame_apart b ctx -> x b 1 = ctx ->
  agree (memory b) m0 ctx 0xb0 ->
  let e := bthread_jump_fcontext b in
  agree (memory e) m0 ctx 0xb0 /\
  sp e = ctx + 0xb0 /\
  pc e = load64 m0 (ctx + 0xa0) /\
  (forall n, (19 <= n <= 30)%nat -> x e n = load64 m0 (ctx + x_slot n)) /\
  (forall n, (8 <= n <= 15)%nat -> d e n = load64 m0 (ctx + d_slot n)).
Proof.
  intros Hcs Hfa Hx1 Hag e.
  pose proof (agree_trans_arm _ _ _ _ _ (jump_keeps b ctx Hcs Hfa) Hag) as Hall.
  pose proof Hfa as (Hc0 & Hc1 & _).
  destruct (jump_lands b) as (Hsp & Hpc); [rewrite Hx1; lia .. |].
  subst e. split; [exact Hall |]. rewrite Hsp, Hpc, Hx1.
  split; [reflexivity |]. split.
  { unfold load64. apply (load_bytes_agree 8 _ _ ctx 0xb0); [exact Hall | lia ..]. }
  split.
  - intros n Hn.
    rewrite (jump_restores_x b n) by (rewrite ?Hx1; lia). rewrite Hx1.
    unfold load64. apply (load_bytes_agree 8 _ _ ctx 0xb0); [exact Hall | | | | ];
      unfold x_slot; lia.
  - intros n Hn.
    rewrite (Arm64Facts.jump_restores_d b n) by (rewrite ?Hx1; lia). rewrite Hx1.
    unfold load64. apply (load_bytes_agree 8 _ _ ctx 0xb0); [exact Hall | | | | ];
      unfold d_slot; lia.
Qed.

(** X13: on linux arm64 [bthread_make_fcontext] places the frame [0xb0]
    bytes below the stack top rounded down to a multiple of 16, so the
    pointer it returns is itself a multiple of 16; the frame's slot at
    [0xa0] holds the address of the entry function, its slot at [0x98]
    (the link register's) the address of [finish]; no other byte changes,
    the size argument plays no part, and control returns to the caller. *)
Theorem arm64_make_fcontext_sets_up_frame (finish : Z) (s : state) :
  0 <= x s 0 < 2 ^ 64 -> 0xc0 <= x s 0 ->
  0 <= x s 2 < 2 ^ 64 -> 0 <= finish < 2 ^ 64 ->
  let s' := bthread_make_fcontext finish s in
  let frame := x s' 0 in
  frame mod 16 = 0 /\
  x s 0 - 15 <= frame + 0xb0 <= x s 0 /\
  load64 (memory s') (frame + 0xa0) = x s 2 /\
  load64 (memory s') (frame + 0x98) = finish /\
  (forall x0, 0 <= x0 < 2 ^ 64 -> x0 < frame + 0x98 \/ frame + 0xa8 <= x0 ->
     memory s' x0 = memory s x0) /\
  (forall size, x (bthread_make_fcontext finish (set_x 1 size s)) 0 = frame) /\
  pc s' = x s 30.
Proof.
  intros Hw Htop Hfn Hfin s' frame.
  destruct (make_fcontext_result finish s Hw Htop Hfn Hfin)
    as (Hframe & Hentry & Hret & Hpc & _ & Hout).
  pose proof (Z.mod_pos_bound (x s 0) 16 ltac:(lia)) as Hm.
  subst frame s'. rewrite Hframe.
  split.
  { replace (x s 0 - x s 0 mod 16 - 0xb0)
      with ((x s 0 / 16 - 11) * 16)
      by (rewrite (Z.mod_eq (x s 0) 16) by lia; lia).
    apply Z.mod_mul. lia. }
  split; [lia |]. split; [exact Hentry |]. split; [exact Hret |].
  split; [exact Hout |]. split; [| exact Hpc].
  intros size.
  destruct (make_fcontext_result finish (set_x 1 size s) Hw Htop Hfn Hfin)
    as (Hframe' & _).
  exact Hframe'.
Qed.

(** X14: on linux arm64 the first switch into a fresh context arrives at
    the entry function with the transfer value in [x0], the address of
    [finish] in the link register, and the stack pointer at the rounded
    stack top, a multiple of 16. *)
Theorem arm64_first_switch_enters (finish : Z) (s0 b : state) :
  0 <= x s0 0 < 2 ^ 64 -> 0xc0 <= x s0 0 ->
  0 <= x s0 2 < 2 ^ 64 -> 0 <= finish < 2 ^ 64 ->
  let made := bthread_make_fcontext finish s0 in
  let ctx := x made 0 in
  can_suspend b -> frame_apart b ctx -> x b 1 = ctx ->
  agree (memory b) (memory made) ctx 0xb0 ->
  let e := bthread_jump_fcontext b in
  pc e = x s0 2 /\
  x e 0 = x b 2 /\
  x e 30 = finish /\
  sp e = x s0 0 - x s0 0 mod 16 /\
  sp e mod 16 = 0.
Proof.
  intros Hw Htop Hfn Hfin made ctx Hcs Hfa Hx1 Hag e.
  destruct (make_fcontext_result finish s0 Hw Htop Hfn Hfin)
    as (Hframe & Hentry & Hret & _).
  destruct (arm64_enter_frame ctx b (memory made) Hcs Hfa Hx1 Hag)
    as (_ & Hsp & Hpc & Hx & _).
  assert (H30 : (19 <= 30 <= 30)%nat) by lia.
  pose proof (Hx 30%nat H30) as Hlr.
  change (x_slot 30) with 0x98 in Hlr.
  subst e ctx made. rewrite Hpc, Hlr, Hsp, Hframe, Hentry, Hret.
  split; [reflexivity |]. split; [apply jump_value |]. split; [reflexivity |].
  split; [lia |].
  replace (x s0 0 - x s0 0 mod 16 - 0xb0 + 0xb0) with ((x s0 0 / 16) * 16)
    by (rewrite (Z.mod_eq (x s0 0) 16) by lia; lia).
  apply Z.mod_mul. lia.
Qed.

(** X15: on linux arm64 an entry function that returns with the link
    register it was entered with arrives at [finish], and the block there
    ends the process with status 0. *)
Theorem arm64_entry_return_exits (finish : Z) (s0 b r : state) :
  0 <= x s0 0 < 2 ^ 64 -> 0xc0 <= x s0 0 ->
  0 <= x s0 2 < 2 ^ 64 -> 0 <= finish < 2 ^ 64 ->
  let made := bthread_make_fcontext finish s0 in
  let ctx := x made 0 in
  can_suspend b -> frame_apart b ctx -> x b 1 = ctx ->
  agree (memory b) (memory made) ctx 0xb0 ->
  let e := bthread_jump_fcontext b in
  x r 30 = x e 30 ->
  pc (ret 30 r) = finish /\
  continue finish (ret 30 r) = Exited 0.
Proof.
  intros Hw Htop Hfn Hfin made ctx Hcs Hfa Hx1 Hag e Hlr.
  destruct (make_fcontext_result finish s0 Hw Htop Hfn Hfin)
    as (Hframe & _ & Hret & _).
  destruct (arm64_enter_frame ctx b (memory made) Hcs Hfa Hx1 Hag)
    as (_ & _ & _ & Hx & _).
  assert (H30 : (19 <= 30 <= 30)%nat) by lia.
  pose proof (Hx 30%nat H30) as Hl.
  change (x_slot 30) with 0x98 in Hl.
  assert (Hgo : pc (ret 30 r) = finish).
  { unfold ret, set_pc. cbn [pc]. rewrite Hlr. subst e ctx made.
    rewrite Hl, Hframe. exact Hret. }
  split; [exact Hgo |].
  unfold continue. rewrite Hgo, Z.eqb_refl. apply arm64_finish_exits.
Qed.

(** X16: on linux arm64 a switch into the context a suspended call left
    in [*ofc] resumes that call: control is at its link register, the
    stack pointer is as at the call, [x19 .. x30] and [d8 .. d15] are
    back, and [x0] holds the value the switcher passed. *)
Theorem arm64_resume_restores_call (a b : state) :
  saved_are_words a -> can_suspend a ->
  let ctx := load64 (memory (bthread_jump_fcontext a)) (x a 0) in
  can_suspend b -> frame_apart b ctx -> x b 1 = ctx ->
  agree (memory b) (memory (bthread_jump_fcontext a)) ctx 0xb0 ->
  let e := bthread_jump_fcontext b in
  ctx = sp a - 0xb0 /\
  pc e = x a 30 /\
  sp e = sp a /\
  x e 0 = x b 2 /\
  (forall n, (19 <= n <= 30)%nat -> x e n = x a n) /\
  (forall n, (8 <= n <= 15)%nat -> d e n = d a n).
Proof.
  intros (Hxw & Hdw) Hca.
  assert (H30 : (19 <= 30 <= 30)%nat) by lia.
  destruct (jump_saves_resume a Hca (Hxw 30%nat H30)) as (Spc & Sofc).
  cbv zeta. rewrite Sofc. intros Hcs Hfa Hx1 Hag.
  destruct (arm64_enter_frame (sp a - 0xb0) b (memory (bthread_jump_fcontext a))
              Hcs Hfa Hx1 Hag) as (_ & Hsp & Hpc & Hx & Hd).
  split; [reflexivity |].
  split; [rewrite Hpc; exact Spc |].
  split; [rewrite Hsp; lia |].
  split; [apply jump_value |].
  split.
  - intros n Hn. rewrite (Hx n Hn). apply jump_saves_x; [exact Hca | exact Hn |].
    apply Hxw, Hn.
  - intros n Hn. rewrite (Hd n Hn).
    apply Arm64Facts.jump_saves_d; [exact Hca | exact Hn |]. apply Hdw, Hn.
Qed.

(** X17: on linux arm64 a switch writes nothing but the [0xb0] bytes
    below the stack pointer it was called with and the eight bytes of
    [*ofc]. *)
Theorem arm64_switch_writes_only_frame_and_slot (s : state) (x0 : Z) :
  can_suspend s -> 0 <= x0 < 2 ^ 64 ->
  x0 < sp s - 0xb0 \/ sp s <= x0 ->
  x0 < x s 0 \/ x s 0 + 8 <= x0 ->
  memory (bthread_jump_fcontext s) x0 = memory s x0.
Proof. intros Hcs Hx Hf Hs. apply jump_outside; assumption. Qed.

End Arm64Extras.

(** ** apple x86_64 against linux x86_64 *)

Module AppleExtras.
Import X86_64.

(** X18: the apple x86_64 routines behave as the linux x86_64 ones: the
    switch has the same outcome from every state, the block at [finish] exits
    with status 0, and [bthread_make_fcontext] returns the same frame
    pointer, leaves the same memory, flags and control state and returns
    to the same address; the one difference is that it leaves the mask
    [2 ^ 64 - 16] in [%r8]. *)
Theorem apple_routines_match_linux (finish : Z) (s : state) :
  AppleX86_64.bthread_jump_fcontext s = bthread_jump_fcontext s /\
  AppleX86_64.finish_block s = Exited 0 /\
  let a := AppleX86_64.bthread_make_fcontext finish s in
  let l := bthread_make_fcontext finish s in
  (forall r, r <> R8 -> get r a = get r l) /\
  get R8 a = 2 ^ 64 - 16 /\
  memory a = memory l /\
  rip a = rip l /\ zf a = zf l /\ mxcsr a = mxcsr l /\ fpucw a = fpucw l.
Proof.
  split.
  { cbv beta iota delta
      [AppleX86_64.bthread_jump_fcontext bthread_jump_fcontext andthen exec seq].
    reflexivity. }
  split; [apply X86Facts.finish_block_exits |].
  destruct s as [rg ip z mx cw m].
  cbv beta iota zeta delta
    [AppleX86_64.bthread_make_fcontext AppleX86_64.movabs AppleX86_64.andq_reg
     bthread_make_fcontext seq leaq leaq_label movq andq stmxcsr fnstcw
     movq_store ret get set set_mem set_zf set_rip set_mxcsr set_fpucw
     regs zf memory mxcsr fpucw rip reg_eqb].
  split.
  { intros r Hr. destruct r; try reflexivity. contradiction. }
  repeat split; reflexivity.
Qed.

End AppleExtras.

(** ** The further x86_64 properties on the sample run *)

Module X86ExtraExamples.
Import X86_64 MachineIntFacts MemoryFacts ContextExamples.

Lemma far_address : 0 <= 0x100 < 2 ^ 64.
Proof. lia. Qed.

Lemma far_from_frame :
  0x100 < get RSP (jump_call 1) - 56 \/ get RSP (jump_call 1) <= 0x100.
Proof. left. numbers. Qed.

Lemma far_from_slot :
  0x100 < get RDI (jump_call 1) \/ get RDI (jump_call 1) + 8 <= 0x100.
Proof. left. numbers. Qed.

Lemma switch_writes_only_frame_and_slot_witness :
  (can_suspend (jump_call 1) /\ 0 <= 0x100 < 2 ^ 64 /\
   (0x100 < get RSP (jump_call 1) - 56 \/ get RSP (jump_call 1) <= 0x100) /\
   (0x100 < get RDI (jump_call 1) \/ get RDI (jump_call 1) + 8 <= 0x100)) /\
  memory (state_of (bthread_jump_fcontext (jump_call 1))) 0x100 =
  memory (jump_call 1) 0x100.
Proof.
  split.
  { exact (conj jump_call_can_suspend (conj far_address
             (conj far_from_frame far_from_slot))). }
  exact (X86Extras.switch_writes_only_frame_and_slot (jump_call 1) 0x100
           jump_call_can_suspend far_address far_from_frame far_from_slot).
Defined.

Lemma entry_stack_is_abi_aligned_witness :
  (well_formed make_call /\ mxcsr_ok make_call /\ word finish_at /\
   0x50 <= get RDI make_call /\
   can_suspend (jump_call 1) /\
   frame_apart (jump_call 1)
     (get RAX (bthread_make_fcontext finish_at make_call)) 0x48 /\
   get RSI (jump_call 1) = get RAX (bthread_make_fcontext finish_at make_call) /\
   agree (memory (jump_call 1)) (memory (bthread_make_fcontext finish_at make_call))
     (get RAX (bthread_make_fcontext finish_at make_call)) 0x48) /\
  exists e, bthread_jump_fcontext (jump_call 1) = Done e /\
    (get RSP e + 8) mod 16 = 0.
Proof.
  split.
  { exact (conj make_call_well_formed (conj make_call_mxcsr_ok
             (conj finish_at_word (conj make_call_top
                (conj jump_call_can_suspend (conj jump_call_frame_apart
                   (conj jump_call_target jump_call_frame_intact))))))). }
  destruct (X86Extras.entry_stack_is_abi_aligned finish_at make_call (jump_call 1)
              make_call_well_formed make_call_mxcsr_ok finish_at_word make_call_top
              jump_call_can_suspend jump_call_frame_apart jump_call_target
              jump_call_frame_intact)
    as (e & He & Hal & _).
  exists e. exact (conj He Hal).
Defined.

Lemma fresh_context_fpu_control_witness :
  (well_formed make_call /\ mxcsr_ok make_call /\ word finish_at /\
   0x50 <= get RDI make_call /\
   can_suspend (jump_call 1) /\
   frame_apart (jump_call 1)
     (get RAX (bthread_make_fcontext finish_at make_call)) 0x48 /\
   get RSI (jump_call 1) = get RAX (bthread_make_fcontext finish_at make_call) /\
   agree (memory (jump_call 1)) (memory (bthread_make_fcontext finish_at make_call))
     (get RAX (bthread_make_fcontext finish_at make_call)) 0x48 /\
   get RCX (jump_call 1) <> 0) /\
  exists e, bthread_jump_fcontext (jump_call 1) = Done e /\
    mxcsr e = mxcsr make_call /\
    fpucw e = fpucw make_call.
Proof.
  split.
  { exact (conj make_call_well_formed (conj make_call_mxcsr_ok
             (conj finish_at_word (conj make_call_top
                (conj jump_call_can_suspend (conj jump_call_frame_apart
                   (conj jump_call_target (conj jump_call_frame_intact
                      jump_call_preserves)))))))). }
  destruct (X86Extras.fresh_context_fpu_control finish_at make_call (jump_call 1)
              make_call_well_formed make_call_mxcsr_ok finish_at_word make_call_top
              jump_call_can_suspend jump_call_frame_apart jump_call_target
              jump_call_frame_intact)
    as (e & He & Hset & _).
  exists e. exact (conj He (Hset jump_call_preserves)).
Defined.


End X86ExtraExamples.

(** ** The further arm64 properties on the sample run *)

Module Arm64ExtraExamples.
Import Arm64 MachineIntFacts MemoryFacts.

Ltac arm_numbers :=
  cbv [can_suspend frame_apart in_range disjoint x d sp pc
       make_call first_jump switch_back finish_at entry_at];
  try lia.

Lemma arm_memory_mkState (xr dr : nat -> Z) (p c : Z) (m : mem) :
  memory (mkState xr dr p c m) = m.
Proof. reflexivity. Qed.

Example arm_made_frame_value :
  x (bthread_make_fcontext finish_at make_call) 0 = 0x2ff50.
Proof. vm_compute. reflexivity. Qed.

Example arm_suspended_ctx_value :
  load64 (memory (bthread_jump_fcontext first_jump)) (x first_jump 0) = 0x6f50.
Proof. vm_compute. reflexivity. Qed.

Example arm_first_switch_run :
  pc (bthread_jump_fcontext first_jump) = entry_at /\
  x (bthread_jump_fcontext first_jump) 0 = 42 /\
  x (bthread_jump_fcontext first_jump) 30 = finish_at /\
  sp (bthread_jump_fcontext first_jump) = 0x30000.
Proof. repeat split; vm_compute; reflexivity. Qed.

Example arm_switch_back_run :
  pc (bthread_jump_fcontext switch_back) = 0x400200 /\
  x (bthread_jump_fcontext switch_back) 0 = 7 /\
  x (bthread_jump_fcontext switch_back) 19 = 19 /\
  d (bthread_jump_fcontext switch_back) 8 = 108 /\
  sp (bthread_jump_fcontext switch_back) = 0x7000.
Proof. repeat split; vm_compute; reflexivity. Qed.

Lemma arm_make_call_top_word : 0 <= x make_call 0 < 2 ^ 64.
Proof. arm_numbers. Qed.

Lemma arm_make_call_top : 0xc0 <= x make_call 0.
Proof. arm_numbers. Qed.

Lemma arm_make_call_fn : 0 <= x make_call 2 < 2 ^ 64.
Proof. arm_numbers. Qed.

Lemma arm_finish_at_word : 0 <= finish_at < 2 ^ 64.
Proof. arm_numbers. Qed.

Lemma first_jump_can_suspend : can_suspend first_jump.
Proof. arm_numbers. Qed.

Lemma first_jump_frame_apart :
  frame_apart first_jump (x (bthread_make_fcontext finish_at make_call) 0).
Proof. rewrite arm_made_frame_value. arm_numbers. Qed.

Lemma first_jump_target :
  x first_jump 1 = x (bthread_make_fcontext finish_at make_call) 0.
Proof. lazy. reflexivity. Qed.

Lemma first_jump_frame_intact :
  agree (memory first_jump) (memory (bthread_make_fcontext finish_at make_call))
        (x (bthread_make_fcontext finish_at make_call) 0) 0xb0.
Proof.
  unfold first_jump. rewrite arm_memory_mkState. intros x0 _. reflexivity.
Qed.

Lemma arm_entry_returns_lr :
  x entry_returns 30 = x (bthread_jump_fcontext first_jump) 30.
Proof. lazy. reflexivity. Qed.

Lemma first_jump_saved_are_words : saved_are_words first_jump.
Proof.
  split.
  - intros n Hn. cbv [x first_jump].
    do 31 (destruct n as [| n]; [lia |]). lia.
  - intros n Hn. cbv [d first_jump]. lia.
Qed.

Lemma arm_switch_back_can_suspend : can_suspend switch_back.
Proof. arm_numbers. Qed.

Lemma arm_switch_back_frame_apart :
  frame_apart switch_back
    (load64 (memory (bthread_jump_fcontext first_jump)) (x first_jump 0)).
Proof. rewrite arm_suspended_ctx_value. arm_numbers. Qed.

Lemma arm_switch_back_target :
  x switch_back 1 =
  load64 (memory (bthread_jump_fcontext first_jump)) (x first_jump 0).
Proof. lazy. reflexivity. Qed.

Lemma arm_switch_back_frame_intact :
  agree (memory switch_back) (memory (bthread_jump_fcontext first_jump))
    (load64 (memory (bthread_jump_fcontext first_jump)) (x first_jump 0)) 0xb0.
Proof.
  unfold switch_back. rewrite arm_memory_mkState. intros x0 _. reflexivity.
Qed.

Lemma arm_far_address : 0 <= 0x100 < 2 ^ 64.
Proof. lia. Qed.

Lemma arm_far_from_frame :
  0x100 < sp first_jump - 0xb0 \/ sp first_jump <= 0x100.
Proof. left. arm_numbers. Qed.

Lemma arm_far_from_slot :
  0x100 < x first_jump 0 \/ x first_jump 0 + 8 <= 0x100.
Proof. left. arm_numbers. Qed.

Lemma saved_register_19 : (19 <= 19 <= 30)%nat.
Proof. lia. Qed.

Lemma arm64_make_fcontext_sets_up_frame_witness :
  (0 <= x make_call 0 < 2 ^ 64 /\ 0xc0 <= x make_call 0 /\
   0 <= x make_call 2 < 2 ^ 64 /\ 0 <= finish_at < 2 ^ 64) /\
  x (bthread_make_fcontext finish_at make_call) 0 mod 16 = 0 /\
  load64 (memory (bthread_make_fcontext finish_at make_call))
         (x (bthread_make_fcontext finish_at make_call) 0 + 0xa0) = x make_call 2.
Proof.
  split.
  { exact (conj arm_make_call_top_word (conj arm_make_call_top
             (conj arm_make_call_fn arm_finish_at_word))). }
  destruct (Arm64Extras.arm64_make_fcontext_sets_up_frame finish_at make_call
              arm_make_call_top_word arm_make_call_top arm_make_call_fn
              arm_finish_at_word)
    as (Hmod & _ & Hentry & _).
  split; [exact Hmod | exact Hentry].
Defined.

Lemma arm64_first_switch_enters_witness :
  (0 <= x make_call 0 < 2 ^ 64 /\ 0xc0 <= x make_call 0 /\
   0 <= x make_call 2 < 2 ^ 64 /\ 0 <= finish_at < 2 ^ 64 /\
   can_suspend first_jump /\
   frame_apart first_jump (x (bthread_make_fcontext finish_at make_call) 0) /\
   x first_jump 1 = x (bthread_make_fcontext finish_at make_call) 0 /\
   agree (memory first_jump) (memory (bthread_make_fcontext finish_at make_call))
         (x (bthread_make_fcontext finish_at make_call) 0) 0xb0) /\
  pc (bthread_jump_fcontext first_jump) = x make_call 2 /\
  x (bthread_jump_fcontext first_jump) 0 = x first_jump 2.
Proof.
  split.
  { exact (conj arm_make_call_top_word (conj arm_make_call_top
             (conj arm_make_call_fn (conj arm_finish_at_word
                (conj first_jump_can_suspend (conj first_jump_frame_apart
                   (conj first_jump_target first_jump_frame_intact))))))). }
  destruct (Arm64Extras.arm64_first_switch_enters finish_at make_call first_jump
              arm_make_call_top_word arm_make_call_top arm_make_call_fn
              arm_finish_at_word first_jump_can_suspend first_jump_frame_apart
              first_jump_target first_jump_frame_intact)
    as (Hpc & Hval & _).
  split; [exact Hpc | exact Hval].
Defined.

Lemma arm64_entry_return_exits_witness :
  (0 <= x make_call 0 < 2 ^ 64 /\ 0xc0 <= x make_call 0 /\
   0 <= x make_call 2 < 2 ^ 64 /\ 0 <= finish_at < 2 ^ 64 /\
   can_suspend first_jump /\
   frame_apart first_jump (x (bthread_make_fcontext finish_at make_call) 0) /\
   x first_jump 1 = x (bthread_make_fcontext finish_at make_call) 0 /\
   agree (memory first_jump) (memory (bthread_make_fcontext finish_at make_call))
         (x (bthread_make_fcontext finish_at make_call) 0) 0xb0 /\
   x entry_returns 30 = x (bthread_jump_fcontext first_jump) 30) /\
  pc (ret 30 entry_returns) = finish_at /\
  continue finish_at (ret 30 entry_returns) = Exited 0.
Proof.
  split.
  { exact (conj arm_make_call_top_word (conj arm_make_call_top
             (conj arm_make_call_fn (conj arm_finish_at_word
                (conj first_jump_can_suspend (conj first_jump_frame_apart
                   (conj first_jump_target (conj first_jump_frame_intact
                      arm_entry_returns_lr)))))))). }
  exact (Arm64Extras.arm64_entry_return_exits finish_at make_call first_jump
           entry_returns
           arm_make_call_top_word arm_make_call_top arm_make_call_fn
           arm_finish_at_word first_jump_can_suspend first_jump_frame_apart
           first_jump_target first_jump_frame_intact arm_entry_returns_lr).
Defined.

Lemma arm64_resume_restores_call_witness :
  (saved_are_words first_jump /\ can_suspend first_jump /\
   can_suspend switch_back /\
   frame_apart switch_back
     (load64 (memory (bthread_jump_fcontext first_jump)) (x first_jump 0)) /\
   x switch_back 1 =
     load64 (memory (bthread_jump_fcontext first_jump)) (x first_jump 0) /\
   agree (memory switch_back) (memory (bthread_jump_fcontext first_jump))
     (load64 (memory (bthread_jump_fcontext first_jump)) (x first_jump 0)) 0xb0) /\
  pc (bthread_jump_fcontext switch_back) = x first_jump 30 /\
  sp (bthread_jump_fcontext switch_back) = sp first_jump /\
  x (bthread_jump_fcontext switch_back) 19 = x first_jump 19.
Proof.
  split.
  { exact (conj first_jump_saved_are_words (conj first_jump_can_suspend
             (conj arm_switch_back_can_suspend (conj arm_switch_back_frame_apart
                (conj arm_switch_back_target arm_switch_back_frame_intact))))). }
  destruct (Arm64Extras.arm64_resume_restores_call first_jump switch_back
              first_jump_saved_are_words first_jump_can_suspend
              arm_switch_back_can_suspend arm_switch_back_frame_apart
              arm_switch_back_target arm_switch_back_frame_intact)
    as (_ & Hpc & Hsp & _ & Hx & _).
  split; [exact Hpc |]. split; [exact Hsp |].
  exact (Hx 19%nat saved_register_19).
Defined.

Lemma arm64_switch_writes_only_frame_and_slot_witness :
  (can_suspend first_jump /\ 0 <= 0x100 < 2 ^ 64 /\
   (0x100 < sp first_jump - 0xb0 \/ sp first_jump <= 0x100) /\
   (0x100 < x first_jump 0 \/ x first_jump 0 + 8 <= 0x100)) /\
  memory (bthread_jump_fcontext first_jump) 0x100 = memory first_jump 0x100.
Proof.
  split.
  { exact (conj first_jump_can_suspend (conj arm_far_address
             (conj arm_far_from_frame arm_far_from_slot))). }
  exact (Arm64Extras.arm64_switch_writes_only_frame_and_slot first_jump 0x100
           first_jump_can_suspend arm_far_address arm_far_from_frame
           arm_far_from_slot).
Defined.

End Arm64ExtraExamples.

(** ** Memory of the 32-bit targets *)

Module Memory32Facts.
Import MachineIntFacts.

Lemma wrap_u32_small (z : Z) : 0 <= z < 2 ^ 32 -> wrap_u32 z = z.
Proof. intros H. unfold wrap_u32. apply Z.mod_small; lia. Qed.

Lemma wrap_u32_negative (z : Z) : - 2 ^ 32 <= z < 0 -> wrap_u32 z = z + 2 ^ 32.
Proof.
  intros H. unfold wrap_u32.
  replace z with ((z + 2 ^ 32) + (-1) * 2 ^ 32) at 1 by lia.
  rewrite Z.mod_add by lia. apply Z.mod_small; lia.
Qed.

Lemma wrap_u32_range (z : Z) : 0 <= wrap_u32 z < 2 ^ 32.
Proof. unfold wrap_u32. apply Z.mod_pos_bound. lia. Qed.

Lemma wrap_u32_sub_l (a b : Z) : wrap_u32 (wrap_u32 a - b) = wrap_u32 (a - b).
Proof. unfold wrap_u32. apply Zminus_mod_idemp_l. Qed.

Lemma load_ext (k : nat) (m1 m2 : mem) (b : Z) :
  (forall j, 0 <= j < Z.of_nat k -> m1 (wrap_u32 (b + j)) = m2 (wrap_u32 (b + j))) ->
  load k m1 b = load k m2 b.
Proof.
  revert b. induction k as [| k IH]; intros b H; [reflexivity |].
  cbn [load]. f_equal.
  - specialize (H 0). rewrite Z.add_0_r in H. apply H. lia.
  - f_equal. apply IH. intros j Hj.
    replace (b + 1 + j) with (b + (1 + j)) by lia. apply H. lia.
Qed.

(** Loads see addresses modulo [2 ^ 32]. *)
Lemma load_same_address (k : nat) (m : mem) (a b : Z) :
  wrap_u32 a = wrap_u32 b -> load k m a = load k m b.
Proof.
  revert a b. induction k as [| k IH]; intros a b H; [reflexivity |].
  cbn [load]. rewrite H. f_equal. f_equal. apply IH.
  unfold wrap_u32 in *.
  rewrite <- (Zplus_mod_idemp_l a), <- (Zplus_mod_idemp_l b), H. reflexivity.
Qed.

Lemma load_wrap (k : nat) (m : mem) (a : Z) :
  load k m (wrap_u32 a) = load k m a.
Proof.
  apply load_same_address. unfold wrap_u32. apply Z.mod_mod. lia.
Qed.

(** A byte outside the range a store writes keeps its value. *)
Lemma store_outside (n : nat) (a v : Z) (m : mem) (x0 : Z) :
  in_range32 a (Z.of_nat n) -> 0 <= x0 < 2 ^ 32 ->
  x0 < a \/ a + Z.of_nat n <= x0 ->
  store n a v m x0 = m x0.
Proof.
  unfold in_range32, store. intros [Ha Hn] Hx Hout.
  destruct (Z.ltb_spec (wrap_u32 (x0 - a)) (Z.of_nat n)) as [Hlt | Hge]; [| reflexivity].
  exfalso. destruct Hout as [Hout | Hout].
  - rewrite wrap_u32_negative in Hlt by lia. lia.
  - rewrite wrap_u32_small in Hlt by lia. lia.
Qed.

Lemma load_store_apart (k n : nat) (a b v : Z) (m : mem) :
  in_range32 a (Z.of_nat n) -> in_range32 b (Z.of_nat k) ->
  disjoint a (Z.of_nat n) b (Z.of_nat k) ->
  load k (store n a v m) b = load k m b.
Proof.
  intros Ha Hb Hd. apply load_ext. intros j Hj.
  unfold in_range32, disjoint in *.
  rewrite wrap_u32_small by lia.
  apply store_outside; [exact Ha | lia | lia].
Qed.

Lemma load_store_from (k n : nat) (a v j : Z) (m : mem) :
  0 <= j -> j + Z.of_nat k <= Z.of_nat n -> Z.of_nat n <= 2 ^ 32 ->
  load k (store n a v m) (a + j) =
  (v / 2 ^ (8 * j)) mod 2 ^ (8 * Z.of_nat k).
Proof.
  revert j. induction k as [| k IH]; intros j Hj Hjk Hn.
  - cbn. rewrite Z.mod_1_r. reflexivity.
  - cbn [load].
    replace (a + j + 1) with (a + (j + 1)) by lia.
    rewrite IH by lia.
    unfold store at 1.
    replace (wrap_u32 (wrap_u32 (a + j) - a)) with j.
    2:{ rewrite wrap_u32_sub_l. replace (a + j - a) with j by lia.
        symmetry. apply wrap_u32_small. lia. }
    destruct (Z.ltb_spec j (Z.of_nat n)) as [_ | Hge]; [| lia].
    unfold byte_of.
    replace (8 * Z.of_nat (S k)) with (8 + 8 * Z.of_nat k) by lia.
    replace (8 * (j + 1)) with (8 * j + 8) by lia.
    rewrite !Z.pow_add_r by lia.
    change (2 ^ 8) with 256.
    rewrite <- Z.div_div by (try lia; apply Z.pow_pos_nonneg; lia).
    rewrite Z.rem_mul_r by (try lia; apply Z.pow_nonzero; lia).
    reflexivity.
Qed.

Lemma load_store_hit (n : nat) (a v : Z) (m : mem) :
  Z.of_nat n <= 2 ^ 32 -> 0 <= v < 2 ^ (8 * Z.of_nat n) ->
  load n (store n a v m) a = v.
Proof.
  intros Hn Hv.
  replace a with (a + 0) at 2 by lia.
  rewrite load_store_from by lia.
  rewrite Z.mul_0_r, Z.pow_0_r, Z.div_1_r. apply Z.mod_small. exact Hv.
Qed.

Lemma load_store_hit_at (n : nat) (a b v : Z) (m : mem) :
  b = a -> Z.of_nat n <= 2 ^ 32 -> 0 <= v < 2 ^ (8 * Z.of_nat n) ->
  load n (store n a v m) b = v.
Proof. intros ->. apply load_store_hit. Qed.

Lemma load_agree (k : nat) (m1 m2 : mem) (a n b : Z) :
  agree m1 m2 a n -> 0 <= b -> b + Z.of_nat k <= 2 ^ 32 ->
  a <= b -> b + Z.of_nat k <= a + n ->
  load k m1 b = load k m2 b.
Proof.
  intros Hag Hb Hk Hlo Hhi. apply load_ext. intros j Hj.
  rewrite wrap_u32_small by lia. apply Hag. lia.
Qed.

Lemma agree_chain (m1 m2 m3 : mem) (a n : Z) :
  agree m1 m2 a n -> agree m2 m3 a n -> agree m1 m3 a n.
Proof. intros H12 H23 x0 Hx. rewrite (H12 x0 Hx). apply H23, Hx. Qed.

(** Clearing the low four bits of a 32-bit value. *)
Lemma land_mask16_u32 (v : Z) :
  0 <= v < 2 ^ 32 -> Z.land (wrap_u32 (-16)) v = v - v mod 16.
Proof.
  intros Hv.
  change (wrap_u32 (-16)) with (Z.land (Z.lnot (2 ^ 4 - 1)) (Z.ones 32)).
  rewrite <- Z.land_assoc, (Z.land_comm (Z.ones 32) v), Z.land_ones by lia.
  rewrite (Z.mod_small v) by lia.
  rewrite Z.land_comm, land_lnot_pow2 by lia.
  reflexivity.
Qed.

End Memory32Facts.

(** ** linux i386 *)

Module I386Facts.
Import I386 MachineIntFacts Memory32Facts.

Ltac run :=
  cbv beta iota zeta delta
    [save_context restore_context bthread_make_fcontext bthread_jump_fcontext
     seq movl_load movl_store movl pushl popl leal andl addl xorl test je
     stmxcsr fnstcw ldmxcsr fldcw jmp ret call_next arg
     exec andthen je_over state_of
     get set set_mem set_zf set_eip set_mxcsr set_fpucw
     regs zf memory mxcsr fpucw eip reg_eqb] in *.

Ltac unwrap :=
  repeat match goal with
  | |- context [wrap_u32 ?z] =>
      lazymatch z with context [wrap_u32 _] => fail | _ => idtac end;
      rewrite (wrap_u32_small z) by lia
  end.

Ltac mem_side := unfold in_range32, disjoint in *; lia.

Ltac loads :=
  unfold loadd, loadw, loadh, stored, storew, storeh in *;
  repeat match goal with
  | |- context [load ?k (store ?n ?a ?v ?m) ?b] =>
      first [ rewrite (load_store_apart k n a b v m) by mem_side
            | rewrite (load_store_hit_at n a b v m) by (cbn; lia) ]
  end.

Ltac bytes :=
  unfold stored, storew, storeh in *;
  repeat match goal with
  | |- context [store ?n ?a ?v ?m ?x0] =>
      rewrite (store_outside n a v m x0) by mem_side
  end.

(** Brings the addresses of loads into one form. *)
Ltac addrs :=
  repeat match goal with
  | |- context [load ?k ?m ?a] =>
      lazymatch a with
      | context [load _ _ _] => fail
      | context [wrap_u32 _] => fail
      | _ => idtac
      end;
      progress ring_simplify a
  end.

Ltac simp := repeat (progress (unwrap; loads; addrs)).

Ltac open_state s :=
  unfold can_suspend, frame_apart, well_formed, word, in_range32, disjoint;
  destruct s as [rg ip z mx cw m]; run;
  rewrite ?Z.land_diag;
  change (4 * 1) with 4 in *; change (4 * 2) with 8 in *;
  change (4 * 3) with 12 in *; change (4 * 4) with 16 in *.

(** Case analysis on the [preserve_fpu] argument word at [0x10(%esp)]. *)
Ltac flag m E :=
  rewrite ?(wrap_u32_small (E + 16)) by lia;
  destruct (Z.eqb_spec (loadw m (E + 16)) 0);
  cbv beta iota.

Lemma i386_jump_split (s : state) :
  bthread_jump_fcontext s = restore_context (save_context s).
Proof.
  cbv beta iota delta
    [bthread_jump_fcontext restore_context save_context andthen exec seq].
  reflexivity.
Qed.

(** *** The first half: saving the running context *)

Lemma save_context_esp (s : state) :
  can_suspend s -> get ESP (save_context s) = get ESP s - 24.
Proof.
  open_state s. intros (H1 & H2 & H3 & H4).
  flag m (rg ESP); unwrap; lia.
Qed.

Lemma i386_save_context_regs (s : state) (r : reg) :
  r <> ESP -> r <> ECX -> r <> EAX -> get r (save_context s) = get r s.
Proof.
  intros Hr1 Hr2 Hr3. open_state s.
  destruct (loadw m (wrap_u32 (rg ESP + 16)) =? 0);
    destruct r; try reflexivity; contradiction.
Qed.

(** [%ecx] holds the [preserve_fpu] argument. *)
Lemma save_context_flag (s : state) :
  can_suspend s -> get ECX (save_context s) = arg 4 s.
Proof.
  open_state s. intros (H1 & H2 & H3 & H4).
  flag m (rg ESP); reflexivity.
Qed.

Lemma i386_save_context_fpu (s : state) :
  mxcsr (save_context s) = mxcsr s /\ fpucw (save_context s) = fpucw s.
Proof.
  open_state s.
  destruct (loadw m (wrap_u32 (rg ESP + 16)) =? 0); split; reflexivity.
Qed.



(** The return address and the argument words above it are still in
    place. *)
Lemma save_context_args (s : state) (k : Z) :
  can_suspend s -> 0 <= k <= 4 ->
  loadw (memory (save_context s)) (get ESP s + 4 * k) = arg k s.
Proof.
  open_state s. intros (H1 & H2 & H3 & H4) Hk.
  flag m (rg ESP); simp; loads; reflexivity.
Qed.



(** Nothing is written outside the 24 bytes below [%esp] and the slot
    [*ofc]. *)
Lemma i386_save_context_outside (s : state) (x0 : Z) :
  can_suspend s -> 0 <= x0 < 2 ^ 32 ->
  x0 < get ESP s - 24 \/ get ESP s <= x0 ->
  x0 < arg 1 s \/ arg 1 s + 4 <= x0 ->
  memory (save_context s) x0 = memory s x0.
Proof.
  open_state s. intros (H1 & H2 & H3 & H4) Hx Ho1 Ho2.
  flag m (rg ESP); simp; bytes; reflexivity.
Qed.

Lemma i386_save_context_keeps (s : state) (ctx n : Z) :
  can_suspend s -> frame_apart s ctx n ->
  agree (memory (save_context s)) (memory s) ctx n.
Proof.
  intros Hs (Hc1 & Hc2 & Hd1 & Hd2) x0 Hx.
  pose proof Hs as (H1 & H2 & H3 & H4).
  unfold in_range32, disjoint in *.
  apply i386_save_context_outside; [exact Hs | lia | lia | lia].
Qed.

(** *** The second half: resuming the target context *)

Lemma i386_loadable_spec (v : Z) : loadable v = true <-> 0 <= v < 2 ^ 16.
Proof.
  unfold loadable. rewrite Z.eqb_eq, Z.shiftr_div_pow2 by lia.
  split; intros H.
  - apply Z.div_small_iff in H; lia.
  - apply Z.div_small. exact H.
Qed.

(** Case analysis on the two tests of the second half: [%ecx] against
    zero, and the word for MXCSR against the reserved bits. *)
Ltac i386_outcomes rg :=
  destruct (rg ECX =? 0) eqn:Eflag; cbv beta iota;
  [| match goal with
     | |- context [loadable ?v] => destruct (loadable v) eqn:Eload; cbv beta iota
     end].

Ltac open_restore t :=
  destruct t as [rg ip z mx cw m]; run; rewrite ?Z.land_diag.

(** The second half runs to its end when [%ecx], the [preserve_fpu]
    argument, is zero, and when the first word of the frame at [nfc] is
    loadable into MXCSR. *)
Lemma i386_restore_context_completes (t : state) :
  let m := memory t in
  let nfc := loadw m (get ESP t + 0x20) in
  0 <= get ESP t -> get ESP t + 0x28 <= 2 ^ 32 ->
  0 <= nfc -> nfc + 0x24 <= 2 ^ 32 ->
  get ECX t = 0 \/ loadable (loadw m nfc) = true ->
  exists e, restore_context t = Done e.
Proof.
  open_restore t. intros H1 H2 H3 H4 Hok.
  rewrite (wrap_u32_small (rg ESP + 32)) by lia.
  rewrite (wrap_u32_small (loadw m (rg ESP + 32) + 0)) by lia.
  rewrite Z.add_0_r.
  i386_outcomes rg; try (eexists; reflexivity).
  exfalso. apply Z.eqb_neq in Eflag.
  destruct Hok as [Hz | Hl]; [contradiction | discriminate Hl].
Qed.



(** The registers come out of the frame at [nfc], the jump goes to the
    address in its slot at [0x18], [%esp] ends right above that slot, and
    the transfer value arrives in [%eax] and, the one store of this half,
    in the word 4 above the new [%esp]. *)
Lemma i386_restore_context_frame (t e : state) :
  let m := memory t in
  let nfc := loadw m (get ESP t + 0x20) in
  let vp := loadw m (get ESP t + 0x24) in
  0 <= get ESP t -> get ESP t + 0x28 <= 2 ^ 32 ->
  0 <= nfc -> nfc + 0x24 <= 2 ^ 32 ->
  restore_context t = Done e ->
  get EDI e = loadw m (nfc + 0x8) /\
  get ESI e = loadw m (nfc + 0xc) /\
  get EBX e = loadw m (nfc + 0x10) /\
  get EBP e = loadw m (nfc + 0x14) /\
  eip e = loadw m (nfc + 0x18) /\
  get ESP e = nfc + 0x1c /\
  get EAX e = vp /\
  memory e = storew (nfc + 0x20) vp m.
Proof.
  open_restore t. intros H1 H2 H3 H4.
  rewrite (wrap_u32_small (rg ESP + 32)) by lia.
  rewrite (wrap_u32_small (rg ESP + 36)) by lia.
  i386_outcomes rg; intros H; try discriminate H; injection H as <-;
    cbn [regs eip memory]; unwrap;
    repeat split; first [lia | f_equal; lia].
Qed.

(** MXCSR and the x87 control word are reloaded from the frame exactly
    when [%ecx], the [preserve_fpu] argument, is not zero. *)
Lemma i386_restore_context_fpu (t e : state) :
  let m := memory t in
  let nfc := loadw m (get ESP t + 0x20) in
  0 <= get ESP t -> get ESP t + 0x28 <= 2 ^ 32 ->
  0 <= nfc -> nfc + 0x24 <= 2 ^ 32 ->
  restore_context t = Done e ->
  mxcsr e = (if get ECX t =? 0 then mxcsr t else loadw m nfc) /\
  fpucw e = (if get ECX t =? 0 then fpucw t else loadh m (nfc + 4)).
Proof.
  open_restore t. intros H1 H2 H3 H4.
  rewrite (wrap_u32_small (rg ESP + 32)) by lia.
  i386_outcomes rg; intros H; try discriminate H; injection H as <-;
    cbn [mxcsr fpucw]; unwrap;
    split; first [reflexivity | f_equal; lia].
Qed.

(** *** [bthread_make_fcontext] *)

Lemma top_room (v : Z) : 0x38 <= v -> 0x30 <= v - 8 - (v - 8) mod 16.
Proof.
  intros Hv. rewrite (Z.mod_eq (v - 8) 16) by lia.
  replace (v - 8 - (v - 8 - 16 * ((v - 8) / 16))) with (16 * ((v - 8) / 16)) by lia.
  assert (3 <= (v - 8) / 16) by (apply Z.div_le_lower_bound; lia). lia.
Qed.

Lemma i386_make_fcontext_result (here finish : Z) (s : state) :
  can_make s -> word (arg 3 s) -> word here -> word finish ->
  0 <= mxcsr s < 2 ^ 32 -> 0 <= fpucw s < 2 ^ 16 ->
  let s' := bthread_make_fcontext here finish s in
  let frame := get EAX s' in
  frame = arg 1 s - 8 - (arg 1 s - 8) mod 16 - 0x20 /\
  loadw (memory s') (frame + 0x18) = arg 3 s /\
  loadw (memory s') (frame + 0x1c) = finish /\
  loadw (memory s') frame = mxcsr s /\
  loadh (memory s') (frame + 0x4) = fpucw s /\
  eip s' = arg 0 s /\
  get ESP s' = get ESP s + 4 /\
  (forall x0, 0 <= x0 < 2 ^ 32 ->
     x0 < frame \/ frame + 0x20 <= x0 ->
     x0 < get ESP s - 4 \/ get ESP s <= x0 ->
     memory s' x0 = memory s x0).
Proof.
  unfold can_make, word, disjoint, arg.
  destruct s as [rg ip z mx cw m]. run.
  change (4 * 1) with 4 in *. change (4 * 3) with 12 in *.
  change (4 * 0) with 0 in *. rewrite Z.add_0_r.
  intros (H1 & H2 & H3 & H4) Hfn Hhere Hfin Hmx Hcw.
  rewrite (wrap_u32_small (rg ESP + 4)) by lia.
  rewrite (wrap_u32_small (rg ESP + 12)) by lia.
  set (top := loadw m (rg ESP + 4)) in *.
  set (fn := loadw m (rg ESP + 12)) in *.
  clearbody top fn.
  rewrite (wrap_u32_small (top + -8)) by lia.
  rewrite (land_mask16_u32 (top + -8)) by lia.
  replace (top + -8) with (top - 8) by lia.
  pose proof (top_room top ltac:(lia)) as Hroom.
  pose proof (Z.mod_pos_bound (top - 8) 16 ltac:(lia)) as Hm.
  set (al := top - 8 - (top - 8) mod 16) in *.
  rewrite (wrap_u32_small (al + -32)) by lia.
  rewrite (wrap_u32_small (rg ESP - 4)) by lia.
  unfold loadw, loadh, storew, storeh in *.
  rewrite (load_store_hit_at 4 (rg ESP - 4) (rg ESP - 4) here) by (cbn; lia).
  replace (here + (finish - here)) with finish by lia.
  rewrite (wrap_u32_small finish) by lia.
  unwrap.
  replace (rg ESP - 4 + 4) with (rg ESP) by lia.
  split; [lia |].
  split; [loads; reflexivity |].
  split; [loads; reflexivity |].
  split; [loads; reflexivity |].
  split; [loads; reflexivity |].
  split; [loads; rewrite ?Z.add_0_r; reflexivity |].
  split; [reflexivity |].
  intros x0 Hx Hout1 Hout2. bytes. reflexivity.
Qed.

(** The size argument is not read. *)
Lemma make_fcontext_ignores_size (here finish : Z) (s : state) (v : Z) :
  4 <= get ESP s -> get ESP s + 0x10 <= 2 ^ 32 ->
  get EAX (bthread_make_fcontext here finish
             (set_mem (storew (get ESP s + 8) v (memory s)) s)) =
  get EAX (bthread_make_fcontext here finish s).
Proof.
  destruct s as [rg ip z mx cw m]. run. intros H1 H2.
  unwrap. loads. reflexivity.
Qed.

(** *** The block at [finish] *)

Lemma i386_finish_block_exits (here got : Z) (s : state) :
  finish_block here got s = Exited 0.
Proof.
  unfold finish_block, call_exit.
  destruct s as [rg ip z mx cw m]. run.
  rewrite Z.lxor_nilpotent.
  unfold loadw, storew.
  rewrite load_store_hit_at; [reflexivity | | cbn; lia | cbn; lia].
  unfold wrap_u32. rewrite Z.add_0_r, Z.mod_mod by lia. reflexivity.
Qed.

(** *** Switching into a context *)

Lemma i386_done_state (r : result) (e : state) : r = Done e -> state_of r = e.
Proof. intros ->. reflexivity. Qed.

(** The state the first half hands to the second: [%esp] 24 below, the
    arguments [nfc] and [vp] at [0x20] and [0x24] above it, [%ecx] the
    [preserve_fpu] argument. *)
Lemma save_context_handover (b : state) (ctx : Z) :
  can_suspend b -> frame_apart b ctx 0x24 -> arg 2 b = ctx ->
  let t := save_context b in
  loadw (memory t) (get ESP t + 0x20) = ctx /\
  loadw (memory t) (get ESP t + 0x24) = arg 3 b /\
  get ECX t = arg 4 b /\
  0 <= get ESP t /\ get ESP t + 0x28 <= 2 ^ 32 /\
  0 <= ctx /\ ctx + 0x24 <= 2 ^ 32.
Proof.
  intros Hcs Hfa Hnfc. cbv zeta.
  pose proof (save_context_esp b Hcs) as Hsp.
  pose proof (save_context_args b 2 Hcs ltac:(lia)) as Hn.
  pose proof (save_context_args b 3 Hcs ltac:(lia)) as Hv.
  pose proof (save_context_flag b Hcs) as Hcx.
  pose proof Hcs as (H1 & H2 & _).
  pose proof Hfa as (Hc0 & Hc1 & _).
  replace (get ESP (save_context b) + 0x20) with (get ESP b + 4 * 2) by lia.
  replace (get ESP (save_context b) + 0x24) with (get ESP b + 4 * 3) by lia.
  rewrite Hn, Hv, Hnfc, Hcx, Hsp.
  repeat split; lia.
Qed.


(** A switch runs to its end when [preserve_fpu] is clear, and when the
    first word of the frame at [nfc] is loadable into MXCSR. *)
Lemma i386_switch_completes (ctx : Z) (b : state) (m0 : mem) :
  can_suspend b -> frame_apart b ctx 0x24 -> arg 2 b = ctx ->
  agree (memory b) m0 ctx 0x20 ->
  arg 4 b = 0 \/ loadable (loadw m0 ctx) = true ->
  exists e, bthread_jump_fcontext b = Done e.
Proof.
  intros Hcs Hfa Hnfc Hag Hok.
  destruct (save_context_handover b ctx Hcs Hfa Hnfc)
    as (Hn & _ & Hcx & T1 & T2 & T3 & T4).
  assert (Hkeep : agree (memory (save_context b)) m0 ctx 0x20).
  { intros x0 Hx. rewrite <- (Hag x0 Hx).
    apply (i386_save_context_keeps b ctx 0x24 Hcs Hfa). lia. }
  rewrite i386_jump_split.
  pose proof (i386_restore_context_completes (save_context b)) as Hr.
  cbv zeta in Hr. rewrite Hn, Hcx in Hr. apply Hr; try assumption.
  unfold loadw in *.
  rewrite (load_agree 4 _ _ ctx 0x20 ctx Hkeep) by lia. exact Hok.
Qed.


(** A completed switch into a frame that reads as in [m0]. *)
Lemma i386_enter_frame (ctx : Z) (b e : state) (m0 : mem) :
  can_suspend b -> frame_apart b ctx 0x24 -> arg 2 b = ctx ->
  agree (memory b) m0 ctx 0x20 -> word (arg 3 b) ->
  bthread_jump_fcontext b = Done e ->
  eip e = loadw m0 (ctx + 0x18) /\
  get ESP e = ctx + 0x1c /\
  get EAX e = arg 3 b /\
  loadw (memory e) (ctx + 0x1c) = loadw m0 (ctx + 0x1c) /\
  loadw (memory e) (ctx + 0x20) = arg 3 b /\
  get EDI e = loadw m0 (ctx + 0x8) /\
  get ESI e = loadw m0 (ctx + 0xc) /\
  get EBX e = loadw m0 (ctx + 0x10) /\
  get EBP e = loadw m0 (ctx + 0x14) /\
  mxcsr e = (if arg 4 b =? 0 then mxcsr b else loadw m0 ctx) /\
  fpucw e = (if arg 4 b =? 0 then fpucw b else loadh m0 (ctx + 4)).
Proof.
  intros Hcs Hfa Hnfc Hag Hvp He.
  destruct (save_context_handover b ctx Hcs Hfa Hnfc)
    as (Hn & Hv & Hcx & T1 & T2 & T3 & T4).
  destruct (i386_save_context_fpu b) as (Smx & Scw).
  assert (Hkeep : agree (memory (save_context b)) m0 ctx 0x20).
  { intros x0 Hx. rewrite <- (Hag x0 Hx).
    apply (i386_save_context_keeps b ctx 0x24 Hcs Hfa). lia. }
  rewrite i386_jump_split in He.
  pose proof (i386_restore_context_frame (save_context b) e) as Hr.
  pose proof (i386_restore_context_fpu (save_context b) e) as Hf.
  cbv zeta in Hr, Hf. rewrite Hn in Hr, Hf. rewrite Hv in Hr.
  destruct Hr as (Rdi & Rsi & Rbx & Rbp & Rip & Rsp & Rax & Rmem);
    [assumption .. |].
  destruct Hf as (Rmx & Rcw); [assumption .. |].
  rewrite Rip, Rsp, Rax, Rmem, Rdi, Rsi, Rbx, Rbp, Rmx, Rcw.
  rewrite Hcx, Smx, Scw.
  unfold loadw, loadh, storew in *. unfold word in Hvp.
  rewrite (load_store_apart 4 4 (ctx + 0x20) (ctx + 0x1c))
    by (unfold in_range32, disjoint; lia).
  rewrite (load_store_hit 4 (ctx + 0x20)) by first [exact Hvp | cbn; lia].
  rewrite !(fun o => load_agree 4 _ _ ctx 0x20 (ctx + o) Hkeep) by lia.
  rewrite (load_agree 4 _ _ ctx 0x20 ctx Hkeep) by lia.
  rewrite (load_agree 2 _ _ ctx 0x20 (ctx + 4) Hkeep) by lia.
  repeat split; reflexivity.
Qed.



End I386Facts.

(** ** Properties of the linux i386 routines *)

Module I386Extras.
Import I386 MachineIntFacts Memory32Facts I386Facts.

(** X19: on linux i386 [bthread_make_fcontext] places the frame [0x20]
    bytes below the stack top lowered by 8 and rounded down to a multiple
    of 16, so the pointer it returns is a multiple of 16; the frame's slot
    at [0x18] holds the address of the entry function, its slot at [0x1c]
    the address of [finish], its first eight bytes MXCSR and the x87
    control word; the routine returns to its caller with the stack pointer
    above the return address; besides the frame it writes only the word
    below the caller's stack pointer; and the size argument plays no
    part. *)
Theorem i386_make_fcontext_sets_up_frame (here finish : Z) (s : state) :
  can_make s -> word (arg 3 s) -> word here -> word finish ->
  0 <= mxcsr s < 2 ^ 32 -> 0 <= fpucw s < 2 ^ 16 ->
  let s' := bthread_make_fcontext here finish s in
  let frame := get EAX s' in
  frame mod 16 = 0 /\
  arg 1 s - 23 <= frame + 0x20 <= arg 1 s - 8 /\
  loadw (memory s') (frame + 0x18) = arg 3 s /\
  loadw (memory s') (frame + 0x1c) = finish /\
  loadw (memory s') frame = mxcsr s /\
  loadh (memory s') (frame + 0x4) = fpucw s /\
  eip s' = arg 0 s /\
  get ESP s' = get ESP s + 4 /\
  (forall x0, 0 <= x0 < 2 ^ 32 ->
     x0 < frame \/ frame + 0x20 <= x0 ->
     x0 < get ESP s - 4 \/ get ESP s <= x0 ->
     memory s' x0 = memory s x0) /\
  (forall size,
     get EAX (bthread_make_fcontext here finish
                (set_mem (storew (get ESP s + 8) size (memory s)) s)) = frame).
Proof.
  intros Hcm Hfn Hhere Hfin Hmx Hcw s' frame.
  destruct (i386_make_fcontext_result here finish s Hcm Hfn Hhere Hfin Hmx Hcw)
    as (Hframe & Hentry & Hret & Lmx & Lcw & Hip & Hsp & Hout).
  pose proof Hcm as (H1 & H2 & H3 & _).
  pose proof (Z.mod_pos_bound (arg 1 s - 8) 16 ltac:(lia)) as Hm.
  subst frame s'.
  split.
  { rewrite Hframe.
    replace (arg 1 s - 8 - (arg 1 s - 8) mod 16 - 0x20)
      with (((arg 1 s - 8) / 16 - 2) * 16)
      by (rewrite (Z.mod_eq (arg 1 s - 8) 16) by lia; lia).
    apply Z.mod_mul. lia. }
  split; [rewrite Hframe; lia |].
  split; [exact Hentry |]. split; [exact Hret |].
  split; [exact Lmx |]. split; [exact Lcw |].
  split; [exact Hip |]. split; [exact Hsp |].
  split; [exact Hout |].
  intros size. apply make_fcontext_ignores_size; assumption.
Qed.

(** X20: on linux i386 the first switch into a fresh context, created by
    a caller whose MXCSR is one the register can hold, runs to its end and
    arrives at the entry function as a cdecl call would: the word at
    [%esp], where the function looks for its return address, is the
    address of [finish], the word above it, the first argument, is the
    transfer value, which is also in [%eax], and [%esp + 4] is a multiple
    of 16.  MXCSR and the x87 control word are those of the thread that
    made the context when [preserve_fpu] is set, and the switcher's
    otherwise. *)
Theorem i386_first_switch_enters (here finish : Z) (s0 b : state) :
  can_make s0 -> word (arg 3 s0) -> word here -> word finish ->
  0 <= mxcsr s0 < 2 ^ 32 -> 0 <= fpucw s0 < 2 ^ 16 -> mxcsr_ok s0 ->
  let made := bthread_make_fcontext here finish s0 in
  let ctx := get EAX made in
  can_suspend b -> frame_apart b ctx 0x24 -> arg 2 b = ctx ->
  agree (memory b) (memory made) ctx 0x20 -> word (arg 3 b) ->
  exists e, bthread_jump_fcontext b = Done e /\
    eip e = arg 3 s0 /\
    loadw (memory e) (get ESP e) = finish /\
    loadw (memory e) (get ESP e + 4) = arg 3 b /\
    get EAX e = arg 3 b /\
    (get ESP e + 4) mod 16 = 0 /\
    (arg 4 b <> 0 -> mxcsr e = mxcsr s0 /\ fpucw e = fpucw s0) /\
    (arg 4 b = 0 -> mxcsr e = mxcsr b /\ fpucw e = fpucw b).
Proof.
  intros Hcm Hfn Hhere Hfin Hmx Hcw Hok made ctx Hcs Hfa Hnfc Hag Hvp.
  destruct (i386_make_fcontext_result here finish s0 Hcm Hfn Hhere Hfin Hmx Hcw)
    as (Hframe & Hentry & Hret & Lmx & Lcw & _).
  destruct (i386_switch_completes ctx b (memory made) Hcs Hfa Hnfc Hag)
    as (e & He).
  { right. subst ctx made. rewrite Lmx. exact Hok. }
  exists e. split; [exact He |].
  destruct (i386_enter_frame ctx b e (memory made) Hcs Hfa Hnfc Hag Hvp He)
    as (Hip & Hsp & Hax & Hslot & Harg & _ & _ & _ & _ & Emx & Ecw).
  pose proof Hcm as (_ & _ & H3 & _).
  rewrite Hip, Hsp, Hax, Hslot, Emx, Ecw.
  replace (ctx + 0x1c + 4) with (ctx + 0x20) by lia. rewrite Harg.
  subst ctx made. rewrite Hentry, Hret, Lmx, Lcw.
  split; [reflexivity |]. split; [reflexivity |]. split; [reflexivity |].
  split; [reflexivity |].
  split.
  { rewrite Hframe.
    replace (arg 1 s0 - 8 - (arg 1 s0 - 8) mod 16 - 0x20 + 0x20)
      with (((arg 1 s0 - 8) / 16) * 16)
      by (rewrite (Z.mod_eq (arg 1 s0 - 8) 16) by lia; lia).
    apply Z.mod_mul. lia. }
  split; intros Hflag.
  - destruct (Z.eqb_spec (arg 4 b) 0) as [Hz | _]; [contradiction |].
    split; reflexivity.
  - rewrite Hflag. cbn [Z.eqb]. split; reflexivity.
Qed.

(** X21: on linux i386 a switch into a fresh context, created by a caller
    whose MXCSR is one the register can hold, runs to its end, and an
    entry function that returns with the stack pointer and the return
    address it was entered with arrives at [finish], where the block ends
    the process with status 0. *)
Theorem i386_entry_return_exits (here finish here2 got : Z) (s0 b r : state) :
  can_make s0 -> word (arg 3 s0) -> word here -> word finish ->
  0 <= mxcsr s0 < 2 ^ 32 -> 0 <= fpucw s0 < 2 ^ 16 -> mxcsr_ok s0 ->
  let made := bthread_make_fcontext here finish s0 in
  let ctx := get EAX made in
  can_suspend b -> frame_apart b ctx 0x24 -> arg 2 b = ctx ->
  agree (memory b) (memory made) ctx 0x20 -> word (arg 3 b) ->
  exists e, bthread_jump_fcontext b = Done e /\
    (get ESP r = get ESP e ->
     loadw (memory r) (get ESP r) = loadw (memory e) (get ESP e) ->
     eip (ret r) = finish /\
     continue finish here2 got (ret r) = Exited 0).
Proof.
  intros Hcm Hfn Hhere Hfin Hmx Hcw Hok made ctx Hcs Hfa Hnfc Hag Hvp.
  destruct (i386_make_fcontext_result here finish s0 Hcm Hfn Hhere Hfin Hmx Hcw)
    as (_ & _ & Hret & Lmx & _).
  destruct (i386_switch_completes ctx b (memory made) Hcs Hfa Hnfc Hag)
    as (e & He).
  { right. subst ctx made. rewrite Lmx. exact Hok. }
  exists e. split; [exact He |]. intros Hsp Hword.
  destruct (i386_enter_frame ctx b e (memory made) Hcs Hfa Hnfc Hag Hvp He)
    as (_ & Esp & _ & Hslot & _).
  assert (Hgo : eip (ret r) = finish).
  { unfold ret, set_eip. cbn [eip]. rewrite Hword.
    rewrite Esp, Hslot. subst ctx made. exact Hret. }
  split; [exact Hgo |].
  unfold continue. rewrite Hgo, Z.eqb_refl. apply i386_finish_block_exits.
Qed.



End I386Extras.

(** ** apple i386 against linux i386 *)

Module AppleI386Extras.
Import I386 MachineIntFacts Memory32Facts I386Facts.

Lemma apple_finish_block_exits (s : state) : AppleI386.finish_block s = Exited 0.
Proof.
  unfold AppleI386.finish_block, call_exit.
  destruct s as [rg ip z mx cw m]. run.
  rewrite Z.lxor_nilpotent, Z.add_0_r.
  unfold loadw, storew.
  rewrite <- (load_wrap 4 _ (rg ESP)).
  rewrite load_store_hit; [reflexivity | cbn; lia | cbn; lia].
Qed.

(** X24: the apple i386 routines are those of linux i386:
    [bthread_make_fcontext] is the same state transformer and the switch
    has the same outcome from every state; a switch into a fresh context,
    created by a caller whose MXCSR is one the register can hold, runs to
    its end, and an entry function that returns with the stack pointer and
    the return address it was entered with arrives at [finish], where the
    block of this target, like that of linux i386, ends the process with
    status 0. *)
Theorem apple_i386_routines_match_linux
    (here finish here2 got : Z) (s0 b q : state) :
  can_make s0 -> word (arg 3 s0) -> word here -> word finish ->
  0 <= mxcsr s0 < 2 ^ 32 -> 0 <= fpucw s0 < 2 ^ 16 -> mxcsr_ok s0 ->
  let made := AppleI386.bthread_make_fcontext here finish s0 in
  let ctx := get EAX made in
  can_suspend b -> frame_apart b ctx 0x24 -> arg 2 b = ctx ->
  agree (memory b) (memory made) ctx 0x20 -> word (arg 3 b) ->
  made = bthread_make_fcontext here finish s0 /\
  AppleI386.bthread_jump_fcontext b = bthread_jump_fcontext b /\
  exists e, AppleI386.bthread_jump_fcontext b = Done e /\
    (get ESP q = get ESP e ->
     loadw (memory q) (get ESP q) = loadw (memory e) (get ESP e) ->
     eip (ret q) = finish /\
     AppleI386.continue finish (ret q) = Exited 0 /\
     AppleI386.continue finish (ret q) = continue finish here2 got (ret q)).
Proof.
  intros Hcm Hfn Hhere Hfin Hmx Hcw Hok made ctx Hcs Hfa Hnfc Hag Hvp.
  assert (Hsame : AppleI386.bthread_jump_fcontext b = bthread_jump_fcontext b).
  { cbv beta iota delta
      [AppleI386.bthread_jump_fcontext bthread_jump_fcontext andthen exec seq].
    reflexivity. }
  destruct (i386_make_fcontext_result here finish s0 Hcm Hfn Hhere Hfin Hmx Hcw)
    as (_ & _ & Hret & Lmx & _).
  destruct (i386_switch_completes ctx b (memory made) Hcs Hfa Hnfc Hag)
    as (e & He).
  { right. exact (eq_trans (f_equal loadable Lmx) Hok). }
  split; [reflexivity |]. split; [exact Hsame |].
  exists e. split; [rewrite Hsame; exact He |]. intros Hsp Hword.
  destruct (i386_enter_frame ctx b e (memory made) Hcs Hfa Hnfc Hag Hvp He)
    as (_ & Esp & _ & Hslot & _).
  assert (Hgo : eip (ret q) = finish).
  { unfold ret, set_eip. cbn [eip]. rewrite Hword.
    rewrite Esp, Hslot. exact Hret. }
  split; [exact Hgo |].
  unfold AppleI386.continue, continue. rewrite Hgo, Z.eqb_refl.
  rewrite apple_finish_block_exits, i386_finish_block_exits.
  split; reflexivity.
Qed.

End AppleI386Extras.

(** ** The linux i386 properties on a sample run *)

Module I386ExtraExamples.
Import I386 MachineIntFacts Memory32Facts I386Facts.

Lemma i386_memory_mkState (rg : reg -> Z) (ip : Z) (z : bool) (mx cw : Z) (m : mem) :
  memory (mkState rg ip z mx cw m) = m.
Proof. reflexivity. Qed.

Example i386_made_frame_value :
  get EAX (bthread_make_fcontext here_at finish_at make_call) = 0x1ffe0.
Proof. vm_compute. reflexivity. Qed.


Example i386_make_call_args :
  arg 0 make_call = 0x400100 /\ arg 1 make_call = 0x20008 /\
  arg 3 make_call = entry_at.
Proof. repeat split; vm_compute; reflexivity. Qed.

Example i386_first_jump_args :
  arg 1 (first_jump 1) = 0x6000 /\ arg 2 (first_jump 1) = 0x1ffe0 /\
  arg 3 (first_jump 1) = 42 /\ arg 4 (first_jump 1) = 1.
Proof. repeat split; vm_compute; reflexivity. Qed.


Example i386_first_switch_run :
  eip (state_of (bthread_jump_fcontext (first_jump 1))) = entry_at /\
  get ESP (state_of (bthread_jump_fcontext (first_jump 1))) = 0x1fffc /\
  get EAX (state_of (bthread_jump_fcontext (first_jump 1))) = 42 /\
  loadw (memory (state_of (bthread_jump_fcontext (first_jump 1)))) 0x1fffc = finish_at /\
  loadw (memory (state_of (bthread_jump_fcontext (first_jump 1)))) 0x20000 = 42.
Proof. repeat split; vm_compute; reflexivity. Qed.

Example i386_switch_back_run :
  eip (state_of (bthread_jump_fcontext switch_back)) = 0x400200 /\
  get ESP (state_of (bthread_jump_fcontext switch_back)) = 0x6f04 /\
  get EAX (state_of (bthread_jump_fcontext switch_back)) = 7 /\
  get EDI (state_of (bthread_jump_fcontext switch_back)) = 0xd1 /\
  loadw (memory (state_of (bthread_jump_fcontext switch_back))) 0x6f08 = 7.
Proof. repeat split; vm_compute; reflexivity. Qed.

Ltac i386_numbers :=
  cbv [can_make can_suspend frame_apart in_range32 disjoint word
       get regs eip mxcsr fpucw make_call first_jump switch_back
       stale_first_jump stale_switch_back regs_of
       here_at finish_at entry_at];
  try lia.

Lemma make_call_can_make : can_make make_call.
Proof.
  unfold can_make. destruct i386_make_call_args as (_ & -> & _). i386_numbers.
Qed.

Lemma make_call_fn_word : word (arg 3 make_call).
Proof. destruct i386_make_call_args as (_ & _ & ->). i386_numbers. Qed.

Lemma here_at_word : word here_at.
Proof. i386_numbers. Qed.

Lemma i386_finish_at_word : word finish_at.
Proof. i386_numbers. Qed.

Lemma make_call_mxcsr : 0 <= mxcsr make_call < 2 ^ 32.
Proof. i386_numbers. Qed.

Lemma make_call_fpucw : 0 <= fpucw make_call < 2 ^ 16.
Proof. i386_numbers. Qed.

Lemma i386_make_call_mxcsr_ok : mxcsr_ok make_call.
Proof. vm_compute. reflexivity. Qed.

Lemma i386_first_jump_can_suspend : can_suspend (first_jump 1).
Proof.
  unfold can_suspend. destruct i386_first_jump_args as (-> & _). i386_numbers.
Qed.

Lemma i386_first_jump_frame_apart :
  frame_apart (first_jump 1)
    (get EAX (bthread_make_fcontext here_at finish_at make_call)) 0x24.
Proof.
  unfold frame_apart. destruct i386_first_jump_args as (-> & _).
  rewrite i386_made_frame_value. i386_numbers.
Qed.

Lemma i386_first_jump_target :
  arg 2 (first_jump 1) = get EAX (bthread_make_fcontext here_at finish_at make_call).
Proof.
  destruct i386_first_jump_args as (_ & -> & _). rewrite i386_made_frame_value.
  reflexivity.
Qed.

Lemma i386_first_jump_frame_intact :
  agree (memory (first_jump 1))
        (memory (bthread_make_fcontext here_at finish_at make_call))
        (get EAX (bthread_make_fcontext here_at finish_at make_call)) 0x20.
Proof.
  rewrite i386_made_frame_value. intros x0 Hx.
  unfold first_jump. rewrite i386_memory_mkState.
  cbv [put_words]. bytes. reflexivity.
Qed.

Lemma i386_first_jump_value : word (arg 3 (first_jump 1)).
Proof. destruct i386_first_jump_args as (_ & _ & -> & _). i386_numbers. Qed.

Lemma i386_first_jump_preserves : arg 4 (first_jump 1) <> 0.
Proof. destruct i386_first_jump_args as (_ & _ & _ & ->). discriminate. Qed.









Lemma i386_entry_returns_sp :
  get ESP entry_returns = get ESP (state_of (bthread_jump_fcontext (first_jump 1))).
Proof. lazy. reflexivity. Qed.

Lemma i386_entry_returns_slot :
  loadw (memory entry_returns) (get ESP entry_returns) =
  loadw (memory (state_of (bthread_jump_fcontext (first_jump 1))))
        (get ESP (state_of (bthread_jump_fcontext (first_jump 1)))).
Proof. vm_compute. reflexivity. Qed.


















Lemma i386_make_fcontext_sets_up_frame_witness :
  (can_make make_call /\ word (arg 3 make_call) /\ word here_at /\
   word finish_at /\ 0 <= mxcsr make_call < 2 ^ 32 /\
   0 <= fpucw make_call < 2 ^ 16) /\
  get EAX (bthread_make_fcontext here_at finish_at make_call) mod 16 = 0 /\
  loadw (memory (bthread_make_fcontext here_at finish_at make_call))
        (get EAX (bthread_make_fcontext here_at finish_at make_call) + 0x18) =
  arg 3 make_call.
Proof.
  split.
  { exact (conj make_call_can_make (conj make_call_fn_word (conj here_at_word
             (conj i386_finish_at_word (conj make_call_mxcsr make_call_fpucw))))). }
  destruct (I386Extras.i386_make_fcontext_sets_up_frame here_at finish_at make_call
              make_call_can_make make_call_fn_word here_at_word
              i386_finish_at_word make_call_mxcsr make_call_fpucw)
    as (Hmod & _ & Hentry & _).
  split; [exact Hmod | exact Hentry].
Defined.

Lemma i386_first_switch_enters_witness :
  (can_make make_call /\ word (arg 3 make_call) /\ word here_at /\
   word finish_at /\ 0 <= mxcsr make_call < 2 ^ 32 /\
   0 <= fpucw make_call < 2 ^ 16 /\ mxcsr_ok make_call /\
   can_suspend (first_jump 1) /\
   frame_apart (first_jump 1)
     (get EAX (bthread_make_fcontext here_at finish_at make_call)) 0x24 /\
   arg 2 (first_jump 1) =
     get EAX (bthread_make_fcontext here_at finish_at make_call) /\
   agree (memory (first_jump 1))
         (memory (bthread_make_fcontext here_at finish_at make_call))
         (get EAX (bthread_make_fcontext here_at finish_at make_call)) 0x20 /\
   word (arg 3 (first_jump 1)) /\ arg 4 (first_jump 1) <> 0) /\
  exists e, bthread_jump_fcontext (first_jump 1) = Done e /\
    eip e = arg 3 make_call /\
    loadw (memory e) (get ESP e) = finish_at /\
    mxcsr e = mxcsr make_call.
Proof.
  split.
  { exact (conj make_call_can_make (conj make_call_fn_word (conj here_at_word
             (conj i386_finish_at_word (conj make_call_mxcsr (conj make_call_fpucw
                (conj i386_make_call_mxcsr_ok
                (conj i386_first_jump_can_suspend (conj i386_first_jump_frame_apart
                   (conj i386_first_jump_target (conj i386_first_jump_frame_intact
                      (conj i386_first_jump_value
                         i386_first_jump_preserves)))))))))))). }
  destruct (I386Extras.i386_first_switch_enters here_at finish_at make_call
              (first_jump 1)
              make_call_can_make make_call_fn_word here_at_word
              i386_finish_at_word make_call_mxcsr make_call_fpucw
              i386_make_call_mxcsr_ok
              i386_first_jump_can_suspend i386_first_jump_frame_apart
              i386_first_jump_target i386_first_jump_frame_intact
              i386_first_jump_value)
    as (e & He & Hip & Hret & _ & _ & _ & Hset & _).
  exists e.
  exact (conj He (conj Hip (conj Hret (proj1 (Hset i386_first_jump_preserves))))).
Defined.

Lemma i386_entry_return_exits_witness :
  (can_make make_call /\ word (arg 3 make_call) /\ word here_at /\
   word finish_at /\ 0 <= mxcsr make_call < 2 ^ 32 /\
   0 <= fpucw make_call < 2 ^ 16 /\ mxcsr_ok make_call /\
   can_suspend (first_jump 1) /\
   frame_apart (first_jump 1)
     (get EAX (bthread_make_fcontext here_at finish_at make_call)) 0x24 /\
   arg 2 (first_jump 1) =
     get EAX (bthread_make_fcontext here_at finish_at make_call) /\
   agree (memory (first_jump 1))
         (memory (bthread_make_fcontext here_at finish_at make_call))
         (get EAX (bthread_make_fcontext here_at finish_at make_call)) 0x20 /\
   word (arg 3 (first_jump 1))) /\
  exists e, bthread_jump_fcontext (first_jump 1) = Done e /\
    (get ESP entry_returns = get ESP e /\
     loadw (memory entry_returns) (get ESP entry_returns) =
       loadw (memory e) (get ESP e)) /\
    eip (ret entry_returns) = finish_at /\
    continue finish_at finish_here_at 0x2000 (ret entry_returns) = Exited 0.
Proof.
  split.
  { exact (conj make_call_can_make (conj make_call_fn_word (conj here_at_word
             (conj i386_finish_at_word (conj make_call_mxcsr (conj make_call_fpucw
                (conj i386_make_call_mxcsr_ok
                (conj i386_first_jump_can_suspend (conj i386_first_jump_frame_apart
                   (conj i386_first_jump_target (conj i386_first_jump_frame_intact
                      i386_first_jump_value))))))))))). }
  destruct (I386Extras.i386_entry_return_exits here_at finish_at finish_here_at
              0x2000 make_call (first_jump 1) entry_returns
              make_call_can_make make_call_fn_word here_at_word
              i386_finish_at_word make_call_mxcsr make_call_fpucw
              i386_make_call_mxcsr_ok
              i386_first_jump_can_suspend i386_first_jump_frame_apart
              i386_first_jump_target i386_first_jump_frame_intact
              i386_first_jump_value)
    as (e & He & Hexits).
  pose proof i386_entry_returns_sp as Hsp.
  pose proof i386_entry_returns_slot as Hslot.
  rewrite (i386_done_state _ e He) in Hsp, Hslot.
  destruct (Hexits Hsp Hslot) as (Hgo & Hexit).
  exists e. exact (conj He (conj (conj Hsp Hslot) (conj Hgo Hexit))).
Defined.



Lemma apple_i386_routines_match_linux_witness :
  (can_make make_call /\ word (arg 3 make_call) /\ word here_at /\
   word finish_at /\ 0 <= mxcsr make_call < 2 ^ 32 /\
   0 <= fpucw make_call < 2 ^ 16 /\ mxcsr_ok make_call /\
   can_suspend (first_jump 1) /\
   frame_apart (first_jump 1)
     (get EAX (AppleI386.bthread_make_fcontext here_at finish_at make_call)) 0x24 /\
   arg 2 (first_jump 1) =
     get EAX (AppleI386.bthread_make_fcontext here_at finish_at make_call) /\
   agree (memory (first_jump 1))
         (memory (AppleI386.bthread_make_fcontext here_at finish_at make_call))
         (get EAX (AppleI386.bthread_make_fcontext here_at finish_at make_call))
         0x20 /\
   word (arg 3 (first_jump 1))) /\
  exists e, AppleI386.bthread_jump_fcontext (first_jump 1) = Done e /\
    (get ESP entry_returns = get ESP e /\
     loadw (memory entry_returns) (get ESP entry_returns) =
       loadw (memory e) (get ESP e)) /\
    eip (ret entry_returns) = finish_at /\
    AppleI386.continue finish_at (ret entry_returns) = Exited 0.
Proof.
  split.
  { exact (conj make_call_can_make (conj make_call_fn_word (conj here_at_word
             (conj i386_finish_at_word (conj make_call_mxcsr (conj make_call_fpucw
                (conj i386_make_call_mxcsr_ok
                (conj i386_first_jump_can_suspend (conj i386_first_jump_frame_apart
                   (conj i386_first_jump_target (conj i386_first_jump_frame_intact
                      i386_first_jump_value))))))))))). }
  destruct (AppleI386Extras.apple_i386_routines_match_linux
              here_at finish_at finish_here_at 0x2000
              make_call (first_jump 1) entry_returns
              make_call_can_make make_call_fn_word here_at_word
              i386_finish_at_word make_call_mxcsr make_call_fpucw
              i386_make_call_mxcsr_ok
              i386_first_jump_can_suspend i386_first_jump_frame_apart
              i386_first_jump_target i386_first_jump_frame_intact
              i386_first_jump_value)
    as (_ & Hsame & e & He & Hexits).
  pose proof i386_entry_returns_sp as Hsp.
  pose proof i386_entry_returns_slot as Hslot.
  rewrite Hsame in He.
  rewrite (i386_done_state _ e He) in Hsp, Hslot.
  destruct (Hexits Hsp Hslot) as (Hgo & Hexit & _).
  exists e. rewrite Hsame.
  exact (conj He (conj (conj Hsp Hslot) (conj Hgo Hexit))).
Defined.

End I386ExtraExamples.

(** ** linux arm32 *)

Module Arm32Facts.
Import Arm32 MachineIntFacts Memory32Facts.

Ltac run :=
  cbv beta iota zeta delta
    [bthread_jump_fcontext bthread_make_fcontext save_context restore_context seq
     push pop pop_pc bx bx_write_pc sub_sp add_sp cmp_imm beq
     vstmia_sp vldmia_sp str_sp_at mov_to_sp mov mov_imm bic sub_imm str_off adr
     size_of store_regs load_regs store_dregs load_dregs v1_v8_lr d8_d15
     set_r set_d set_sp set_pc set_thumb set_zflag set_mem
     r d sp pc thumb zflag memory Nat.eqb] in *.

Ltac unwrap :=
  repeat match goal with
  | |- context [wrap_u32 ?z] =>
      lazymatch z with context [wrap_u32 _] => fail | _ => idtac end;
      rewrite (wrap_u32_small z) by lia
  end.

Ltac mem_side := unfold in_range32, disjoint in *; lia.

Ltac loads :=
  unfold loadd, loadw, loadh, stored, storew, storeh in *;
  repeat match goal with
  | |- context [load ?k (store ?n ?a ?v ?m) ?b] =>
      first [ rewrite (load_store_apart k n a b v m) by mem_side
            | rewrite (load_store_hit_at n a b v m) by (cbn; lia) ]
  end.

Ltac bytes :=
  unfold stored, storew, storeh in *;
  repeat match goal with
  | |- context [store ?n ?a ?v ?m ?x0] =>
      rewrite (store_outside n a v m x0) by mem_side
  end.

(** Brings the addresses of loads into one form. *)
Ltac addrs :=
  repeat match goal with
  | |- context [load ?k ?m ?a] =>
      lazymatch a with
      | context [load _ _ _] => fail
      | context [wrap_u32 _] => fail
      | _ => idtac
      end;
      progress ring_simplify a
  end.

(** Evaluates the offset of a slot with a known register number. *)
Ltac slots :=
  unfold d_slot, v_slot;
  cbn [Z.of_nat Pos.of_succ_nat Pos.succ Z.sub Z.add Z.opp
       Z.pos_sub Z.mul Pos.mul Pos.add Z.succ_double Z.pred_double
       Z.double Pos.pred_double Nat.eqb] in *.

Ltac open_state s :=
  unfold can_suspend, frame_apart, in_range32, disjoint;
  destruct s as [xr dr stk ip th z m]; run.

(** Case analysis on [a4], the [preserve_fpu] argument, which both tests
    of the routine read. *)
Ltac flag xr :=
  let E := fresh "Eflag" in
  destruct (xr 3%nat =? 0) eqn:E; cbv beta iota; rewrite ?E; cbv beta iota.

Lemma v1_v8_cases (n : nat) :
  (4 <= n <= 11)%nat ->
  n = 4%nat \/ n = 5%nat \/ n = 6%nat \/ n = 7%nat \/
  n = 8%nat \/ n = 9%nat \/ n = 10%nat \/ n = 11%nat.
Proof. lia. Qed.

Lemma d8_d15_cases (n : nat) :
  (8 <= n <= 15)%nat ->
  n = 8%nat \/ n = 9%nat \/ n = 10%nat \/ n = 11%nat \/
  n = 12%nat \/ n = 13%nat \/ n = 14%nat \/ n = 15%nat.
Proof. lia. Qed.

Ltac flag_set xr H :=
  let E := fresh "Eflag" in
  assert (E : (xr 3%nat =? 0) = false) by (apply Z.eqb_neq; exact H);
  rewrite ?E; cbv beta iota; rewrite ?E; cbv beta iota.

Ltac flag_clear xr H :=
  let E := fresh "Eflag" in
  assert (E : (xr 3%nat =? 0) = true) by (apply Z.eqb_eq; exact H);
  rewrite ?E; cbv beta iota; rewrite ?E; cbv beta iota.

Lemma arm32_jump_split (s : state) :
  bthread_jump_fcontext s = restore_context (save_context s).
Proof. reflexivity. Qed.

(** *** The second half: resuming the target context *)

(** The stack pointer ends right above the frame at [nfc], [lr] comes
    from its slot at 96 and control goes to the address in its slot at
    100. *)
Lemma restore_context_lands (t : state) :
  0 <= r t 1 -> r t 1 + 104 < 2 ^ 32 ->
  let t' := restore_context t in
  sp t' = r t 1 + 104 /\
  pc t' = loadw (memory t) (r t 1 + 100) - loadw (memory t) (r t 1 + 100) mod 2 /\
  thumb t' = Z.odd (loadw (memory t) (r t 1 + 100)) /\
  r t' 14 = loadw (memory t) (r t 1 + 96).
Proof.
  intros H0 H1. destruct t as [xr dr stk ip th z m]. run. unfold loadw.
  flag xr; unwrap; addrs; (split; [lia | repeat split; reflexivity]).
Qed.

Lemma arm32_restore_context_memory (t : state) :
  memory (restore_context t) = memory t.
Proof.
  destruct t as [xr dr stk ip th z m]. run. flag xr; reflexivity.
Qed.

Lemma arm32_restore_context_value (t : state) : r (restore_context t) 0 = r t 2.
Proof.
  destruct t as [xr dr stk ip th z m]. run. flag xr; reflexivity.
Qed.

(** Each of [v1 .. v8] is loaded from its slot of the frame at [nfc]. *)
Lemma restore_context_r (t : state) (n : nat) :
  0 <= r t 1 -> r t 1 + 104 < 2 ^ 32 -> (4 <= n <= 11)%nat ->
  r (restore_context t) n = loadw (memory t) (r t 1 + v_slot n).
Proof.
  intros H0 H1 Hn. destruct t as [xr dr stk ip th z m]. run. unfold loadw.
  destruct (v1_v8_cases n Hn) as [E | [E | [E | [E | [E | [E | [E | E]]]]]]];
    subst n; slots; flag xr; unwrap; f_equal; lia.
Qed.

(** With [preserve_fpu] set, each of [d8 .. d15] is loaded from its slot
    of the frame at [nfc]. *)
Lemma restore_context_d (t : state) (n : nat) :
  0 <= r t 1 -> r t 1 + 104 < 2 ^ 32 -> r t 3 <> 0 -> (8 <= n <= 15)%nat ->
  d (restore_context t) n = loadd (memory t) (r t 1 + d_slot n).
Proof.
  intros H0 H1 Hf Hn. destruct t as [xr dr stk ip th z m]. run. unfold loadd.
  flag_set xr Hf.
  destruct (d8_d15_cases n Hn) as [E | [E | [E | [E | [E | [E | [E | E]]]]]]];
    subst n; slots; unwrap; f_equal; lia.
Qed.

(** With [preserve_fpu] clear, no floating-point register changes. *)
Lemma restore_context_keeps_d (t : state) (n : nat) :
  r t 3 = 0 -> d (restore_context t) n = d t n.
Proof.
  intros Hf. destruct t as [xr dr stk ip th z m]. run.
  flag_clear xr Hf. reflexivity.
Qed.

(** *** The first half: saving the running context *)

Lemma arm32_save_context_regs (s : state) (n : nat) :
  r (save_context s) n = r s n /\ d (save_context s) n = d s n.
Proof.
  destruct s as [xr dr stk ip th z m]. run.
  flag xr; split; reflexivity.
Qed.

(** *** The whole switch *)

Lemma jump_memory (s : state) :
  memory (bthread_jump_fcontext s) = memory (save_context s).
Proof. rewrite arm32_jump_split. apply arm32_restore_context_memory. Qed.

(** The transfer value arrives in [a1]. *)
Lemma arm32_jump_value (s : state) : r (bthread_jump_fcontext s) 0 = r s 2.
Proof.
  rewrite arm32_jump_split, arm32_restore_context_value.
  apply (arm32_save_context_regs s 2).
Qed.

Lemma arm32_jump_lands (s : state) :
  0 <= r s 1 -> r s 1 + 104 < 2 ^ 32 ->
  let e := bthread_jump_fcontext s in
  sp e = r s 1 + 104 /\
  pc e = loadw (memory e) (r s 1 + 100) - loadw (memory e) (r s 1 + 100) mod 2 /\
  thumb e = Z.odd (loadw (memory e) (r s 1 + 100)) /\
  r e 14 = loadw (memory e) (r s 1 + 96).
Proof.
  intros H0 H1. cbv zeta. rewrite (jump_memory s), arm32_jump_split.
  destruct (arm32_save_context_regs s 1) as (R1 & _).
  destruct (restore_context_lands (save_context s))
    as (Hsp & Hpc & Hth & Hlr); [rewrite R1; assumption .. |].
  rewrite Hsp, Hpc, Hth, Hlr, R1. repeat split; reflexivity.
Qed.

Lemma jump_restores_r (s : state) (n : nat) :
  0 <= r s 1 -> r s 1 + 104 < 2 ^ 32 -> (4 <= n <= 11)%nat ->
  r (bthread_jump_fcontext s) n =
  loadw (memory (bthread_jump_fcontext s)) (r s 1 + v_slot n).
Proof.
  intros H0 H1 Hn. rewrite (jump_memory s), arm32_jump_split.
  destruct (arm32_save_context_regs s 1) as (R1 & _).
  rewrite restore_context_r by (rewrite ?R1; assumption).
  rewrite R1. reflexivity.
Qed.

Lemma arm32_jump_restores_d (s : state) (n : nat) :
  0 <= r s 1 -> r s 1 + 104 < 2 ^ 32 -> r s 3 <> 0 -> (8 <= n <= 15)%nat ->
  d (bthread_jump_fcontext s) n =
  loadd (memory (bthread_jump_fcontext s)) (r s 1 + d_slot n).
Proof.
  intros H0 H1 Hf Hn. rewrite (jump_memory s), arm32_jump_split.
  destruct (arm32_save_context_regs s 1) as (R1 & _).
  destruct (arm32_save_context_regs s 3) as (R3 & _).
  rewrite restore_context_d by (rewrite ?R1, ?R3; assumption).
  rewrite R1. reflexivity.
Qed.

Lemma jump_keeps_d (s : state) (n : nat) :
  r s 3 = 0 -> d (bthread_jump_fcontext s) n = d s n.
Proof.
  intros Hf. rewrite arm32_jump_split.
  destruct (arm32_save_context_regs s 3) as (R3 & _).
  destruct (arm32_save_context_regs s n) as (_ & Dn).
  rewrite restore_context_keeps_d by (rewrite R3; exact Hf).
  exact Dn.
Qed.

(** Each of [v1 .. v8] is stored in its slot of the frame on the old
    stack, [lr] in its slot and once more in the resume slot, and the
    address of the frame in [*ofc]. *)
Lemma jump_saves_r (s : state) (n : nat) :
  can_suspend s -> (4 <= n <= 11)%nat -> 0 <= r s n < 2 ^ 32 ->
  loadw (memory (bthread_jump_fcontext s)) (sp s - 104 + v_slot n) = r s n.
Proof.
  intros Hcs Hn Hw. rewrite jump_memory.
  destruct (v1_v8_cases n Hn) as [E | [E | [E | [E | [E | [E | [E | E]]]]]]];
    subst n; revert Hcs Hw; open_state s; intros (H1 & H2 & H3 & H4) Hw;
    slots; flag xr; unwrap; loads; reflexivity.
Qed.

Lemma arm32_jump_saves_resume (s : state) :
  can_suspend s -> 0 <= r s 14 < 2 ^ 32 ->
  loadw (memory (bthread_jump_fcontext s)) (sp s - 104 + 96) = r s 14 /\
  loadw (memory (bthread_jump_fcontext s)) (sp s - 104 + 100) = r s 14 /\
  loadw (memory (bthread_jump_fcontext s)) (r s 0) = sp s - 104.
Proof.
  rewrite jump_memory.
  open_state s. intros (H1 & H2 & H3 & H4) Hw.
  flag xr; unwrap; (split; [| split]); loads; lia.
Qed.

(** With [preserve_fpu] set, [d8 .. d15] are stored at the bottom of the
    frame on the old stack. *)
Lemma arm32_jump_saves_d (s : state) (n : nat) :
  can_suspend s -> r s 3 <> 0 -> (8 <= n <= 15)%nat -> 0 <= d s n < 2 ^ 64 ->
  loadd (memory (bthread_jump_fcontext s)) (sp s - 104 + d_slot n) = d s n.
Proof.
  intros Hcs Hf Hn Hw. rewrite jump_memory.
  destruct (d8_d15_cases n Hn) as [E | [E | [E | [E | [E | [E | [E | E]]]]]]];
    subst n; revert Hcs Hf Hw; open_state s; intros (H1 & H2 & H3 & H4) Hf Hw;
    slots; flag_set xr Hf; unwrap; loads; reflexivity.
Qed.

(** With [preserve_fpu] clear, those 64 bytes are not written. *)
Lemma jump_skips_d (s : state) :
  can_suspend s -> r s 3 = 0 ->
  agree (memory (bthread_jump_fcontext s)) (memory s) (sp s - 104) 64.
Proof.
  unfold agree. rewrite jump_memory.
  open_state s. intros (H1 & H2 & H3 & H4) Hf x0 Hx.
  flag_clear xr Hf. unwrap. bytes. reflexivity.
Qed.

(** Nothing is written outside the 104 bytes below [sp] and the slot
    [*ofc]. *)
Lemma arm32_jump_outside (s : state) (x0 : Z) :
  can_suspend s -> 0 <= x0 < 2 ^ 32 ->
  x0 < sp s - 104 \/ sp s <= x0 ->
  x0 < r s 0 \/ r s 0 + 4 <= x0 ->
  memory (bthread_jump_fcontext s) x0 = memory s x0.
Proof.
  rewrite jump_memory.
  open_state s. intros (H1 & H2 & H3 & H4) Hx Ho1 Ho2.
  flag xr; unwrap; bytes; reflexivity.
Qed.

Lemma arm32_jump_keeps (s : state) (ctx : Z) :
  can_suspend s -> frame_apart s ctx ->
  agree (memory (bthread_jump_fcontext s)) (memory s) ctx 104.
Proof.
  intros Hs (Hc1 & Hc2 & Hd1 & Hd2) x0 Hx.
  pose proof Hs as (H1 & H2 & H3 & H4).
  unfold in_range32, disjoint in *.
  apply arm32_jump_outside; [exact Hs | lia | lia | lia].
Qed.

(** *** [bthread_make_fcontext] *)

Lemma bic_rounds_down_16 (v : Z) :
  0 <= v < 2 ^ 32 -> Z.land v (wrap_u32 (Z.lnot 15)) = v - v mod 16.
Proof.
  intros Hv. rewrite Z.land_comm.
  change (wrap_u32 (Z.lnot 15)) with (wrap_u32 (-16)).
  apply land_mask16_u32. exact Hv.
Qed.

Lemma top_rounded_bound (v : Z) : 0x70 <= v -> 0x70 <= v - v mod 16.
Proof.
  intros Hv. rewrite (Z.mod_eq v 16) by lia.
  replace (v - (v - 16 * (v / 16))) with (16 * (v / 16)) by lia.
  assert (7 <= v / 16) by (apply Z.div_le_lower_bound; lia). lia.
Qed.

Lemma arm32_make_fcontext_result (finish : Z) (s : state) :
  0 <= r s 0 < 2 ^ 32 -> 0x70 <= r s 0 ->
  0 <= r s 2 < 2 ^ 32 -> 0 <= finish < 2 ^ 32 ->
  let s' := bthread_make_fcontext finish s in
  let frame := r s 0 - r s 0 mod 16 - 104 in
  r s' 0 = frame /\
  loadw (memory s') (frame + 100) = r s 2 /\
  loadw (memory s') (frame + 96) = finish /\
  pc s' = r s 14 - r s 14 mod 2 /\ thumb s' = Z.odd (r s 14) /\
  sp s' = sp s /\
  (forall x0, 0 <= x0 < 2 ^ 32 -> x0 < frame + 96 \/ frame + 104 <= x0 ->
     memory s' x0 = memory s x0).
Proof.
  intros Hw Htop Hfn Hfin.
  pose proof (bic_rounds_down_16 _ Hw) as Hal.
  pose proof (top_rounded_bound _ Htop) as Hge.
  pose proof (Z.mod_pos_bound (r s 0) 16 ltac:(lia)) as Hm.
  destruct s as [xr dr stk ip th z m]. run. rewrite Hal.
  unwrap. repeat split; try (loads; reflexivity); try lia.
  intros x0 Hx Hout. bytes. reflexivity.
Qed.

Lemma arm32_finish_exits (s : state) : finish_block s = Exited 0.
Proof. reflexivity. Qed.

(** *** Switching into a context *)

(** A switch into a frame that reads as in [m0]. *)
Lemma arm32_enter_frame (ctx : Z) (b : state) (m0 : mem) :
  can_suspend b -> frame_apart b ctx -> r b 1 = ctx ->
  agree (memory b) m0 ctx 104 ->
  let e := bthread_jump_fcontext b in
  sp e = ctx + 104 /\
  pc e = loadw m0 (ctx + 100) - loadw m0 (ctx + 100) mod 2 /\
  thumb e = Z.odd (loadw m0 (ctx + 100)) /\
  r e 14 = loadw m0 (ctx + 96) /\
  (forall n, (4 <= n <= 11)%nat -> r e n = loadw m0 (ctx + v_slot n)) /\
  (r b 3 <> 0 ->
   forall n, (8 <= n <= 15)%nat -> d e n = loadd m0 (ctx + d_slot n)).
Proof.
  intros Hcs Hfa Hx1 Hag e.
  pose proof (agree_chain _ _ _ _ _ (arm32_jump_keeps b ctx Hcs Hfa) Hag) as Hall.
  pose proof Hfa as (Hc0 & Hc1 & _).
  destruct (arm32_jump_lands b) as (Hsp & Hpc & Hth & Hlr); [rewrite Hx1; lia .. |].
  assert (L100 : loadw (memory (bthread_jump_fcontext b)) (ctx + 100) =
                 loadw m0 (ctx + 100))
    by (unfold loadw; apply (load_agree 4 _ _ ctx 104); [exact Hall | lia ..]).
  assert (L96 : loadw (memory (bthread_jump_fcontext b)) (ctx + 96) =
                loadw m0 (ctx + 96))
    by (unfold loadw; apply (load_agree 4 _ _ ctx 104); [exact Hall | lia ..]).
  subst e. rewrite Hsp, Hpc, Hth, Hlr, Hx1, L100, L96.
  split; [reflexivity |]. split; [reflexivity |]. split; [reflexivity |].
  split; [reflexivity |]. split.
  - intros n Hn.
    rewrite (jump_restores_r b n) by (rewrite ?Hx1; lia). rewrite Hx1.
    unfold loadw. apply (load_agree 4 _ _ ctx 104); [exact Hall | | | | ];
      unfold v_slot; lia.
  - intros Hf n Hn.
    rewrite (arm32_jump_restores_d b n) by (rewrite ?Hx1; first [lia | exact Hf]).
    rewrite Hx1.
    unfold loadd. apply (load_agree 8 _ _ ctx 104); [exact Hall | | | | ];
      unfold d_slot; lia.
Qed.

End Arm32Facts.

(** ** Properties of the linux arm32 routines *)

Module Arm32Extras.
Import Arm32 MachineIntFacts Memory32Facts Arm32Facts.

(** X25: on linux arm32 [bthread_make_fcontext] places the frame 104
    bytes below the stack top rounded down to a multiple of 16; the
    frame's slot at 100 holds the address of the entry function, its slot
    at 96 (the link register's) the address of [finish]; no other byte
    changes, the size argument plays no part, and control returns to the
    address in [lr]. *)
Theorem arm32_make_fcontext_sets_up_frame (finish : Z) (s : state) :
  0 <= r s 0 < 2 ^ 32 -> 0x70 <= r s 0 ->
  0 <= r s 2 < 2 ^ 32 -> 0 <= finish < 2 ^ 32 ->
  let s' := bthread_make_fcontext finish s in
  let frame := r s' 0 in
  (frame + 104) mod 16 = 0 /\
  r s 0 - 15 <= frame + 104 <= r s 0 /\
  loadw (memory s') (frame + 100) = r s 2 /\
  loadw (memory s') (frame + 96) = finish /\
  (forall x0, 0 <= x0 < 2 ^ 32 -> x0 < frame + 96 \/ frame + 104 <= x0 ->
     memory s' x0 = memory s x0) /\
  (forall size, r (bthread_make_fcontext finish (set_r 1 size s)) 0 = frame) /\
  pc s' = r s 14 - r s 14 mod 2.
Proof.
  intros Hw Htop Hfn Hfin s' frame.
  destruct (arm32_make_fcontext_result finish s Hw Htop Hfn Hfin)
    as (Hframe & Hentry & Hret & Hpc & _ & _ & Hout).
  pose proof (Z.mod_pos_bound (r s 0) 16 ltac:(lia)) as Hm.
  subst frame s'. rewrite Hframe.
  split.
  { replace (r s 0 - r s 0 mod 16 - 104 + 104)
      with ((r s 0 / 16) * 16)
      by (rewrite (Z.mod_eq (r s 0) 16) by lia; lia).
    apply Z.mod_mul. lia. }
  split; [lia |]. split; [exact Hentry |]. split; [exact Hret |].
  split; [exact Hout |]. split; [| exact Hpc].
  intros size.
  destruct (arm32_make_fcontext_result finish (set_r 1 size s) Hw Htop Hfn Hfin)
    as (Hframe' & _).
  exact Hframe'.
Qed.

(** X26: on linux arm32 the first switch into a fresh context arrives at
    the entry function, in the instruction set bit 0 of its address
    selects, with the transfer value in [a1], the address of [finish] in
    [lr], and the stack pointer at the rounded stack top, a multiple of
    16. *)
Theorem arm32_first_switch_enters (finish : Z) (s0 b : state) :
  0 <= r s0 0 < 2 ^ 32 -> 0x70 <= r s0 0 ->
  0 <= r s0 2 < 2 ^ 32 -> 0 <= finish < 2 ^ 32 ->
  let made := bthread_make_fcontext finish s0 in
  let ctx := r made 0 in
  can_suspend b -> frame_apart b ctx -> r b 1 = ctx ->
  agree (memory b) (memory made) ctx 104 ->
  let e := bthread_jump_fcontext b in
  pc e = r s0 2 - r s0 2 mod 2 /\
  thumb e = Z.odd (r s0 2) /\
  r e 0 = r b 2 /\
  r e 14 = finish /\
  sp e = r s0 0 - r s0 0 mod 16 /\
  sp e mod 16 = 0.
Proof.
  intros Hw Htop Hfn Hfin made ctx Hcs Hfa Hx1 Hag e.
  destruct (arm32_make_fcontext_result finish s0 Hw Htop Hfn Hfin)
    as (Hframe & Hentry & Hret & _).
  destruct (arm32_enter_frame ctx b (memory made) Hcs Hfa Hx1 Hag)
    as (Hsp & Hpc & Hth & Hlr & _).
  subst e ctx made. rewrite Hpc, Hth, Hlr, Hsp, Hframe, Hentry, Hret.
  split; [reflexivity |]. split; [reflexivity |]. split; [apply arm32_jump_value |].
  split; [reflexivity |]. split; [lia |].
  replace (r s0 0 - r s0 0 mod 16 - 104 + 104) with ((r s0 0 / 16) * 16)
    by (rewrite (Z.mod_eq (r s0 0) 16) by lia; lia).
  apply Z.mod_mul. lia.
Qed.

(** X27: on linux arm32 an entry function that returns with the link
    register it was entered with arrives at [finish] (an address of ARM
    code, a multiple of 4), and the block there ends the process with
    status 0. *)
Theorem arm32_entry_return_exits (finish : Z) (s0 b q : state) :
  0 <= r s0 0 < 2 ^ 32 -> 0x70 <= r s0 0 ->
  0 <= r s0 2 < 2 ^ 32 -> 0 <= finish < 2 ^ 32 -> finish mod 4 = 0 ->
  let made := bthread_make_fcontext finish s0 in
  let ctx := r made 0 in
  can_suspend b -> frame_apart b ctx -> r b 1 = ctx ->
  agree (memory b) (memory made) ctx 104 ->
  let e := bthread_jump_fcontext b in
  r q 14 = r e 14 ->
  pc (bx 14 q) = finish /\ thumb (bx 14 q) = false /\
  continue finish (bx 14 q) = Exited 0.
Proof.
  intros Hw Htop Hfn Hfin Hal made ctx Hcs Hfa Hx1 Hag e Hlr.
  destruct (arm32_make_fcontext_result finish s0 Hw Htop Hfn Hfin)
    as (Hframe & _ & Hret & _).
  destruct (arm32_enter_frame ctx b (memory made) Hcs Hfa Hx1 Hag)
    as (_ & _ & _ & Hl & _).
  assert (Hq : r q 14 = finish).
  { rewrite Hlr. subst e ctx made. rewrite Hl, Hframe. exact Hret. }
  assert (Hev : finish mod 2 = 0).
  { rewrite (Z.div_mod finish 4) by lia. rewrite Hal.
    replace (4 * (finish / 4) + 0) with ((2 * (finish / 4)) * 2) by lia.
    apply Z.mod_mul. lia. }
  assert (Hgo : pc (bx 14 q) = finish).
  { unfold bx, bx_write_pc, set_thumb, set_pc. cbn [pc]. rewrite Hq, Hev. lia. }
  split; [exact Hgo |].
  split.
  { unfold bx, bx_write_pc, set_thumb, set_pc. cbn [thumb]. rewrite Hq.
    rewrite <- Z.negb_even. apply Bool.negb_false_iff.
    apply Z.even_spec. exists (finish / 2).
    rewrite (Z.div_mod finish 2) at 1 by lia. lia. }
  unfold continue. rewrite Hgo, Z.eqb_refl. apply arm32_finish_exits.
Qed.

(** X28: on linux arm32 a switch into the context a suspended call left
    in [*ofc] resumes that call: control is at the address its link
    register held, the stack pointer is as at the call, [v1 .. v8] and
    [lr] are back, and [a1] holds the value the switcher passed.
    [d8 .. d15] are back when both switches had [preserve_fpu] set. *)
Theorem arm32_resume_restores_call (a b : state) :
  saved_are_words a -> can_suspend a ->
  let ctx := loadw (memory (bthread_jump_fcontext a)) (r a 0) in
  can_suspend b -> frame_apart b ctx -> r b 1 = ctx ->
  agree (memory b) (memory (bthread_jump_fcontext a)) ctx 104 ->
  let e := bthread_jump_fcontext b in
  ctx = sp a - 104 /\
  pc e = r a 14 - r a 14 mod 2 /\
  thumb e = Z.odd (r a 14) /\
  sp e = sp a /\
  r e 0 = r b 2 /\
  r e 14 = r a 14 /\
  (forall n, (4 <= n <= 11)%nat -> r e n = r a n) /\
  (r a 3 <> 0 -> r b 3 <> 0 ->
   forall n, (8 <= n <= 15)%nat -> d e n = d a n).
Proof.
  intros (Hxw & Hlw & Hdw) Hca.
  destruct (arm32_jump_saves_resume a Hca Hlw) as (Slr & Spc & Sofc).
  cbv zeta. rewrite Sofc. intros Hcs Hfa Hx1 Hag.
  destruct (arm32_enter_frame (sp a - 104) b (memory (bthread_jump_fcontext a))
              Hcs Hfa Hx1 Hag) as (Hsp & Hpc & Hth & Hlr & Hx & Hd).
  split; [reflexivity |].
  split; [rewrite Hpc, Spc; reflexivity |].
  split; [rewrite Hth, Spc; reflexivity |].
  split; [rewrite Hsp; lia |].
  split; [apply arm32_jump_value |].
  split; [rewrite Hlr; exact Slr |].
  split.
  - intros n Hn. rewrite (Hx n Hn). apply jump_saves_r; [exact Hca | exact Hn |].
    apply Hxw, Hn.
  - intros Hfa3 Hfb3 n Hn. rewrite (Hd Hfb3 n Hn).
    apply arm32_jump_saves_d; [exact Hca | exact Hfa3 | exact Hn |]. apply Hdw, Hn.
Qed.

(** X29: on linux arm32, unlike on linux arm64, the switch honours
    [preserve_fpu].  When it is zero no floating-point register changes
    and the 64 bytes at the bottom of the frame on the old stack are not
    written; when it is not zero [d8 .. d15] are stored there and reloaded
    from the frame switched to.  In either case the switch writes nothing
    outside the 104 bytes below the stack pointer and the word [*ofc]. *)
Theorem arm32_switch_honours_preserve_fpu (s : state) :
  can_suspend s -> 0 <= r s 1 -> r s 1 + 104 < 2 ^ 32 ->
  let e := bthread_jump_fcontext s in
  (r s 3 = 0 ->
   (forall n, d e n = d s n) /\
   agree (memory e) (memory s) (sp s - 104) 64) /\
  (r s 3 <> 0 ->
   forall n, (8 <= n <= 15)%nat ->
     (0 <= d s n < 2 ^ 64 -> loadd (memory e) (sp s - 104 + d_slot n) = d s n) /\
     d e n = loadd (memory e) (r s 1 + d_slot n)) /\
  (forall x0, 0 <= x0 < 2 ^ 32 ->
     x0 < sp s - 104 \/ sp s <= x0 ->
     x0 < r s 0 \/ r s 0 + 4 <= x0 ->
     memory e x0 = memory s x0).
Proof.
  intros Hcs H0 H1 e. subst e.
  split; [| split].
  - intros Hf. split.
    + intros n. apply jump_keeps_d. exact Hf.
    + apply jump_skips_d; assumption.
  - intros Hf n Hn. split.
    + intros Hw. apply arm32_jump_saves_d; assumption.
    + apply arm32_jump_restores_d; assumption.
  - intros x0 Hx Ho1 Ho2. apply arm32_jump_outside; assumption.
Qed.

End Arm32Extras.

(** ** The linux arm32 properties on a sample run *)

Module Arm32ExtraExamples.
Import Arm32 MachineIntFacts Memory32Facts.

Ltac arm32_numbers :=
  cbv [can_suspend frame_apart in_range32 disjoint r d sp pc
       make_call first_jump switch_back finish_at entry_at];
  try lia.

Lemma arm32_memory_mkState (xr dr : nat -> Z) (p c : Z) (t z : bool) (m : mem) :
  memory (mkState xr dr p c t z m) = m.
Proof. reflexivity. Qed.

Example arm32_made_frame_value :
  r (bthread_make_fcontext finish_at make_call) 0 = 0x2ff98.
Proof. vm_compute. reflexivity. Qed.

Example arm32_suspended_ctx_value :
  loadw (memory (bthread_jump_fcontext (first_jump 1))) (r (first_jump 1) 0) = 0x6f98.
Proof. vm_compute. reflexivity. Qed.

Example arm32_first_switch_run :
  pc (bthread_jump_fcontext (first_jump 1)) = entry_at /\
  thumb (bthread_jump_fcontext (first_jump 1)) = false /\
  r (bthread_jump_fcontext (first_jump 1)) 0 = 42 /\
  r (bthread_jump_fcontext (first_jump 1)) 14 = finish_at /\
  sp (bthread_jump_fcontext (first_jump 1)) = 0x30000.
Proof. repeat split; vm_compute; reflexivity. Qed.

Example arm32_switch_back_run :
  pc (bthread_jump_fcontext switch_back) = 0x400200 /\
  r (bthread_jump_fcontext switch_back) 0 = 7 /\
  r (bthread_jump_fcontext switch_back) 4 = 4 /\
  d (bthread_jump_fcontext switch_back) 8 = 108 /\
  sp (bthread_jump_fcontext switch_back) = 0x7000.
Proof. repeat split; vm_compute; reflexivity. Qed.

Example arm32_flag_clear_run :
  d (bthread_jump_fcontext (first_jump 0)) 8 = 108 /\
  loadd (memory (bthread_jump_fcontext (first_jump 0))) (0x7000 - 104) = 0 /\
  loadd (memory (bthread_jump_fcontext (first_jump 1))) (0x7000 - 104) = 108.
Proof. repeat split; vm_compute; reflexivity. Qed.

Lemma arm32_make_call_top_word : 0 <= r make_call 0 < 2 ^ 32.
Proof. arm32_numbers. Qed.

Lemma arm32_make_call_top : 0x70 <= r make_call 0.
Proof. arm32_numbers. Qed.

Lemma arm32_make_call_fn : 0 <= r make_call 2 < 2 ^ 32.
Proof. arm32_numbers. Qed.

Lemma arm32_finish_at_word : 0 <= finish_at < 2 ^ 32.
Proof. arm32_numbers. Qed.

Lemma arm32_finish_at_aligned : finish_at mod 4 = 0.
Proof. reflexivity. Qed.

Lemma arm32_first_jump_can_suspend (p : Z) : can_suspend (first_jump p).
Proof. arm32_numbers. Qed.

Lemma arm32_first_jump_frame_apart (p : Z) :
  frame_apart (first_jump p) (r (bthread_make_fcontext finish_at make_call) 0).
Proof. rewrite arm32_made_frame_value. arm32_numbers. Qed.

Lemma arm32_first_jump_target (p : Z) :
  r (first_jump p) 1 = r (bthread_make_fcontext finish_at make_call) 0.
Proof. reflexivity. Qed.

Lemma arm32_first_jump_target_range (p : Z) :
  0 <= r (first_jump p) 1 /\ r (first_jump p) 1 + 104 < 2 ^ 32.
Proof. rewrite arm32_first_jump_target, arm32_made_frame_value. lia. Qed.

Lemma arm32_first_jump_frame_intact (p : Z) :
  agree (memory (first_jump p)) (memory (bthread_make_fcontext finish_at make_call))
        (r (bthread_make_fcontext finish_at make_call) 0) 104.
Proof.
  unfold first_jump. rewrite arm32_memory_mkState. intros x0 _. reflexivity.
Qed.

Lemma arm32_first_jump_flag_set : r (first_jump 1) 3 <> 0.
Proof. cbv [r first_jump]. discriminate. Qed.

Lemma arm32_first_jump_flag_clear : r (first_jump 0) 3 = 0.
Proof. reflexivity. Qed.

Lemma arm32_entry_returns_lr :
  r entry_returns 14 = r (bthread_jump_fcontext (first_jump 1)) 14.
Proof. lazy. reflexivity. Qed.

Lemma arm32_first_jump_saved_are_words : saved_are_words (first_jump 1).
Proof.
  unfold saved_are_words.
  split; [| split].
  - intros n Hn. cbv [r first_jump].
    do 15 (destruct n as [| n]; [lia |]). lia.
  - cbv [r first_jump]. lia.
  - intros n Hn. cbv [d first_jump]. lia.
Qed.

Lemma arm32_switch_back_can_suspend : can_suspend switch_back.
Proof. arm32_numbers. Qed.

Lemma arm32_switch_back_frame_apart :
  frame_apart switch_back
    (loadw (memory (bthread_jump_fcontext (first_jump 1))) (r (first_jump 1) 0)).
Proof. rewrite arm32_suspended_ctx_value. arm32_numbers. Qed.

Lemma arm32_switch_back_target :
  r switch_back 1 =
  loadw (memory (bthread_jump_fcontext (first_jump 1))) (r (first_jump 1) 0).
Proof. reflexivity. Qed.

Lemma arm32_switch_back_frame_intact :
  agree (memory switch_back) (memory (bthread_jump_fcontext (first_jump 1)))
    (loadw (memory (bthread_jump_fcontext (first_jump 1))) (r (first_jump 1) 0)) 104.
Proof.
  unfold switch_back. rewrite arm32_memory_mkState. intros x0 _. reflexivity.
Qed.

Lemma arm32_switch_back_flag_set : r switch_back 3 <> 0.
Proof. cbv [r switch_back]. discriminate. Qed.

Lemma saved_register_4 : (4 <= 4 <= 11)%nat.
Proof. lia. Qed.

Lemma saved_register_d8 : (8 <= 8 <= 15)%nat.
Proof. lia. Qed.

Lemma arm32_make_fcontext_sets_up_frame_witness :
  (0 <= r make_call 0 < 2 ^ 32 /\ 0x70 <= r make_call 0 /\
   0 <= r make_call 2 < 2 ^ 32 /\ 0 <= finish_at < 2 ^ 32) /\
  (r (bthread_make_fcontext finish_at make_call) 0 + 104) mod 16 = 0 /\
  loadw (memory (bthread_make_fcontext finish_at make_call))
        (r (bthread_make_fcontext finish_at make_call) 0 + 100) = r make_call 2.
Proof.
  split.
  { exact (conj arm32_make_call_top_word (conj arm32_make_call_top
             (conj arm32_make_call_fn arm32_finish_at_word))). }
  destruct (Arm32Extras.arm32_make_fcontext_sets_up_frame finish_at make_call
              arm32_make_call_top_word arm32_make_call_top arm32_make_call_fn
              arm32_finish_at_word)
    as (Hmod & _ & Hentry & _).
  split; [exact Hmod | exact Hentry].
Defined.

Lemma arm32_first_switch_enters_witness :
  (0 <= r make_call 0 < 2 ^ 32 /\ 0x70 <= r make_call 0 /\
   0 <= r make_call 2 < 2 ^ 32 /\ 0 <= finish_at < 2 ^ 32 /\
   can_suspend (first_jump 1) /\
   frame_apart (first_jump 1) (r (bthread_make_fcontext finish_at make_call) 0) /\
   r (first_jump 1) 1 = r (bthread_make_fcontext finish_at make_call) 0 /\
   agree (memory (first_jump 1)) (memory (bthread_make_fcontext finish_at make_call))
         (r (bthread_make_fcontext finish_at make_call) 0) 104) /\
  pc (bthread_jump_fcontext (first_jump 1)) = r make_call 2 - r make_call 2 mod 2 /\
  r (bthread_jump_fcontext (first_jump 1)) 0 = r (first_jump 1) 2 /\
  r (bthread_jump_fcontext (first_jump 1)) 14 = finish_at.
Proof.
  split.
  { exact (conj arm32_make_call_top_word (conj arm32_make_call_top
             (conj arm32_make_call_fn (conj arm32_finish_at_word
                (conj (arm32_first_jump_can_suspend 1)
                   (conj (arm32_first_jump_frame_apart 1)
                      (conj (arm32_first_jump_target 1)
                         (arm32_first_jump_frame_intact 1)))))))). }
  destruct (Arm32Extras.arm32_first_switch_enters finish_at make_call (first_jump 1)
              arm32_make_call_top_word arm32_make_call_top arm32_make_call_fn
              arm32_finish_at_word (arm32_first_jump_can_suspend 1)
              (arm32_first_jump_frame_apart 1) (arm32_first_jump_target 1)
              (arm32_first_jump_frame_intact 1))
    as (Hpc & _ & Hval & Hlr & _).
  split; [exact Hpc |]. split; [exact Hval | exact Hlr].
Defined.

Lemma arm32_entry_return_exits_witness :
  (0 <= r make_call 0 < 2 ^ 32 /\ 0x70 <= r make_call 0 /\
   0 <= r make_call 2 < 2 ^ 32 /\ 0 <= finish_at < 2 ^ 32 /\
   finish_at mod 4 = 0 /\
   can_suspend (first_jump 1) /\
   frame_apart (first_jump 1) (r (bthread_make_fcontext finish_at make_call) 0) /\
   r (first_jump 1) 1 = r (bthread_make_fcontext finish_at make_call) 0 /\
   agree (memory (first_jump 1)) (memory (bthread_make_fcontext finish_at make_call))
         (r (bthread_make_fcontext finish_at make_call) 0) 104 /\
   r entry_returns 14 = r (bthread_jump_fcontext (first_jump 1)) 14) /\
  pc (bx 14 entry_returns) = finish_at /\
  continue finish_at (bx 14 entry_returns) = Exited 0.
Proof.
  split.
  { exact (conj arm32_make_call_top_word (conj arm32_make_call_top
             (conj arm32_make_call_fn (conj arm32_finish_at_word
                (conj arm32_finish_at_aligned
                   (conj (arm32_first_jump_can_suspend 1)
                      (conj (arm32_first_jump_frame_apart 1)
                         (conj (arm32_first_jump_target 1)
                            (conj (arm32_first_jump_frame_intact 1)
                               arm32_entry_returns_lr))))))))). }
  destruct (Arm32Extras.arm32_entry_return_exits finish_at make_call (first_jump 1)
              entry_returns
              arm32_make_call_top_word arm32_make_call_top arm32_make_call_fn
              arm32_finish_at_word arm32_finish_at_aligned
              (arm32_first_jump_can_suspend 1) (arm32_first_jump_frame_apart 1)
              (arm32_first_jump_target 1) (arm32_first_jump_frame_intact 1)
              arm32_entry_returns_lr)
    as (Hgo & _ & Hexit).
  split; [exact Hgo | exact Hexit].
Defined.

Lemma arm32_resume_restores_call_witness :
  (saved_are_words (first_jump 1) /\ can_suspend (first_jump 1) /\
   can_suspend switch_back /\
   frame_apart switch_back
     (loadw (memory (bthread_jump_fcontext (first_jump 1))) (r (first_jump 1) 0)) /\
   r switch_back 1 =
     loadw (memory (bthread_jump_fcontext (first_jump 1))) (r (first_jump 1) 0) /\
   agree (memory switch_back) (memory (bthread_jump_fcontext (first_jump 1)))
     (loadw (memory (bthread_jump_fcontext (first_jump 1))) (r (first_jump 1) 0))
     104 /\
   r (first_jump 1) 3 <> 0 /\ r switch_back 3 <> 0) /\
  pc (bthread_jump_fcontext switch_back) =
    r (first_jump 1) 14 - r (first_jump 1) 14 mod 2 /\
  sp (bthread_jump_fcontext switch_back) = sp (first_jump 1) /\
  r (bthread_jump_fcontext switch_back) 4 = r (first_jump 1) 4 /\
  d (bthread_jump_fcontext switch_back) 8 = d (first_jump 1) 8.
Proof.
  split.
  { exact (conj arm32_first_jump_saved_are_words
             (conj (arm32_first_jump_can_suspend 1)
                (conj arm32_switch_back_can_suspend
                   (conj arm32_switch_back_frame_apart
                      (conj arm32_switch_back_target
                         (conj arm32_switch_back_frame_intact
                            (conj arm32_first_jump_flag_set
                               arm32_switch_back_flag_set))))))). }
  destruct (Arm32Extras.arm32_resume_restores_call (first_jump 1) switch_back
              arm32_first_jump_saved_are_words (arm32_first_jump_can_suspend 1)
              arm32_switch_back_can_suspend arm32_switch_back_frame_apart
              arm32_switch_back_target arm32_switch_back_frame_intact)
    as (_ & Hpc & _ & Hsp & _ & _ & Hx & Hd).
  split; [exact Hpc |]. split; [exact Hsp |].
  split; [exact (Hx 4%nat saved_register_4) |].
  exact (Hd arm32_first_jump_flag_set arm32_switch_back_flag_set 8%nat
            saved_register_d8).
Defined.

Lemma arm32_switch_honours_preserve_fpu_witness :
  (can_suspend (first_jump 0) /\ 0 <= r (first_jump 0) 1 /\
   r (first_jump 0) 1 + 104 < 2 ^ 32 /\ r (first_jump 0) 3 = 0) /\
  d (bthread_jump_fcontext (first_jump 0)) 8 = d (first_jump 0) 8.
Proof.
  split.
  { exact (conj (arm32_first_jump_can_suspend 0)
             (conj (proj1 (arm32_first_jump_target_range 0))
                (conj (proj2 (arm32_first_jump_target_range 0))
                   arm32_first_jump_flag_clear))). }
  exact (proj1 (proj1 (Arm32Extras.arm32_switch_honours_preserve_fpu (first_jump 0)
                         (arm32_first_jump_can_suspend 0)
                         (proj1 (arm32_first_jump_target_range 0))
                         (proj2 (arm32_first_jump_target_range 0)))
                      arm32_first_jump_flag_clear) 8%nat).
Defined.

End Arm32ExtraExamples.
